(** * TradeGPT gateway: a shallow embedding of the request handlers

    The gateway (an Express application) has three routes:
    [GET /health], [POST /api/tradegpt/ask] and [GET /api/tradegpt/quiz].
    This development embeds the two non-trivial handlers and the helper
    [getUsdPrice], together with the parts of the JavaScript run time
    they rely on:

    - JavaScript numbers are IEEE 754 binary64 values, modelled with the
      Standard Library's [spec_float] at precision 53 and [emax] 1024;
    - JavaScript strings are modelled as [string], holding the UTF-8
      encoding of the text; every character the handlers inspect
      (digits, letters, JSON punctuation, white space) is ASCII;
    - [JSON.parse], [Number], [String], [Number.prototype.toFixed],
      property reads and the regular expression [\bS\b] with flag [i]
      are executable functions; the conversions to a string and to a
      number throw where JavaScript's do, on an object that has a
      member [toString];
    - [fetch] and [Math.random] are events of a small interaction monad,
      answered by a [World]; a run collects the outbound calls made. The
      error with which a body that is not JSON is refused is the
      runtime's: a reply carries it.

    The allow-list of origins and the [origin] option of [cors] are
    embedded as well, and so are the handlers of the two earlier
    versions of the gateway where they differ from the latest. *)

From Stdlib Require Import ZArith List Bool Ascii String Lia.
From Stdlib Require Import Floats.SpecFloat.
From Stdlib Require Import DecimalString.
From Stdlib Require Import Sorting.Sorted.
Import ListNotations.

Local Open Scope string_scope.
Local Open Scope Z_scope.

(** ** Characters *)

Module Char.

Definition code (c : ascii) : Z := Z.of_N (N_of_ascii c).

Definition of_code (z : Z) : ascii := ascii_of_N (Z.to_N z).

Definition in_range (lo hi : Z) (c : ascii) : bool :=
  (lo <=? code c) && (code c <=? hi).

Definition is_digit : ascii -> bool := in_range 48 57.
Definition is_upper : ascii -> bool := in_range 65 90.
Definition is_lower : ascii -> bool := in_range 97 122.

(** The class [\w] of a regular expression without the [u] flag:
    [A-Za-z0-9_]. *)
Definition is_word (c : ascii) : bool :=
  is_digit c || is_upper c || is_lower c || (code c =? 95).

(** Upper-casing of one byte. Only ASCII letters change; a byte of a
    multi-byte UTF-8 sequence is kept (the Unicode case mapping of
    characters outside ASCII is not modelled). *)
Definition upper (c : ascii) : ascii :=
  if is_lower c then of_code (code c - 32) else c.

Definition digit_value (c : ascii) : Z := code c - 48.

Definition hex_value (c : ascii) : option Z :=
  if is_digit c then Some (code c - 48)
  else if in_range 65 70 c then Some (code c - 55)
  else if in_range 97 102 c then Some (code c - 87)
  else None.

End Char.

Definition chars (s : string) : list ascii := list_ascii_of_string s.
Definition text (l : list ascii) : string := string_of_list_ascii l.

(** [String.prototype.toUpperCase]. *)
Definition toUpperCase (s : string) : string := text (map Char.upper (chars s)).

(** [Array.prototype.join] on an array of strings. *)
Fixpoint join (sep : string) (l : list string) : string :=
  match l with
  | [] => ""
  | [x] => x
  | x :: r => x ++ sep ++ join sep r
  end.

(** Decimal numeral of a non-negative integer. *)
Definition decimal (z : Z) : string := NilZero.string_of_uint (N.to_uint (Z.to_N z)).

Fixpoint digits_value_from (acc : Z) (l : list ascii) : Z :=
  match l with
  | [] => acc
  | c :: r => digits_value_from (10 * acc + Char.digit_value c) r
  end.

(** Value of a sequence of decimal digits. *)
Definition digits_value (l : list ascii) : Z := digits_value_from 0 l.

Fixpoint span_digits (l : list ascii) : list ascii * list ascii :=
  match l with
  | c :: r =>
      if Char.is_digit c then let '(d, t) := span_digits r in (c :: d, t)
      else ([], l)
  | [] => ([], [])
  end.

Definition zeros (n : Z) : string := text (repeat "0"%char (Z.to_nat n)).

(** ** Numbers: IEEE 754 binary64 *)

Definition number : Type := spec_float.

Module Num.

Definition prec : Z := 53.
Definition emax : Z := 1024.

Definition NaN : number := S754_nan.
Definition Infinity : number := S754_infinity false.
Definition zero : number := S754_zero false.

(** The number nearest to [n / d] (round to nearest, ties to even), for
    [0 <= n] and [0 < d]; the division and its rounding are those of
    [SFdiv]. *)
Definition of_ratio (neg : bool) (n d : Z) : number :=
  match n with
  | Z0 => S754_zero neg
  | _ =>
      let '(q, e, l) := SFdiv_core_binary prec emax n 0 d 0 in
      binary_round_aux prec emax neg q e l
  end.

(** The number nearest to [m * 10 ^ e], for [0 <= m]. Far outside the
    range of binary64 the result is known without the power of ten: an
    infinity from [10 ^ 310] on, and a zero below [2 ^ -1075] (where
    [m * 10 ^ e < 2 ^ (log2 m + 1) * 2 ^ (3 * e)]). *)
Definition of_decimal (neg : bool) (m e : Z) : number :=
  if m =? 0 then S754_zero neg
  else if 310 <=? e then S754_infinity neg
  else if Z.log2 m + 1 + 3 * e <=? -1075 then S754_zero neg
  else if 0 <=? e then of_ratio neg (m * 10 ^ e) 1
  else of_ratio neg m (10 ^ (- e)).

Definition of_Z (z : Z) : number := of_ratio (z <? 0) (Z.abs z) 1.

Definition mul : number -> number -> number := SFmul prec emax.

Definition eqb (x y : number) : bool :=
  match x, y with
  | S754_finite s m e, S754_finite s' m' e' =>
      Bool.eqb s s' && Pos.eqb m m' && Z.eqb e e'
  | S754_zero s, S754_zero s' => Bool.eqb s s'
  | S754_infinity s, S754_infinity s' => Bool.eqb s s'
  | _, _ => false
  end.

(** [ToBoolean] of a number: NaN, +0 and -0 are falsy. *)
Definition truthy (x : number) : bool :=
  match x with
  | S754_nan | S754_zero _ => false
  | _ => true
  end.

Definition is_finite (x : number) : bool :=
  match x with
  | S754_zero _ | S754_finite _ _ _ => true
  | _ => false
  end.

(** Strictly positive: above zero, [+Infinity] included. *)
Definition is_positive (x : number) : bool :=
  match x with
  | S754_finite false _ _ | S754_infinity false => true
  | _ => false
  end.

(** The exact value of a finite positive number, as a fraction. *)
Definition fraction (m : positive) (e : Z) : Z * Z :=
  if 0 <=? e then (Zpos m * 2 ^ e, 1) else (Zpos m, 2 ^ (- e)).

(** [Math.floor]. *)
Definition floor (x : number) : number :=
  match x with
  | S754_finite s m e =>
      if 0 <=? e then x
      else
        let d := 2 ^ (- e) in
        if s then of_Z (- ((Zpos m + d - 1) / d)) else of_Z (Zpos m / d)
  | _ => x
  end.

(** *** Number to string *)

(** [ge_pow10 nd p] : the fraction [nd] is at least [10 ^ p]. *)
Definition ge_pow10 (nd : Z * Z) (p : Z) : bool :=
  let '(n, d) := nd in
  if 0 <=? p then d * 10 ^ p <=? n else d <=? n * 10 ^ (- p).

(** [floor (nd / 10 ^ p)]. *)
Definition scaled_floor (nd : Z * Z) (p : Z) : Z :=
  let '(n, d) := nd in
  if 0 <=? p then n / (d * 10 ^ p) else (n * 10 ^ (- p)) / d.

(** Comparison of [2 * nd] with [c * 10 ^ p]. *)
Definition compare_twice (nd : Z * Z) (c p : Z) : comparison :=
  let '(n, d) := nd in
  if 0 <=? p then (2 * n ?= c * 10 ^ p * d) else (2 * n * 10 ^ (- p) ?= c * d).

Fixpoint decimal_exponent_from (fuel : nat) (nd : Z * Z) (n : Z) : Z :=
  match fuel with
  | O => n
  | S f => if ge_pow10 nd (n - 1) then n else decimal_exponent_from f nd (n - 1)
  end.

(** The integer [n] with [10 ^ (n - 1) <= nd < 10 ^ n]: a search
    downwards from an estimate that is at most three too large. *)
Definition decimal_exponent (nd : Z * Z) : Z :=
  let '(n, d) := nd in
  let est := ((Z.log2 n - Z.log2 d) * 30103) / 100000 in
  decimal_exponent_from 8 nd (est + 3).

(** The candidates with [k] digits around the exact value: the
    multiple of [10 ^ (n0 - k)] just below and the one just above. *)
Definition candidate (x : number) (nd : Z * Z) (n0 k : Z) : option (Z * Z) :=
  let p := n0 - k in
  let lo := scaled_floor nd p in
  let hi := lo + 1 in
  let ok_lo := eqb (of_decimal false lo p) x in
  let ok_hi := eqb (of_decimal false hi p) x in
  let up := if hi =? 10 ^ k then (10 ^ (k - 1), n0 + 1) else (hi, n0) in
  match ok_lo, ok_hi with
  | true, true =>
      match compare_twice nd (2 * lo + 1) p with
      | Lt => Some (lo, n0)
      | Gt => Some up
      | Eq => if Z.even lo then Some (lo, n0) else Some up
      end
  | true, false => Some (lo, n0)
  | false, true => Some up
  | false, false => None
  end.

Fixpoint shortest_from (fuel : nat) (x : number) (nd : Z * Z) (n0 k : Z)
  : Z * Z * Z :=
  match fuel with
  | O => (0, k, n0)
  | S f =>
      match candidate x nd n0 k with
      | Some (s, n) => (s, k, n)
      | None => shortest_from f x nd n0 (k + 1)
      end
  end.

(** The digits [s], their count [k] and the exponent [n] of
    Number::toString: [k] is the least count for which some
    [s * 10 ^ (n - k)] reads back as the number, and [s] is then the
    value closest to it. Seventeen digits always suffice. *)
Definition shortest (m : positive) (e : Z) : Z * Z * Z :=
  let nd := fraction m e in
  shortest_from 17 (S754_finite false m e) nd (decimal_exponent nd) 1.

Definition layout (s k n : Z) : string :=
  let ds := decimal s in
  if (k <=? n) && (n <=? 21) then ds ++ zeros (n - k)
  else if (0 <? n) && (n <=? 21) then
    substring 0 (Z.to_nat n) ds ++ "." ++ substring (Z.to_nat n) (Z.to_nat (k - n)) ds
  else if (-6 <? n) && (n <=? 0) then "0." ++ zeros (- n) ++ ds
  else
    let c := n - 1 in
    let ex := (if c <? 0 then "e-" else "e+") ++ decimal (Z.abs c) in
    if k =? 1 then ds ++ ex
    else substring 0 1 ds ++ "." ++ substring 1 (Z.to_nat (k - 1)) ds ++ ex.

(** Number::toString, radix 10. *)
Definition toString (x : number) : string :=
  match x with
  | S754_nan => "NaN"
  | S754_zero _ => "0"
  | S754_infinity s => if s then "-Infinity" else "Infinity"
  | S754_finite s m e =>
      let '(d, k, n) := shortest m e in
      (if s then "-" else "") ++ layout d k n
  end.

(** The integer nearest to [100 * x], the larger one on a tie. *)
Definition hundredths (m : positive) (e : Z) : Z :=
  let '(n, d) := fraction m e in (200 * n + d) / (2 * d).

Definition two_digits (r : Z) : string :=
  text [Char.of_code (48 + r / 10); Char.of_code (48 + r mod 10)].

(** [Number.prototype.toFixed] with two fraction digits: the integer
    [n] nearest to [100 * x] (the larger one on a tie), written with
    its last two digits after the point. From [10 ^ 21] on, and for
    NaN and the infinities, the result is that of [toString]. *)
Definition toFixed2 (x : number) : string :=
  match x with
  | S754_finite s m e =>
      let '(n, d) := fraction m e in
      if d * 10 ^ 21 <=? n then toString x
      else
        let h := hundredths m e in
        (if s then "-" else "") ++ decimal (h / 100) ++ "." ++ two_digits (h mod 100)
  | S754_zero _ => "0.00"
  | _ => toString x
  end.

(** *** String to number *)

(** The UTF-8 encodings of the characters of StrWhiteSpaceChar: TAB,
    LF, VT, FF, CR, SP, U+00A0, U+1680, U+2000..U+200A, U+2028, U+2029,
    U+202F, U+205F, U+3000 and U+FEFF. *)
Definition white_space : list (list Z) :=
  [[9]; [10]; [11]; [12]; [13]; [32]; [194; 160]; [225; 154; 128];
   [226; 128; 128]; [226; 128; 129]; [226; 128; 130]; [226; 128; 131];
   [226; 128; 132]; [226; 128; 133]; [226; 128; 134]; [226; 128; 135];
   [226; 128; 136]; [226; 128; 137]; [226; 128; 138]; [226; 128; 168];
   [226; 128; 169]; [226; 128; 175]; [226; 129; 159]; [227; 128; 128];
   [239; 187; 191]].

Fixpoint strip_prefix (p : list Z) (l : list ascii) : option (list ascii) :=
  match p, l with
  | [], _ => Some l
  | z :: p', c :: r => if Char.code c =? z then strip_prefix p' r else None
  | _ :: _, [] => None
  end.

Fixpoint strip_one (seqs : list (list Z)) (l : list ascii) : option (list ascii) :=
  match seqs with
  | [] => None
  | p :: ps =>
      match strip_prefix p l with
      | Some r => Some r
      | None => strip_one ps l
      end
  end.

Fixpoint strip_from (fuel : nat) (seqs : list (list Z)) (l : list ascii) : list ascii :=
  match fuel with
  | O => l
  | S f =>
      match strip_one seqs l with
      | Some r => strip_from f seqs r
      | None => l
      end
  end.

Definition strip_leading (seqs : list (list Z)) (l : list ascii) : list ascii :=
  strip_from (List.length l) seqs l.

Definition trim (l : list ascii) : list ascii :=
  let l1 := strip_leading white_space l in
  rev (strip_leading (map (@rev Z) white_space) (rev l1)).

Fixpoint radix_value (radix : Z) (acc : Z) (l : list ascii) : option Z :=
  match l with
  | [] => Some acc
  | c :: r =>
      match Char.hex_value c with
      | Some v => if v <? radix then radix_value radix (radix * acc + v) r else None
      | None => None
      end
  end.

(** NonDecimalIntegerLiteral: [0x], [0o] or [0b] and at least one digit. *)
Definition non_decimal (l : list ascii) : option Z :=
  match l with
  | "0"%char :: p :: ((_ :: _) as ds) =>
      if (Char.code p =? 120) || (Char.code p =? 88) then radix_value 16 0 ds
      else if (Char.code p =? 111) || (Char.code p =? 79) then radix_value 8 0 ds
      else if (Char.code p =? 98) || (Char.code p =? 66) then radix_value 2 0 ds
      else None
  | _ => None
  end.

(** ExponentPart, optional: [e] or [E], an optional sign and at least
    one digit, up to the end of the text. *)
Definition exponent_part (l : list ascii) : option Z :=
  match l with
  | [] => Some 0
  | c :: r =>
      if (Char.code c =? 101) || (Char.code c =? 69) then
        let '(neg, r) :=
          match r with
          | "-"%char :: r' => (true, r')
          | "+"%char :: r' => (false, r')
          | _ => (false, r)
          end in
        match span_digits r with
        | ((_ :: _) as ds, []) => Some (if neg then - digits_value ds else digits_value ds)
        | _ => None
        end
      else None
  end.

(** StrUnsignedDecimalLiteral other than [Infinity]: the digits of the
    mantissa and the power of ten that scales them. *)
Definition unsigned_decimal (l : list ascii) : option (Z * Z) :=
  let '(ip, r) := span_digits l in
  let '(fp, r, dot) :=
    match r with
    | "."%char :: r' => let '(fp, r'') := span_digits r' in (fp, r'', true)
    | _ => ([], r, false)
    end in
  match (ip ++ fp)%list with
  | [] => None
  | ds =>
      match exponent_part r with
      | Some ex => Some (digits_value ds, ex - Z.of_nat (List.length fp))
      | None => None
      end
  end.

(** StrDecimalLiteral: an optional sign, then [Infinity] or an
    unsigned decimal literal. *)
Definition decimal_literal (l : list ascii) : number :=
  let '(neg, r) :=
    match l with
    | "-"%char :: r' => (true, r')
    | "+"%char :: r' => (false, r')
    | _ => (false, l)
    end in
  if String.eqb (text r) "Infinity" then S754_infinity neg
  else
    match unsigned_decimal r with
    | Some (m, e) => of_decimal neg m e
    | None => NaN
    end.

(** StringToNumber: the text with white space trimmed is empty (+0), a
    non-decimal integer literal, a decimal literal, or not a number. *)
Definition of_string (s : string) : number :=
  match trim (chars s) with
  | [] => zero
  | l =>
      match non_decimal l with
      | Some z => of_Z z
      | None => decimal_literal l
      end
  end.

End Num.

(** ** Values *)

(** A JavaScript value as the handlers meet them: the primitives, arrays
    and plain objects (an object keeps its own properties in creation
    order), and [VNative] for a member of [Object.prototype], which a
    read of an object can reach through the prototype chain. *)
Unset Elimination Schemes.
Inductive value : Type :=
| VUndefined
| VNull
| VBool (b : bool)
| VNum (n : number)
| VStr (s : string)
| VArr (items : list value)
| VObj (members : list (string * value))
| VNative (name : string).
Set Elimination Schemes.

Definition object : Type := list (string * value).

(** The own property names of [Object.prototype]. *)
Definition object_prototype : list string :=
  ["constructor"; "__defineGetter__"; "__defineSetter__"; "hasOwnProperty";
   "__lookupGetter__"; "__lookupSetter__"; "isPrototypeOf";
   "propertyIsEnumerable"; "toString"; "valueOf"; "__proto__";
   "toLocaleString"].

Definition mem (k : string) (l : list string) : bool := existsb (String.eqb k) l.

Fixpoint own (o : object) (k : string) : option value :=
  match o with
  | [] => None
  | (k', v) :: r => if String.eqb k' k then Some v else own r k
  end.

(** A property name that is an array index: the canonical numeral of
    an integer below [2 ^ 32 - 1]. *)
Definition integer_index (k : string) : option Z :=
  match chars k with
  | [] => None
  | c :: r =>
      if forallb Char.is_digit (c :: r) && (negb (Char.code c =? 48) || (List.length r =? 0)%nat)
      then
        let n := digits_value (c :: r) in
        if n <? 4294967295 then Some n else None
      else None
  end.

(** The order in which an object lists its own properties: the array
    indices first, ascending, then the other names as they were created. *)
Definition precedes (k k' : string) : bool :=
  match integer_index k, integer_index k' with
  | Some i, Some j => i <? j
  | Some _, None => true
  | None, _ => false
  end.

(** [o[k] = v] on a plain object whose properties are in that order: an
    existing property keeps its place, a new one takes the place its
    name gives it. *)
Fixpoint set (o : object) (k : string) (v : value) : object :=
  match o with
  | [] => [(k, v)]
  | (k', v') :: r =>
      if String.eqb k' k then (k, v) :: r
      else if precedes k k' then (k, v) :: o
      else (k', v') :: set r k v
  end.

(** [o[k]] on a plain object: the own property, else the member of
    [Object.prototype] of that name, else [undefined]. *)
Definition lookup (o : object) (k : string) : value :=
  match own o k with
  | Some v => v
  | None => if mem k object_prototype then VNative k else VUndefined
  end.

(** A canonical array index: decimal digits without a leading zero. *)
Definition array_index (k : string) : option nat :=
  match chars k with
  | [] => None
  | c :: r =>
      if forallb Char.is_digit (c :: r) && (negb (Char.code c =? 48) || (List.length r =? 0)%nat)
      then Some (Z.to_nat (digits_value (c :: r)))
      else None
  end.

(** [ToBoolean]. *)
Definition ToBoolean (v : value) : bool :=
  match v with
  | VUndefined | VNull => false
  | VBool b => b
  | VNum n => Num.truthy n
  | VStr s => negb (String.eqb s "")
  | VArr _ | VObj _ | VNative _ => true
  end.

(** [a || b]. *)
Definition or_else (a b : value) : value := if ToBoolean a then a else b.

(** A default in a destructuring pattern, [{ k = d }]: it stands in
    for [undefined] only. *)
Definition default_to (d v : value) : value :=
  match v with
  | VUndefined => d
  | _ => v
  end.

(** [a ?? b]. *)
Definition nullish (a b : value) : value :=
  match a with
  | VUndefined | VNull => b
  | _ => a
  end.

(** Errors thrown or rejected: a name and a message, as [String(e)]
    prints them. *)
Record exn : Type := { exn_name : string; exn_message : string }.

Definition describe (e : exn) : string := exn_name e ++ ": " ++ exn_message e.

(** Reading a property of [null] or [undefined]. *)
Definition TypeError (v : value) (k : string) : exn :=
  {| exn_name := "TypeError";
     exn_message := "Cannot read properties of "
                    ++ match v with
                       | VNull => "null"
                       | _ => "undefined"
                       end
                    ++ " (reading '" ++ k ++ "')" |}.

(** Converting to a primitive value an object that has no callable
    [toString] and no [valueOf] returning a primitive. *)
Definition NotPrimitive : exn :=
  {| exn_name := "TypeError";
     exn_message := "Cannot convert object to primitive value" |}.

(** [ToString], which can throw. The members of a plain object are
    data (the values of a JSON text or of a query string), so that an
    own [toString] is not callable, an own [valueOf] neither, and the
    inherited [valueOf] returns the object: the conversion of an object
    with an own [toString] throws, and that of any other plain object
    gives [[object Object]]. An array is joined with commas, [null] and
    [undefined] elements giving the empty string, the first element
    that throws deciding; [Object.prototype], the value of [__proto__],
    gives [[object Object]]; a built-in function prints its native
    source under its own name ([Object] for [constructor]). *)
Fixpoint ToString (v : value) : exn + string :=
  match v with
  | VUndefined => inr "undefined"
  | VNull => inr "null"
  | VBool b => inr (if b then "true" else "false")
  | VNum n => inr (Num.toString n)
  | VStr s => inr s
  | VArr l =>
      match
        (fix items (l : list value) : exn + list string :=
           match l with
           | [] => inr []
           | x :: r =>
               match match x with
                     | VUndefined | VNull => inr ""
                     | _ => ToString x
                     end with
               | inl e => inl e
               | inr s =>
                   match items r with
                   | inl e => inl e
                   | inr t => inr (s :: t)
                   end
               end
           end) l
      with
      | inl e => inl e
      | inr t => inr (join "," t)
      end
  | VObj o =>
      match own o "toString" with
      | Some _ => inl NotPrimitive
      | None => inr "[object Object]"
      end
  | VNative k =>
      inr (if String.eqb k "__proto__" then "[object Object]"
           else
             "function " ++ (if String.eqb k "constructor" then "Object" else k)
             ++ "() { [native code] }")
  end.

(** [ToNumber], that is [Number(v)]: arrays, objects and functions go
    through their string, and throw when that conversion does. *)
Definition ToNumber (v : value) : exn + number :=
  match v with
  | VUndefined => inr Num.NaN
  | VNull => inr Num.zero
  | VBool b => inr (if b then Num.of_Z 1 else Num.zero)
  | VNum n => inr n
  | _ =>
      match ToString v with
      | inl e => inl e
      | inr s => inr (Num.of_string s)
      end
  end.

(** The property read [v[k]] or [v.k]. Reading from [null] or
    [undefined] throws. A string has its indices (the i-th byte, which is
    the i-th character of ASCII text) and [length]; an array its
    elements and [length]. The members of [Array.prototype] and
    [String.prototype] are left out: the handlers read no key that names
    one. *)
Definition Get (v : value) (k : string) : exn + value :=
  match v with
  | VUndefined | VNull => inl (TypeError v k)
  | VObj o => inr (lookup o k)
  | VArr l =>
      match array_index k with
      | Some i => inr (nth i l VUndefined)
      | None =>
          if String.eqb k "length" then inr (VNum (Num.of_Z (Z.of_nat (List.length l))))
          else inr VUndefined
      end
  | VStr s =>
      match array_index k with
      | Some i =>
          match String.get i s with
          | Some c => inr (VStr (String c ""))
          | None => inr VUndefined
          end
      | None =>
          if String.eqb k "length" then inr (VNum (Num.of_Z (Z.of_nat (String.length s))))
          else inr VUndefined
      end
  | VBool _ | VNum _ | VNative _ => inr VUndefined
  end.

(** The optional read [v?.[k]] or [v?.k]: [undefined] when [v] is
    [null] or [undefined]. *)
Definition GetOpt (v : value) (k : string) : value :=
  match Get v k with
  | inr x => x
  | inl _ => VUndefined
  end.

(** ** JSON.parse *)

Module JSON.

Definition quote : ascii := Char.of_code 34.

(** Texts below are written with an apostrophe where JSON has a double
    quote; [dq] puts the double quotes in. *)
Definition dq (s : string) : string :=
  text (map (fun c => if Char.code c =? 39 then quote else c) (chars s)).

Fixpoint skip_ws (l : list ascii) : list ascii :=
  match l with
  | c :: r =>
      if (Char.code c =? 32) || (Char.code c =? 9) || (Char.code c =? 10)
         || (Char.code c =? 13)
      then skip_ws r else l
  | [] => []
  end.

(** UTF-8 encoding of a code point (an unpaired surrogate is encoded
    like any three-byte code point). *)
Definition utf8 (cp : Z) : list ascii :=
  if cp <? 128 then [Char.of_code cp]
  else if cp <? 2048 then
    [Char.of_code (192 + cp / 64); Char.of_code (128 + cp mod 64)]
  else if cp <? 65536 then
    [Char.of_code (224 + cp / 4096); Char.of_code (128 + (cp / 64) mod 64);
     Char.of_code (128 + cp mod 64)]
  else
    [Char.of_code (240 + cp / 262144); Char.of_code (128 + (cp / 4096) mod 64);
     Char.of_code (128 + (cp / 64) mod 64); Char.of_code (128 + cp mod 64)].

Definition hex4 (a b c d : ascii) : option Z :=
  match Char.hex_value a, Char.hex_value b, Char.hex_value c, Char.hex_value d with
  | Some x, Some y, Some z, Some w => Some (((x * 16 + y) * 16 + z) * 16 + w)
  | _, _, _, _ => None
  end.

Definition simple_escape (c : ascii) : option ascii :=
  let z := Char.code c in
  if (z =? 34) || (z =? 92) || (z =? 47) then Some c
  else if z =? 98 then Some (Char.of_code 8)
  else if z =? 102 then Some (Char.of_code 12)
  else if z =? 110 then Some (Char.of_code 10)
  else if z =? 114 then Some (Char.of_code 13)
  else if z =? 116 then Some (Char.of_code 9)
  else None.

Definition is_high (u : Z) : bool := (55296 <=? u) && (u <=? 56319).
Definition is_low (u : Z) : bool := (56320 <=? u) && (u <=? 57343).

(** The characters of a string literal after its opening quote, up to
    the closing quote. [pending] holds a high surrogate read from a
    [\u] escape and not yet paired. *)
Fixpoint string_body (pending : option Z) (l : list ascii)
  : option (list ascii * list ascii) :=
  let flush := match pending with Some h => utf8 h | None => [] end in
  match l with
  | [] => None
  | c :: r =>
      if Char.code c =? 34 then Some (flush, r)
      else if Char.code c <? 32 then None
      else if Char.code c =? 92 then
        match r with
        | e :: r1 =>
            if Char.code e =? 117 then
              match r1 with
              | a :: b :: x :: y :: r2 =>
                  match hex4 a b x y with
                  | Some u =>
                      match pending with
                      | Some h =>
                          if is_low u then
                            match string_body None r2 with
                            | Some (s, t) =>
                                Some ((utf8 (65536 + (h - 55296) * 1024 + (u - 56320)) ++ s)%list, t)
                            | None => None
                            end
                          else if is_high u then
                            match string_body (Some u) r2 with
                            | Some (s, t) => Some ((utf8 h ++ s)%list, t)
                            | None => None
                            end
                          else
                            match string_body None r2 with
                            | Some (s, t) => Some ((utf8 h ++ utf8 u ++ s)%list, t)
                            | None => None
                            end
                      | None =>
                          if is_high u then string_body (Some u) r2
                          else
                            match string_body None r2 with
                            | Some (s, t) => Some ((utf8 u ++ s)%list, t)
                            | None => None
                            end
                      end
                  | None => None
                  end
              | _ => None
              end
            else
              match simple_escape e with
              | Some x =>
                  match string_body None r1 with
                  | Some (s, t) => Some ((flush ++ x :: s)%list, t)
                  | None => None
                  end
              | None => None
              end
        | [] => None
        end
      else
        match string_body None r with
        | Some (s, t) => Some ((flush ++ c :: s)%list, t)
        | None => None
        end
  end.

(** The fraction and exponent of a number, after its integer digits. *)
Definition number_tail (neg : bool) (ip : list ascii) (l : list ascii)
  : option (value * list ascii) :=
  let frac :=
    match l with
    | c :: r =>
        if Char.code c =? 46 then
          match span_digits r with
          | ((_ :: _) as fp, t) => Some (fp, t)
          | _ => None
          end
        else Some ([], l)
    | [] => Some ([], l)
    end in
  match frac with
  | None => None
  | Some (fp, t) =>
      let finish ex rest :=
        Some (VNum (Num.of_decimal neg (digits_value (ip ++ fp)%list)
                      (ex - Z.of_nat (List.length fp))), rest) in
      match t with
      | c :: r =>
          if (Char.code c =? 101) || (Char.code c =? 69) then
            let '(eneg, r) :=
              match r with
              | s :: r' =>
                  if Char.code s =? 45 then (true, r')
                  else if Char.code s =? 43 then (false, r')
                  else (false, r)
              | [] => (false, r)
              end in
            match span_digits r with
            | ((_ :: _) as ds, rest) =>
                finish (if eneg then - digits_value ds else digits_value ds) rest
            | _ => None
            end
          else finish 0 t
      | [] => finish 0 t
      end
  end.

(** A JSON number: an optional minus, integer digits without a leading
    zero, an optional fraction and an optional exponent. *)
Definition parse_number (l : list ascii) : option (value * list ascii) :=
  let '(neg, r) :=
    match l with
    | c :: r' => if Char.code c =? 45 then (true, r') else (false, l)
    | [] => (false, l)
    end in
  match span_digits r with
  | ([], _) => None
  | (c :: ip, t) =>
      if (Char.code c =? 48) && negb (List.length ip =? 0)%nat then
        number_tail neg [c] (ip ++ t)%list
      else number_tail neg (c :: ip) t
  end.

Definition literal (w : string) (v : value) (l : list ascii)
  : option (value * list ascii) :=
  match Num.strip_prefix (map Char.code (chars w)) l with
  | Some r => Some (v, r)
  | None => None
  end.

(** A JSON value at the head of [l], and the text left after it.
    Duplicate keys of an object keep the last value. *)
Fixpoint parse_value (fuel : nat) (l : list ascii) : option (value * list ascii) :=
  match fuel with
  | O => None
  | S f =>
      match skip_ws l with
      | [] => None
      | c :: r =>
          let z := Char.code c in
          if z =? 34 then
            match string_body None r with
            | Some (s, t) => Some (VStr (text s), t)
            | None => None
            end
          else if z =? 91 then
            match skip_ws r with
            | c' :: r' =>
                if Char.code c' =? 93 then Some (VArr [], r')
                else parse_elements f (c' :: r') []
            | [] => None
            end
          else if z =? 123 then
            match skip_ws r with
            | c' :: r' =>
                if Char.code c' =? 125 then Some (VObj [], r')
                else parse_members f (c' :: r') []
            | [] => None
            end
          else if z =? 110 then literal "null" VNull (c :: r)
          else if z =? 116 then literal "true" (VBool true) (c :: r)
          else if z =? 102 then literal "false" (VBool false) (c :: r)
          else parse_number (c :: r)
      end
  end
with parse_elements (fuel : nat) (l : list ascii) (acc : list value)
  : option (value * list ascii) :=
  match fuel with
  | O => None
  | S f =>
      match parse_value f l with
      | Some (v, t) =>
          match skip_ws t with
          | c :: r =>
              if Char.code c =? 44 then parse_elements f r (v :: acc)
              else if Char.code c =? 93 then Some (VArr (rev (v :: acc)), r)
              else None
          | [] => None
          end
      | None => None
      end
  end
with parse_members (fuel : nat) (l : list ascii) (acc : object)
  : option (value * list ascii) :=
  match fuel with
  | O => None
  | S f =>
      match skip_ws l with
      | q :: r =>
          if Char.code q =? 34 then
            match string_body None r with
            | Some (k, t) =>
                match skip_ws t with
                | colon :: t1 =>
                    if Char.code colon =? 58 then
                      match parse_value f t1 with
                      | Some (v, t2) =>
                          match skip_ws t2 with
                          | c :: r2 =>
                              if Char.code c =? 44 then parse_members f r2 (set acc (text k) v)
                              else if Char.code c =? 125 then Some (VObj (set acc (text k) v), r2)
                              else None
                          | [] => None
                          end
                      | None => None
                      end
                    else None
                | [] => None
                end
            | None => None
            end
          else None
      | [] => None
      end
  end.

(** [JSON.parse]: one value, white space around it and nothing else;
    [None] stands for the SyntaxError. Every nested call follows at
    most two levels of recursion per character read, so the fuel is
    never the reason for [None]. *)
Definition parse (s : string) : option value :=
  let l := chars s in
  match parse_value (2 * List.length l + 2) l with
  | Some (v, t) =>
      match skip_ws t with
      | [] => Some v
      | _ :: _ => None
      end
  | None => None
  end.

End JSON.

(** ** The regular expression of the ticker scan *)

Module RegExp.

(** The terms a pattern [\bS\b] is made of. *)
Inductive atom : Type :=
| Boundary
| Literal (c : ascii).

Definition pattern : Type := list atom.

(** [new RegExp(`\\b${s}\\b`)]: the tickers hold letters only, so each
    of their characters stands for itself. *)
Definition word (s : string) : pattern :=
  (Boundary :: map Literal (chars s) ++ [Boundary])%list.

(** Canonicalize, without the [u] flag: a character is compared by its
    upper case when the flag [i] is set. Only ASCII letters have an
    ASCII upper case that the comparison accepts. *)
Definition canonicalize (ignoreCase : bool) (c : ascii) : ascii :=
  if ignoreCase then Char.upper c else c.

Definition is_word (o : option ascii) : bool :=
  match o with
  | Some c => Char.is_word c
  | None => false
  end.

(** [match_here i p prev l]: the pattern matches at the head of [l],
    the character before it being [prev]. *)
Fixpoint match_here (i : bool) (p : pattern) (prev : option ascii) (l : list ascii)
  : bool :=
  match p with
  | [] => true
  | Boundary :: p' =>
      xorb (is_word prev) (is_word (hd_error l)) && match_here i p' prev l
  | Literal c :: p' =>
      match l with
      | x :: r =>
          Ascii.eqb (canonicalize i x) (canonicalize i c) && match_here i p' (Some x) r
      | [] => false
      end
  end.

(** The index of the first match at or after the head of [l]. *)
Fixpoint search (i : bool) (p : pattern) (prev : option ascii) (l : list ascii)
  : option nat :=
  if match_here i p prev l then Some O
  else
    match l with
    | [] => None
    | x :: r => option_map S (search i p (Some x) r)
    end.

(** [RegExp.prototype.test]. *)
Definition test (i : bool) (p : pattern) (s : string) : bool :=
  match search i p None (chars s) with
  | Some _ => true
  | None => false
  end.

End RegExp.

(** ** Outbound calls and the interaction monad *)

(** A call of [fetch]: the body is the value handed to
    [JSON.stringify], [undefined] when the call has none. *)
Record request : Type :=
  { url : string; method : string; headers : list (string * string); body : value }.

(** A body as the handlers read it: [r.text()] gives [written], and
    [r.json()] gives [JSON.parse] of it, or rejects with [malformed]
    when the text is not JSON. The name and the message of that error
    are the runtime's (the [SyntaxError] of the engine, or the error in
    which the fetch library wraps it), so the world supplies them. *)
Record document : Type := { written : string; malformed : exn }.

(** What came back: the status line, and the body or the failure of
    reading it. *)
Record reply : Type := { status : Z; payload : exn + document }.

(** [r.ok]: a status from 200 to 299. *)
Definition ok (r : reply) : bool := (200 <=? status r) && (status r <=? 299).

(** [fetch] rejects on a transport failure, else resolves to a reply. *)
Inductive outcome : Type :=
| Rejected (e : exn)
| Resolved (r : reply).

Inductive io (A : Type) : Type :=
| Ret (a : A)
| Throw (e : exn)
| Fetch (rq : request) (k : outcome -> io A)
| Random (k : number -> io A).

Arguments Ret {A} a.
Arguments Throw {A} e.
Arguments Fetch {A} rq k.
Arguments Random {A} k.

Fixpoint bind {A B : Type} (m : io A) (f : A -> io B) : io B :=
  match m with
  | Ret a => f a
  | Throw e => Throw e
  | Fetch rq k => Fetch rq (fun o => bind (k o) f)
  | Random k => Random (fun u => bind (k u) f)
  end.

(** [try { m } catch (e) { h e }]. *)
Fixpoint try_catch {A : Type} (m : io A) (h : exn -> io A) : io A :=
  match m with
  | Ret a => Ret a
  | Throw e => h e
  | Fetch rq k => Fetch rq (fun o => try_catch (k o) h)
  | Random k => Random (fun u => try_catch (k u) h)
  end.

Notation "x <- m ;; k" := (bind m (fun x => k))
  (at level 61, m at next level, right associativity).

(** [await fetch(...)]. *)
Definition fetch (rq : request) : io reply :=
  Fetch rq (fun o => match o with
                     | Rejected e => Throw e
                     | Resolved r => Ret r
                     end).

(** [Math.random()]. *)
Definition Math_random : io number := Random (fun u => Ret u).

Definition lift {A : Type} (x : exn + A) : io A :=
  match x with
  | inl e => Throw e
  | inr a => Ret a
  end.

(** [await r.text()]. *)
Definition text_of (r : reply) : io string :=
  d <- lift (payload r) ;;
  Ret (written d).

(** [await r.json()]. *)
Definition json_of (r : reply) : io value :=
  d <- lift (payload r) ;;
  match JSON.parse (written d) with
  | Some v => Ret v
  | None => Throw (malformed d)
  end.

(** The world outside the process: its answer to each outbound call
    and the number [Math.random] draws. *)
Record World : Type := { answer : request -> outcome; draw : number }.

(** A run in a world: the result, and the outbound calls in the order
    they were made. *)
Fixpoint run {A : Type} (w : World) (m : io A) : (exn + A) * list request :=
  match m with
  | Ret a => (inr a, [])
  | Throw e => (inl e, [])
  | Fetch rq k => let '(x, t) := run w (k (answer w rq)) in (x, rq :: t)
  | Random k => run w (k (draw w))
  end.

Definition result {A : Type} (w : World) (m : io A) : exn + A := fst (run w m).
Definition calls {A : Type} (w : World) (m : io A) : list request := snd (run w m).

(** ** The process environment and the responses *)

Record Env : Type :=
  { OPENAI_API_KEY : option string;
    OPENAI_MODEL_var : option string;
    QUIZ_MODE : option string }.

(** [process.env.X]. *)
Definition env (x : option string) : value :=
  match x with
  | Some s => VStr s
  | None => VUndefined
  end.

(** [process.env.X || d] for a text [d]: a variable is a text when it
    is set. *)
Definition env_or (x : option string) (d : string) : string :=
  match x with
  | Some (String c s) => String c s
  | _ => d
  end.

(** [const OPENAI_MODEL = process.env.OPENAI_MODEL || 'gpt-4o-mini']. *)
Definition OPENAI_MODEL (E : Env) : value :=
  or_else (env (OPENAI_MODEL_var E)) (VStr "gpt-4o-mini").

(** What the handler sends: [res.status(code).json(content)]. *)
Record response : Type := { code : Z; content : value }.

Definition res_json (c : Z) (v : value) : response := {| code := c; content := v |}.

Definition server_error (e : exn) : response :=
  res_json 500 (VObj [("error", VStr "Server error"); ("detail", VStr (describe e))]).

(** [${process.env.OPENAI_API_KEY}] in a template literal: a variable
    that is not set reads [undefined]. *)
Definition bearer_token (E : Env) : string :=
  match OPENAI_API_KEY E with
  | Some k => k
  | None => "undefined"
  end.

(** The call of the completion endpoint. *)
Definition completion (E : Env) (payload : value) : request :=
  {| url := "https://api.openai.com/v1/chat/completions";
     method := "POST";
     headers := [("Authorization", "Bearer " ++ bearer_token E);
                 ("Content-Type", "application/json")];
     body := payload |}.

(** ** Price lookup *)

(** The call of the price endpoint for the pair whose text is [u]. *)
Definition price_call (u : string) : request :=
  {| url := "https://api.binance.com/api/v3/ticker/price?symbol=" ++ u;
     method := "GET"; headers := []; body := VUndefined |}.

(** The same for a pair as a value, through its conversion to a string
    in the template literal (a pair is a string or a built-in function:
    its conversion does not throw). *)
Definition price_request (pair : value) : request :=
  price_call match ToString pair with
             | inr u => u
             | inl _ => ""
             end.

(** [const map = { BTC: 'BTCUSDT', ETH: 'ETHUSDT', SOL: 'SOLUSDT' }]. *)
Definition map_ : object :=
  [("BTC", VStr "BTCUSDT"); ("ETH", VStr "ETHUSDT"); ("SOL", VStr "SOLUSDT")].

(** [const pair = map[symbol] || `${symbol.toUpperCase()}USDT`]. *)
Definition pair (symbol : string) : value :=
  or_else (lookup map_ symbol) (VStr (toUpperCase symbol ++ "USDT")).

(** [n || null] for a number [n], with [None] for [null]. *)
Definition or_null (n : number) : option number :=
  if Num.truthy n then Some n else None.

Definition getUsdPrice (symbol : string) : io (option number) :=
  try_catch
    (u <- lift (ToString (pair symbol)) ;;
     r <- fetch (price_call u) ;;
     if negb (ok r) then Ret None
     else
       j <- json_of r ;;
       p <- lift (Get j "price") ;;
       n <- lift (ToNumber p) ;;
       Ret (or_null n))
    (fun _ => Ret None).

(** ** POST /api/tradegpt/ask *)

Definition tickers : list string :=
  ["BTC"; "ETH"; "SOL"; "BNB"; "AVAX"; "ARB"; "OP"; "SUI"; "TON"; "DOGE"].

(** [tickers.filter(s => new RegExp(`\\b${s}\\b`, 'i').test(t))] for a
    text [t]. *)
Definition matches (t : string) : list string :=
  filter (fun s => RegExp.test true (RegExp.word s) t) tickers.

(** The same for the prompt as it comes: [test] converts its argument
    to a string, and the first call throws when that conversion does. *)
Definition found (prompt : value) : exn + list string :=
  match ToString prompt with
  | inl e => inl e
  | inr t => inr (matches t)
  end.

(** The object [prices]: symbol to price, [None] for [null], in
    creation order. *)
Definition quotes : Type := list (string * option number).

(** [prices[s] = v]. *)
Fixpoint assign (prices : quotes) (s : string) (v : option number) : quotes :=
  match prices with
  | [] => [(s, v)]
  | (k, x) :: r => if String.eqb k s then (s, v) :: r else (k, x) :: assign r s v
  end.

(** [for (const s of l) prices[s] = await getUsdPrice(s)]. *)
Fixpoint lookups (l : list string) (prices : quotes) : io quotes :=
  match l with
  | [] => Ret prices
  | s :: r => v <- getUsdPrice s ;; lookups r (assign prices s v)
  end.

(** [`${k} ~ ${v?.toFixed(2) ?? 'n/a'}`]. *)
Definition entry (kv : string * option number) : string :=
  let '(k, v) := kv in
  k ++ " ~ " ++ match v with
                | Some n => Num.toFixed2 n
                | None => "n/a"
                end.

Definition priceLine (prices : quotes) : string :=
  match prices with
  | [] => ""
  | _ :: _ => "Approx live prices (USDT): " ++ join ", " (map entry prices) ++ "."
  end.

Definition persona : list string :=
  ["You are TradeGPT, a concise trading mentor for crypto.";
   "Answer in this structure: Definition → Price context → Confirmation → Risk → Disclaimer.";
   "When quoting price levels, ONLY use levels given by user or live context injected here; otherwise speak in relative terms (recent swing high/low, % move, EMA retest, OB zone).";
   "Do not invent dollar amounts.";
   "Prefer BTC/ETH/SOL examples when relevant."].

Definition system (prices : quotes) : string :=
  join " " (persona ++ [priceLine prices])%list.

Definition message (role : string) (c : value) : value :=
  VObj [("role", VStr role); ("content", c)].

Definition ask_request (E : Env) (model prompt : value) (prices : quotes) : request :=
  completion E
    (VObj [("model", model);
           ("temperature", VNum (Num.of_decimal false 2 (-1)));
           ("messages", VArr [message "system" (VStr (system prices));
                              message "user" prompt])]).

(** [live: prices], as the response carries it. *)
Definition live (prices : quotes) : value :=
  VObj (map (fun kv => (fst kv, match snd kv with
                                | Some n => VNum n
                                | None => VNull
                                end)) prices).

(** [data.choices?.[0]?.message?.content], given [data.choices]. *)
Definition first_content (choices : value) : value :=
  GetOpt (GetOpt (GetOpt choices "0") "message") "content".

Definition ask (E : Env) (req_body : value) : io response :=
  try_catch
    (let b := or_else req_body (VObj []) in
     prompt <- lift (Get b "prompt") ;;
     m <- lift (Get b "model") ;;
     let model := default_to (OPENAI_MODEL E) m in
     if negb (ToBoolean prompt) then
       Ret (res_json 400 (VObj [("error", VStr "Missing prompt")]))
     else
       symbols <- lift (found prompt) ;;
       prices <- lookups (firstn 3 symbols) [] ;;
       r <- fetch (ask_request E model prompt prices) ;;
       if negb (ok r) then
         d <- text_of r ;;
         Ret (res_json 502 (VObj [("error", VStr "OpenAI error"); ("detail", VStr d)]))
       else
         data <- json_of r ;;
         choices <- lift (Get data "choices") ;;
         let reply := or_else (first_content choices) (VStr "") in
         usage <- lift (Get data "usage") ;;
         let tokens := nullish (GetOpt usage "total_tokens") VNull in
         Ret (res_json 200 (VObj [("reply", reply); ("tokens", tokens);
                                  ("cost", VNull); ("live", live prices)])))
    (fun e => Ret (server_error e)).

(** ** GET /api/tradegpt/quiz *)

Definition item (type : string) (img : option string) (q : string)
  (opts : list string) (a : Z) : value :=
  VObj ([("type", VStr type)]
        ++ match img with Some u => [("img", VStr u)] | None => [] end
        ++ [("q", VStr q); ("opts", VArr (map VStr opts)); ("a", VNum (Num.of_Z a))])%list.

Definition bank : list value :=
  [item "image_mcq" (Some "https://i.imgur.com/0Z9z9zG.png")
     "Which candle shows a bullish engulfing?" ["A"; "B"; "C"] 1;
   item "mcq" None "A valid 1H order block is usually confirmed after…"
     ["a gap down"; "mitigation + retest + BOS"; "RSI > 60"] 1;
   item "mcq" None "Bullish RSI divergence means…"
     ["Price LL, RSI HL"; "Price HL, RSI LL"; "Price HH, RSI HH"] 0].

(** [Math.floor(u * bank.length)]. *)
Definition bank_index (u : number) : number :=
  Num.floor (Num.mul u (Num.of_Z (Z.of_nat (List.length bank)))).

(** [bank[Math.floor(Math.random() * bank.length)]] and its response. *)
Definition pick : io response :=
  u <- Math_random ;;
  Ret (res_json 200 (GetOpt (VArr bank) (Num.toString (bank_index u)))).

(** [Number(req.query.elo || 1200)]. *)
Definition elo (param : value) : exn + number :=
  ToNumber (or_else param (VNum (Num.of_Z 1200))).

Definition newline : string := String (Char.of_code 10) "".

Definition quiz_prompt (rating : number) : string :=
  "Create a concise trading quiz JSON tuned for ELO " ++ Num.toString rating ++ "."
  ++ newline
  ++ "Fields: {type:'mcq'|'image_mcq', img?, q, opts:[A,B,C], a(0-2)}. Keep it short.".

Definition quiz_request (E : Env) (rating : number) : request :=
  completion E
    (VObj [("model", OPENAI_MODEL E);
           ("temperature", VNum (Num.of_decimal false 3 (-1)));
           ("messages", VArr [message "user" (VStr (quiz_prompt rating))])]).

(** [(process.env.QUIZ_MODE || 'static') === 'llm']. *)
Definition llm_mode (E : Env) : bool :=
  match or_else (env (QUIZ_MODE E)) (VStr "static") with
  | VStr s => String.eqb s "llm"
  | _ => false
  end.

(** The inner [try { return res.json(JSON.parse(txt)); } catch {}]
    drops whatever [JSON.parse] throws, in the conversion of [txt] to a
    string or in the parse, and the bank answers. *)
Definition quiz (E : Env) (elo_param : value) : io response :=
  try_catch
    (rating <- lift (elo elo_param) ;;
     if llm_mode E then
       r <- fetch (quiz_request E rating) ;;
       if ok r then
         data <- json_of r ;;
         choices <- lift (Get data "choices") ;;
         let txt := or_else (first_content choices) (VStr "{}") in
         match ToString txt with
         | inr t =>
             match JSON.parse t with
             | Some v => Ret (res_json 200 v)
             | None => pick
             end
         | inl _ => pick
         end
       else pick
     else pick)
    (fun e => Ret (server_error e)).

(** ** The CORS allow-list *)

(** [s.split(sep)] for a separator of one character: the pieces between
    the separators, the empty text giving one empty piece. *)
Fixpoint split (sep : ascii) (l : list ascii) : list (list ascii) :=
  match l with
  | [] => [[]]
  | c :: r =>
      if Ascii.eqb c sep then [] :: split sep r
      else
        match split sep r with
        | [] => [[c]]
        | x :: xs => (c :: x) :: xs
        end
  end.

(** [String.prototype.trim]: the white space it strips is that of
    StrWhiteSpaceChar. *)
Definition trim (s : string) : string := text (Num.trim (chars s)).

(** [const allow = (process.env.ALLOW_ORIGIN || '').split(',')
    .map(s => s.trim()).filter(Boolean)]. *)
Definition allow (ALLOW_ORIGIN : option string) : list string :=
  filter (fun s => ToBoolean (VStr s))
    (map (fun piece => trim (text piece))
       (split ","%char (chars (env_or ALLOW_ORIGIN "")))).

(** [allow.includes(origin)]. *)
Definition includes (l : list string) (v : value) : bool :=
  match v with
  | VStr s => existsb (String.eqb s) l
  | _ => false
  end.

(** The [origin] option handed to [cors]: [inr true] stands for
    [cb(null, true)], [inl e] for [cb(e)], and for a throw of [e] in
    the concatenation (an origin is a header text or [undefined], whose
    conversion does not throw). *)
Definition origin_callback (allow : list string) (origin : value) : exn + bool :=
  if negb (ToBoolean origin) then inr true
  else if (List.length allow =? 0)%nat || includes allow origin then inr true
  else
    match ToString origin with
    | inl e => inl e
    | inr s => inl {| exn_name := "Error"; exn_message := "CORS blocked: " ++ s |}
    end.

(** ** The earlier versions

    [src/server.js] is the first version of the gateway and
    [src/unnamed/part_000] the second. Their ask handlers make no price
    lookup and answer without the member [live]; they differ from each
    other in the text of the system message only. The quiz handler of
    the second version is the one above; that of the first reads the
    body of the generation reply whatever its status, and words its
    prompt differently. *)

(** The ask handler of both, for the system message [system]. *)
Definition ask_request_with (system : string) (E : Env) (model prompt : value) : request :=
  completion E
    (VObj [("model", model);
           ("temperature", VNum (Num.of_decimal false 2 (-1)));
           ("messages", VArr [message "system" (VStr system);
                              message "user" prompt])]).

Definition ask_with (system : string) (E : Env) (req_body : value) : io response :=
  try_catch
    (let b := or_else req_body (VObj []) in
     prompt <- lift (Get b "prompt") ;;
     m <- lift (Get b "model") ;;
     let model := default_to (OPENAI_MODEL E) m in
     if negb (ToBoolean prompt) then
       Ret (res_json 400 (VObj [("error", VStr "Missing prompt")]))
     else
       r <- fetch (ask_request_with system E model prompt) ;;
       if negb (ok r) then
         t <- text_of r ;;
         Ret (res_json 502 (VObj [("error", VStr "OpenAI error"); ("detail", VStr t)]))
       else
         data <- json_of r ;;
         choices <- lift (Get data "choices") ;;
         let reply := or_else (first_content choices) (VStr "") in
         usage <- lift (Get data "usage") ;;
         let tokens := nullish (GetOpt usage "total_tokens") VNull in
         let cost := VNull in
         Ret (res_json 200 (VObj [("reply", reply); ("tokens", tokens); ("cost", cost)])))
    (fun e => Ret (server_error e)).

Module Server.

Definition system : string :=
  join " "
    ["You are TradeGPT, a trading mentor. Be concise and structured:";
     "Format: Definition → Price context → Confirmation → Risk.";
     "Never give financial advice; include risk disclaimers.";
     "Prefer crypto examples (BTC/ETH/SOL)."].

Definition ask : Env -> value -> io response := ask_with system.

Definition quiz_prompt (rating : number) : string :=
  "Create a single multiple-choice trading quiz JSON for ELO " ++ Num.toString rating ++ "."
  ++ newline
  ++ "Fields: {type:'mcq'|'image_mcq', img?, q, opts[3], a(0-2)}. Keep it short.".

Definition quiz_request (E : Env) (rating : number) : request :=
  completion E
    (VObj [("model", or_else (env (OPENAI_MODEL_var E)) (VStr "gpt-4o-mini"));
           ("temperature", VNum (Num.of_decimal false 3 (-1)));
           ("messages", VArr [message "user" (VStr (quiz_prompt rating))])]).

Definition quiz (E : Env) (elo_param : value) : io response :=
  try_catch
    (rating <- lift (elo elo_param) ;;
     if llm_mode E then
       r <- fetch (quiz_request E rating) ;;
       data <- json_of r ;;
       choices <- lift (Get data "choices") ;;
       let txt := or_else (first_content choices) (VStr "{}") in
       match ToString txt with
       | inr t =>
           match JSON.parse t with
           | Some v => Ret (res_json 200 v)
           | None => pick
           end
       | inl _ => pick
       end
     else pick)
    (fun e => Ret (server_error e)).

End Server.

Module Part000.

Definition system : string :=
  join " "
    ["You are TradeGPT, a concise trading mentor.";
     "Always structure your answer: Definition → Price context → Confirmation → Risk.";
     "Use crypto examples (BTC/ETH/SOL) when relevant.";
     "Strictly add a short risk disclaimer. Do not give financial advice."].

Definition ask : Env -> value -> io response := ask_with system.

End Part000.

(** * Reference definitions

    The functions and predicates in which the properties below are
    stated: the response of each handler to each outcome of its
    outbound calls, the notions the specification uses (a whole-word
    occurrence, the order of the allow-list, the contract of the random
    draw), and sample environments and worlds. *)

(** ** The handlers, outcome by outcome *)

(** The price a reply stands for: none unless the call resolved with a
    success status and a JSON body other than [null], and [Number] of
    its [price] does not throw and is neither NaN nor zero. *)
Definition quoted (o : outcome) : option number :=
  match o with
  | Rejected _ => None
  | Resolved r =>
      if ok r then
        match payload r with
        | inl _ => None
        | inr d =>
            match JSON.parse (written d) with
            | None => None
            | Some j =>
                match Get j "price" with
                | inl _ => None
                | inr p =>
                    match ToNumber p with
                    | inl _ => None
                    | inr n => or_null n
                    end
                end
            end
        end
      else None
  end.

(** The quotes gathered for the symbols [l], starting from [prices]. *)
Definition gathered (w : World) (l : list string) (prices : quotes) : quotes :=
  fold_left
    (fun acc s => assign acc s (quoted (answer w (price_request (pair s)))))
    l prices.

(** The field [k] that the destructuring of [req.body || {}] reads. *)
Definition field (req_body : value) (k : string) : value :=
  GetOpt (or_else req_body (VObj [])) k.

(** [model = OPENAI_MODEL] in the destructuring. *)
Definition model_of (E : Env) (req_body : value) : value :=
  default_to (OPENAI_MODEL E) (field req_body "model").

Definition missing_prompt : response :=
  res_json 400 (VObj [("error", VStr "Missing prompt")]).

Definition upstream_error (d : string) : response :=
  res_json 502 (VObj [("error", VStr "OpenAI error"); ("detail", VStr d)]).

Definition completed (data choices usage : value) (prices : quotes) : response :=
  res_json 200
    (VObj [("reply", or_else (first_content choices) (VStr ""));
           ("tokens", nullish (GetOpt usage "total_tokens") VNull);
           ("cost", VNull);
           ("live", live prices)]).

(** The response of the ask handler to each outcome of the completion
    call, the quotes being [prices]. *)
Definition answered (prices : quotes) (o : outcome) : response :=
  match o with
  | Rejected e => server_error e
  | Resolved r =>
      match payload r with
      | inl e => server_error e
      | inr d =>
          if ok r then
            match JSON.parse (written d) with
            | None => server_error (malformed d)
            | Some data =>
                match Get data "choices", Get data "usage" with
                | inr choices, inr usage => completed data choices usage prices
                | inl e, _ | _, inl e => server_error e
                end
            end
          else upstream_error (written d)
      end
  end.

(** The response of the static bank for the draw of the world. *)
Definition picked (w : World) : response :=
  res_json 200 (GetOpt (VArr bank) (Num.toString (bank_index (draw w)))).

(** What [JSON.parse] makes of [content || '{}']: [None] when it
    throws, in the conversion to a string or in the parse. *)
Definition reply_value (choices : value) : option value :=
  match ToString (or_else (first_content choices) (VStr "{}")) with
  | inr t => JSON.parse t
  | inl _ => None
  end.

(** The response of the quiz handler in generative mode to each outcome
    of the completion call. *)
Definition generated (w : World) (o : outcome) : response :=
  match o with
  | Rejected e => server_error e
  | Resolved r =>
      if ok r then
        match payload r with
        | inl e => server_error e
        | inr d =>
            match JSON.parse (written d) with
            | None => server_error (malformed d)
            | Some data =>
                match Get data "choices" with
                | inl e => server_error e
                | inr choices =>
                    match reply_value choices with
                    | Some v => res_json 200 v
                    | None => picked w
                    end
                end
            end
        end
      else picked w
  end.

(** The response of the quiz handler to a request, and its calls. *)
Definition quizzed (E : Env) (w : World) (param : value) : response :=
  match elo param with
  | inl e => server_error e
  | inr n => if llm_mode E then generated w (answer w (quiz_request E n)) else picked w
  end.

Definition quizzed_calls (E : Env) (param : value) : list request :=
  match elo param with
  | inl _ => []
  | inr n => if llm_mode E then [quiz_request E n] else []
  end.

Definition quote_for (w : World) (s : string) : string * option number :=
  (s, quoted (answer w (price_request (pair s)))).

(** ** Sample environments and worlds *)

Module Sample.

Definition static_env : Env :=
  {| OPENAI_API_KEY := Some "sk-test"; OPENAI_MODEL_var := None; QUIZ_MODE := None |}.

Definition llm_env : Env :=
  {| OPENAI_API_KEY := Some "sk-test"; OPENAI_MODEL_var := None; QUIZ_MODE := Some "llm" |}.

(** A body with the text [t]; were it read as JSON and refused, the
    error would be this one. *)
Definition page (t : string) : document :=
  {| written := t;
     malformed := {| exn_name := "SyntaxError";
                     exn_message := "Unexpected token in JSON" |} |}.

Definition replies (s : Z) (t : string) : outcome :=
  Resolved {| status := s; payload := inr (page (JSON.dq t)) |}.

Definition unreachable : outcome :=
  Rejected {| exn_name := "FetchError"; exn_message := "connect ECONNREFUSED" |}.

Definition is_price_call (rq : request) : bool := String.eqb (method rq) "GET".

(** A market that quotes every pair at 67890.125 and a completion
    endpoint that answers with [completion]. *)
Definition world (completion : outcome) (u : number) : World :=
  {| answer := fun rq =>
                 if is_price_call rq
                 then replies 200 "{'symbol':'X','price':'67890.12500000'}"
                 else completion;
     draw := u |}.

(** No market: every price call fails at the transport level. *)
Definition offline (completion : outcome) (u : number) : World :=
  {| answer := fun rq => if is_price_call rq then unreachable else completion;
     draw := u |}.

Definition half : number := Num.of_decimal false 5 (-1).

Definition chat_reply (content : string) : reply :=
  {| status := 200;
     payload := inr (page (JSON.dq ("{'choices':[{'message':{'content':" ++ content
                                    ++ "}}],'usage':{'total_tokens':12}}"))) |}.

Definition chat (content : string) : outcome := Resolved (chat_reply content).

Definition json (t : string) : value :=
  match JSON.parse (JSON.dq t) with
  | Some v => v
  | None => VUndefined
  end.

(** The request body [{ "prompt": "What is BTC?" }]. *)
Definition question : value := json "{'prompt':'What is BTC?'}".


Definition completion_text : string :=
  JSON.dq "{'choices':[{'message':{'content':'BTC is a coin'}}],'usage':{'total_tokens':12}}".

Definition completion_data : value :=
  VObj [("choices", VArr [VObj [("message", VObj [("content", VStr "BTC is a coin")])]]);
        ("usage", VObj [("total_tokens", VNum (Num.of_Z 12))])].

(** The completion endpoint answers with a completion. *)
Definition up : World :=
  world (Resolved {| status := 200; payload := inr (page completion_text) |}) half.

End Sample.

(** ** Notions of the specification *)

(** The symbols looked up for a prompt: the first three found, and
    none when the scan throws. *)
Definition looked_up (prompt : value) : list string :=
  match found prompt with
  | inr symbols => firstn 3 symbols
  | inl _ => []
  end.

(** The completion call of a request, given the quotes the world gave. *)
Definition ask_call (E : Env) (w : World) (req_body : value) : request :=
  let prompt := field req_body "prompt" in
  ask_request E (model_of E req_body) prompt
    (gathered w (looked_up prompt) []).

(** The response of the ask handler to a request, and its calls: none
    for a prompt that is falsy or that the scan cannot convert, else
    the price lookups and then the completion call. *)
Definition asked (E : Env) (w : World) (req_body : value) : response :=
  let prompt := field req_body "prompt" in
  if ToBoolean prompt then
    match found prompt with
    | inl e => server_error e
    | inr _ => answered (gathered w (looked_up prompt) []) (answer w (ask_call E w req_body))
    end
  else missing_prompt.

Definition asked_calls (E : Env) (w : World) (req_body : value) : list request :=
  let prompt := field req_body "prompt" in
  if ToBoolean prompt then
    match found prompt with
    | inl _ => []
    | inr _ =>
        (map (fun s => price_request (pair s)) (looked_up prompt)
         ++ [ask_call E w req_body])%list
    end
  else [].

(** [rq] is the completion call made for a request: a POST among the
    calls of the handler. *)
Definition completion_of (E : Env) (w : World) (req_body : value) (rq : request) : Prop :=
  In rq (calls w (ask E req_body)) /\ method rq = "POST".

Definition defined (v : value) : Prop := v <> VUndefined /\ forall k, v <> VNative k.

Definition number_or_null (v : value) : Prop := v = VNull \/ exists n, v = VNum n.

(** A market that answers every price call with status 200 and the body
    [t] (written with apostrophes). *)
Definition quoting (t : string) : World :=
  {| answer := fun _ => Sample.replies 200 t; draw := Sample.half |}.

(** The trading pair without the override map. *)
Definition pair_simple (symbol : string) : value :=
  VStr (toUpperCase symbol ++ "USDT").

(** The rating by cases: 1200 when the parameter is absent or empty
    (falsy), else [Number] of it, which can throw. *)
Definition rating (param : value) : exn + number :=
  if ToBoolean param then ToNumber param else inr (Num.of_Z 1200).

(** The rating of the generation call: that of the parameter when it
    converts; where it does not, no call is made, and NaN stands in. *)
Definition rating_of (param : value) : number :=
  match elo param with
  | inr n => n
  | inl _ => Num.NaN
  end.

(** The same environment with the quiz mode left at its default. *)
Definition static_of (E : Env) : Env :=
  {| OPENAI_API_KEY := OPENAI_API_KEY E;
     OPENAI_MODEL_var := OPENAI_MODEL_var E;
     QUIZ_MODE := None |}.

(** A reply that yields no generated item: its status is not a success,
    or [JSON.parse] throws on its first completion (a text that is not
    JSON, or a value that does not convert to a string). *)
Definition no_generation (r : reply) : Prop :=
  ok r = false
  \/ exists d data choices,
      payload r = inr d /\ JSON.parse (written d) = Some data
      /\ Get data "choices" = inr choices
      /\ reply_value choices = None.

(** A reply that yields [v]: a success whose first completion is a JSON
    text for [v]. *)
Definition generation (r : reply) (v : value) : Prop :=
  ok r = true
  /\ exists d data choices,
      payload r = inr d /\ JSON.parse (written d) = Some data
      /\ Get data "choices" = inr choices
      /\ reply_value choices = Some v.

(** The generation endpoint answers with the completion text [c]. *)
Definition generating (c : string) : World :=
  {| answer := fun _ => Sample.chat c; draw := Sample.half |}.

Definition sorry_choices : value :=
  VArr [VObj [("message", VObj [("content", VStr "Sorry, no quiz today")])]].

Definition sorry_data : value :=
  VObj [("choices", sorry_choices);
        ("usage", VObj [("total_tokens", VNum (Num.of_Z 12))])].

(** The answer index 7 is outside [0..2]. *)
Definition stray_item : value :=
  VObj [("type", VStr "mcq"); ("q", VStr "x");
        ("opts", VArr [VStr "A"; VStr "B"; VStr "C"]);
        ("a", VNum (Num.of_Z 7))].

Definition stray_text : string :=
  "'{\'type\':\'mcq\',\'q\':\'x\',\'opts\':[\'A\',\'B\',\'C\'],\'a\':7}'".

(** The number of quotes with a known price. *)
Definition known (prices : quotes) : nat :=
  List.length (filter (fun kv => match snd kv with
                                 | Some _ => true
                                 | None => false
                                 end) prices).

(** A price written with two decimals: the hundredths [h] with a point
    before the last two digits. *)
Definition fixed2 (s : bool) (h : Z) : string :=
  (if s then "-" else "") ++ decimal (h / 100) ++ "." ++ Num.two_digits (h mod 100).

(** The character last read when [l] has been read after [prev]. *)
Fixpoint last_seen (prev : option ascii) (l : list ascii) : option ascii :=
  match l with
  | [] => prev
  | c :: r => last_seen (Some c) r
  end.

(** [s] occurs in [t] as a whole word, letter case apart: [t] splits
    into [pre], [mid] and [post], where [mid] is [s] up to case, [pre]
    does not end with a word character and [post] does not begin with
    one. A word character is an ASCII letter, an ASCII digit or the
    underscore: every other character, an accented letter included,
    ends a word. *)
Definition whole_word (s t : string) : Prop :=
  exists pre mid post,
    chars t = (pre ++ mid ++ post)%list
    /\ map Char.upper mid = map Char.upper (chars s)
    /\ RegExp.is_word (last_seen None pre) = false
    /\ RegExp.is_word (hd_error post) = false.

Definition is_letter (c : ascii) : bool := Char.is_upper c || Char.is_lower c.

(** A ticker symbol: letters only, and at least one. *)
Definition symbol_like (s : string) : Prop :=
  chars s <> [] /\ forallb is_letter (chars s) = true.

(** The place of a symbol in the allow-list. *)
Fixpoint rank_in (l : list string) (s : string) : nat :=
  match l with
  | [] => O
  | x :: r => if String.eqb x s then O else S (rank_in r s)
  end.

Definition rank : string -> nat := rank_in tickers.

Definition allow_list_order (a b : string) : Prop := (rank a < rank b)%nat.

(** The request body [{ "prompt": "SOL or BTC?" }]. *)
Definition sol_then_btc : value := Sample.json "{'prompt':'SOL or BTC?'}".

(** The index at which [s] is first met in [t]. *)
Definition first_met (t s : string) : nat :=
  match RegExp.search true (RegExp.word s) None (chars t) with
  | Some n => n
  | None => O
  end.

Fixpoint insert_by (key : string -> nat) (s : string) (l : list string) : list string :=
  match l with
  | [] => [s]
  | x :: r => if (key s <? key x)%nat then s :: l else x :: insert_by key s r
  end.

(** The matches in the words of the claim: in the order in which the
    prompt first mentions them. *)
Definition in_prompt_order (t : string) : list string :=
  fold_right (insert_by (first_met t)) [] (matches t).

(** [rec] is [m] shifted right by [k] bits, with its round and sticky bits. *)
Definition located (m k : Z) (rec : shr_record) : Prop :=
  shr_m rec = m / 2 ^ k
  /\ shr_r rec = (2 ^ k <=? 2 * (m mod 2 ^ k))
  /\ shr_s rec = negb (m mod 2 ^ k =? 0) && negb (2 * (m mod 2 ^ k) =? 2 ^ k).

(** The numbers nearest to 1/3 and to 2/3, and the number 1. *)
Definition third : number := Num.of_ratio false 1 3.

Definition two_thirds : number := Num.of_ratio false 2 3.

Definition one : number := Num.of_Z 1.

(** The mantissa shared by the numbers nearest to 1/3 and to 2/3. *)
Definition third_mantissa : Z := 6004799503160661.

(** The item that the draw [m * 2 ^ e] selects, by comparison with the
    numbers nearest to 1/3 and 2/3. *)
Definition slot (m e : Z) : Z :=
  if (e <? -54) || ((e =? -54) && (m <? third_mantissa)) then 0
  else if (e <? -53) || ((e =? -53) && (m <? third_mantissa)) then 1
  else 2.

Definition negative (u : number) : bool :=
  match u with
  | S754_zero s | S754_infinity s | S754_finite s _ _ => s
  | S754_nan => false
  end.

(** The contract of [Math.random]: a binary64 number with positive
    sign, at least +0 and below 1. *)
Definition unit_draw (u : number) : Prop :=
  valid_binary Num.prec Num.emax u = true
  /\ negative u = false
  /\ SFltb u one = true.

(** The item selected, by comparison of the draw with the numbers
    nearest to 1/3 and to 2/3. *)
Definition selected (u : number) : nat :=
  if SFltb u third then 0%nat else if SFltb u two_thirds then 1%nat else 2%nat.

(** The value of a number of the range in units of [2 ^ -54], of which
    the thresholds and 1 are multiples. *)
Definition units (x : number) : Z :=
  match x with
  | S754_finite false m e => Zpos m * 2 ^ (e + 54)
  | _ => 0
  end.

(** The measures, in those units, of the three portions into which the
    thresholds cut the range: below the first, between the two, from
    the second on. The range measures [2 ^ 54]. *)
Definition portion (i : nat) : Z :=
  match i with
  | O => units third
  | S O => units two_thirds - units third
  | _ => units one - units two_thirds
  end.

(** A world whose draw is [u]. *)
Definition drawing (u : number) : World :=
  {| answer := fun _ => Sample.unreachable; draw := u |}.

(** A world whose draw is the number nearest to 0.7. *)
Definition drawing_high : World :=
  {| answer := fun _ => Sample.unreachable; draw := Num.of_decimal false 7 (-1) |}.

(** ** Notions for the allow-list *)

(** No white space at either end. *)
Definition trimmed (l : list ascii) : Prop :=
  Num.strip_one Num.white_space l = None
  /\ Num.strip_one (map (@rev Z) Num.white_space) (rev l) = None.

(** An entry as the allow-list keeps them: not empty, without a comma,
    without white space at either end. *)
Definition entry_like (s : string) : Prop :=
  s <> "" /\ ~ In ","%char (chars s) /\ trimmed (chars s).

(** Only commas and spaces. *)
Definition blank (s : string) : Prop :=
  Forall (fun c => c = ","%char \/ c = " "%char) (chars s).

(** [piece] is [entry] with spaces around it. *)
Definition padded (piece entry : string) : Prop :=
  exists a b : nat,
    chars piece = (repeat " "%char a ++ chars entry ++ repeat " "%char b)%list.

(** [entry_like], decided. *)
Definition entry_check (s : string) : bool :=
  negb (String.eqb s "")
  && negb (existsb (Ascii.eqb ","%char) (chars s))
  && match Num.strip_one Num.white_space (chars s) with
     | None => true
     | Some _ => false
     end
  && match Num.strip_one (map (@rev Z) Num.white_space) (rev (chars s)) with
     | None => true
     | Some _ => false
     end.

(** ** Notions for the faults of a completion call *)

(** What the ask handler cannot recover from, for an outcome of the
    completion call: a transport failure, a body that cannot be read,
    and on a success status a body that is not JSON (the error is then
    the one the runtime raises) or is [null]. *)
Definition completion_fault (o : outcome) : option exn :=
  match o with
  | Rejected e => Some e
  | Resolved r =>
      match payload r with
      | inl e => Some e
      | inr d =>
          if ok r then
            match JSON.parse (written d) with
            | None => Some (malformed d)
            | Some VNull => Some (TypeError VNull "choices")
            | Some _ => None
            end
          else None
      end
  end.

(** The fault of a request with a prompt: that of the scan, when the
    prompt does not convert to a string, else that of the completion
    call. *)
Definition ask_fault (E : Env) (w : World) (req_body : value) : option exn :=
  match found (field req_body "prompt") with
  | inl e => Some e
  | inr _ => completion_fault (answer w (ask_call E w req_body))
  end.

(** The same for the generation call of the quiz handler, which reads
    the body of a success only. *)
Definition generation_fault (o : outcome) : option exn :=
  match o with
  | Rejected e => Some e
  | Resolved r =>
      if ok r then
        match payload r with
        | inl e => Some e
        | inr d =>
            match JSON.parse (written d) with
            | None => Some (malformed d)
            | Some VNull => Some (TypeError VNull "choices")
            | Some _ => None
            end
        end
      else None
  end.

(** The fault of a quiz request in generative mode: that of the
    rating, when [elo] does not convert to a number, else that of the
    generation call. *)
Definition quiz_fault (E : Env) (w : World) (param : value) : option exn :=
  match elo param with
  | inl e => Some e
  | inr n => generation_fault (answer w (quiz_request E n))
  end.

(** A response body without its member [live]. *)
Definition without_live (v : value) : value :=
  match v with
  | VObj o => VObj (filter (fun kv => negb (String.eqb (fst kv) "live")) o)
  | _ => v
  end.

(** The model named in a completion call: the [model] of the request
    body unless it is [undefined], else [OPENAI_MODEL] when set and not
    empty, else [gpt-4o-mini]. *)
Definition chosen_model (E : Env) (req_body : value) : value :=
  match field req_body "model" with
  | VUndefined =>
      match OPENAI_MODEL_var E with
      | Some (String c s) => VStr (String c s)
      | _ => VStr "gpt-4o-mini"
      end
  | m => m
  end.

(** The value of the header [k] of a call. *)
Definition header (rq : request) (k : string) : option string :=
  option_map snd (find (fun kv => String.eqb (fst kv) k) (headers rq)).

(** No market, and a completion endpoint that answers with a completion. *)
Definition offline_up : World :=
  Sample.offline
    (Resolved {| status := 200; payload := inr (Sample.page Sample.completion_text) |})
    Sample.half.

(** A completion endpoint that answers 200 with a page of HTML. *)
Definition garbled : World :=
  Sample.world (Sample.replies 200 "<html>busy</html>") Sample.half.

(** No market and no completion endpoint. *)
Definition dark : World := Sample.offline Sample.unreachable Sample.half.

(** An environment without an API key. *)
Definition keyless : Env :=
  {| OPENAI_API_KEY := None; OPENAI_MODEL_var := None; QUIZ_MODE := Some "llm" |}.

(** The generation endpoint refuses with status 401 and the body [t]
    (written with apostrophes). *)
Definition refusing (t : string) : World :=
  {| answer := fun _ => Sample.replies 401 t; draw := Sample.half |}.

(** A text of ASCII characters. *)
Definition ascii_text (s : string) : Prop :=
  forallb (fun c => Char.code c <? 128) (chars s) = true.

(** The API key as the [Authorization] header carries it. *)
Definition bearer (E : Env) : string :=
  "Bearer " ++ match OPENAI_API_KEY E with
               | Some k => k
               | None => "undefined"
               end.

(** A response without the member [live] of its body. *)
Definition plain (r : response) : response :=
  {| code := code r; content := without_live (content r) |}.

(** The completion call of the earlier versions. *)
Definition plain_call (system : string) (E : Env) (req_body : value) : request :=
  ask_request_with system E (model_of E req_body) (field req_body "prompt").

(** ** The shape of a quiz item *)

Definition is_text (v : value) : bool :=
  match v with
  | VStr _ => true
  | _ => false
  end.

(** A well-formed quiz item: a type [mcq] or [image_mcq], the latter
    with an image; a question; three options; an answer that is the
    index of one of them. *)
Definition quiz_item (v : value) : bool :=
  match GetOpt v "type", GetOpt v "q", GetOpt v "opts", GetOpt v "a" with
  | VStr t, VStr _, VArr opts, VNum a =>
      (String.eqb t "mcq" || String.eqb t "image_mcq" && is_text (GetOpt v "img"))
      && (List.length opts =? 3)%nat
      && forallb is_text opts
      && existsb (fun i => Num.eqb a (Num.of_Z i)) [0; 1; 2]
  | _, _, _, _ => false
  end.

(** * Properties *)

(** ** Runs of the interaction monad *)

Section Runs.

Context {A B : Type}.
Variable w : World.

Lemma run_bind (m : io A) (f : A -> io B) :
  run w (bind m f) =
    match run w m with
    | (inr a, t) => let '(x, t') := run w (f a) in (x, (t ++ t')%list)
    | (inl e, t) => (inl e, t)
    end.
Proof.
  induction m as [a | e | rq k IH | k IH]; simpl.
  - now destruct (run w (f a)).
  - reflexivity.
  - rewrite IH. destruct (run w (k (answer w rq))) as [[e | a] t]; simpl.
    + reflexivity.
    + now destruct (run w (f a)).
  - apply IH.
Qed.

Lemma run_try_catch (m : io A) (h : exn -> io A) :
  run w (try_catch m h) =
    match run w m with
    | (inr a, t) => (inr a, t)
    | (inl e, t) => let '(x, t') := run w (h e) in (x, (t ++ t')%list)
    end.
Proof.
  induction m as [a | e | rq k IH | k IH]; simpl.
  - reflexivity.
  - now destruct (run w (h e)).
  - rewrite IH. destruct (run w (k (answer w rq))) as [[e | a] t]; simpl.
    + now destruct (run w (h e)).
    + reflexivity.
  - apply IH.
Qed.

End Runs.

Lemma run_fetch (w : World) (rq : request) :
  run w (fetch rq) =
    (match answer w rq with
     | Rejected e => inl e
     | Resolved r => inr r
     end, [rq]).
Proof. unfold fetch. simpl. now destruct (answer w rq). Qed.

Lemma run_lift {A : Type} (w : World) (x : exn + A) : run w (lift x) = (x, []).
Proof. now destruct x. Qed.

Lemma run_text_of (w : World) (r : reply) :
  run w (text_of r) =
    (match payload r with
     | inl e => inl e
     | inr d => inr (written d)
     end, []).
Proof.
  unfold text_of. rewrite run_bind, run_lift.
  now destruct (payload r).
Qed.

Lemma run_json_of (w : World) (r : reply) :
  run w (json_of r) =
    (match payload r with
     | inl e => inl e
     | inr d =>
         match JSON.parse (written d) with
         | Some v => inr v
         | None => inl (malformed d)
         end
     end, []).
Proof.
  unfold json_of. rewrite run_bind, run_lift.
  destruct (payload r) as [e | d]; [reflexivity |].
  now destruct (JSON.parse (written d)).
Qed.

(** Closes a goal on a run whose remaining steps are returns. *)
Ltac done_run := cbn [run]; rewrite ?app_nil_r; reflexivity.

(** ** Price lookup, call by call *)

(** The pair of a symbol, by cases. *)
Lemma pair_cases (symbol : string) :
  pair symbol
  = (if mem symbol object_prototype then VNative symbol
     else VStr (toUpperCase symbol ++ "USDT")).
Proof.
  unfold pair, lookup, map_. cbn [own].
  destruct (String.eqb_spec "BTC" symbol) as [<- | _]; [reflexivity |].
  destruct (String.eqb_spec "ETH" symbol) as [<- | _]; [reflexivity |].
  destruct (String.eqb_spec "SOL" symbol) as [<- | _]; [reflexivity |].
  now destruct (mem symbol object_prototype).
Qed.

(** The conversion of a pair to a string does not throw. *)
Lemma pair_converts (symbol : string) :
  exists u, ToString (pair symbol) = inr u.
Proof.
  rewrite pair_cases. destruct (mem symbol object_prototype); cbn [ToString]; eauto.
Qed.

Lemma getUsdPrice_run (w : World) (symbol : string) :
  run w (getUsdPrice symbol) =
    (inr (quoted (answer w (price_request (pair symbol)))),
     [price_request (pair symbol)]).
Proof.
  unfold getUsdPrice, price_request.
  destruct (pair_converts symbol) as (u & ->). cbn [lift bind].
  rewrite run_try_catch, run_bind, run_fetch.
  destruct (answer w (price_call u)) as [e | r]; simpl; [reflexivity |].
  destruct (ok r); simpl; [| reflexivity].
  rewrite run_bind, run_json_of.
  destruct (payload r) as [e | d]; simpl; [reflexivity |].
  destruct (JSON.parse (written d)) as [j |]; simpl; [| reflexivity].
  rewrite run_bind, run_lift.
  destruct (Get j "price") as [e | p]; [reflexivity |].
  rewrite run_bind, run_lift.
  now destruct (ToNumber p) as [e | n].
Qed.

Lemma lookups_run (w : World) (l : list string) :
  forall prices,
    run w (lookups l prices) =
      (inr (gathered w l prices), map (fun s => price_request (pair s)) l).
Proof.
  unfold gathered.
  induction l as [| s l IH]; intros prices; cbn [lookups map fold_left].
  - reflexivity.
  - rewrite run_bind, getUsdPrice_run, IH. reflexivity.
Qed.

(** ** The ask handler, outcome by outcome *)

Lemma Get_truthy (v : value) (k : string) :
  ToBoolean v = true -> Get v k = inr (GetOpt v k).
Proof.
  intros T. unfold GetOpt.
  destruct (Get v k) as [e | x] eqn:G; [| reflexivity].
  destruct v; simpl in T, G; try discriminate.
  - destruct (array_index k) as [i |]; [destruct (String.get i s) |];
      try discriminate; destruct (String.eqb k "length"); discriminate.
  - destruct (array_index k) as [i |]; try discriminate;
      destruct (String.eqb k "length"); discriminate.
Qed.

Lemma Get_body (req_body : value) (k : string) :
  Get (or_else req_body (VObj [])) k = inr (field req_body k).
Proof.
  apply Get_truthy. unfold or_else.
  now destruct (ToBoolean req_body) eqn:T.
Qed.

Lemma ask_missing (E : Env) (req_body : value) :
  ToBoolean (field req_body "prompt") = false ->
  ask E req_body = Ret missing_prompt.
Proof.
  intros F. unfold ask. rewrite !Get_body. cbn [lift bind].
  rewrite F. reflexivity.
Qed.

(** A prompt that the scan cannot convert to a string: the handler
    answers 500 before any call. *)
Lemma ask_unscanned (E : Env) (w : World) (req_body : value) (e : exn) :
  ToBoolean (field req_body "prompt") = true ->
  found (field req_body "prompt") = inl e ->
  run w (ask E req_body) = (inr (server_error e), []).
Proof.
  intros T F. unfold ask. rewrite !Get_body. cbn [lift bind].
  rewrite T, F. reflexivity.
Qed.

Lemma looked_up_found (prompt : value) (symbols : list string) :
  found prompt = inr symbols -> looked_up prompt = firstn 3 symbols.
Proof. unfold looked_up. now intros ->. Qed.

Lemma ask_run (E : Env) (w : World) (req_body : value) (matched : list string) :
  ToBoolean (field req_body "prompt") = true ->
  found (field req_body "prompt") = inr matched ->
  let prompt := field req_body "prompt" in
  let symbols := firstn 3 matched in
  let prices := gathered w symbols [] in
  let rq := ask_request E (model_of E req_body) prompt prices in
  run w (ask E req_body) =
    (inr (answered prices (answer w rq)),
     (map (fun s => price_request (pair s)) symbols ++ [rq])%list).
Proof.
  intros T F prompt symbols prices rq. unfold ask.
  rewrite !Get_body. cbn [lift bind]. rewrite T, F. cbn [negb lift bind].
  rewrite run_try_catch, run_bind, lookups_run.
  fold prompt symbols prices. fold (model_of E req_body). fold rq.
  rewrite run_bind, run_fetch.
  unfold answered.
  destruct (answer w rq) as [e | r]; [done_run |].
  destruct (ok r); cbn [negb].
  - rewrite run_bind, run_json_of.
    destruct (payload r) as [e | d]; [done_run |].
    destruct (JSON.parse (written d)) as [data |]; [| done_run].
    rewrite run_bind, run_lift.
    destruct (Get data "choices") as [e | choices].
    { destruct (Get data "usage"); done_run. }
    rewrite run_bind, run_lift.
    destruct (Get data "usage") as [e | usage]; done_run.
  - rewrite run_bind, run_text_of.
    destruct (payload r) as [e | d]; done_run.
Qed.

(** ** The quiz handler, outcome by outcome *)

Lemma run_pick (w : World) : run w pick = (inr (picked w), []).
Proof. reflexivity. Qed.

(** A rating that does not convert to a number: the handler answers
    500 before the mode is looked at. *)
Lemma quiz_unrated (E : Env) (w : World) (param : value) (e : exn) :
  elo param = inl e -> run w (quiz E param) = (inr (server_error e), []).
Proof. intros R. unfold quiz. rewrite R. reflexivity. Qed.

Lemma quiz_static_run (E : Env) (w : World) (param : value) (n : number) :
  elo param = inr n ->
  llm_mode E = false -> run w (quiz E param) = (inr (picked w), []).
Proof.
  intros R M. unfold quiz. rewrite R. cbn [lift bind].
  rewrite M, run_try_catch, run_pick. reflexivity.
Qed.

Lemma quiz_llm_run (E : Env) (w : World) (param : value) (n : number) :
  elo param = inr n ->
  llm_mode E = true ->
  let rq := quiz_request E n in
  run w (quiz E param) = (inr (generated w (answer w rq)), [rq]).
Proof.
  intros R M rq. unfold quiz. rewrite R. cbn [lift bind].
  rewrite M, run_try_catch, run_bind, run_fetch.
  fold rq. unfold generated.
  destruct (answer w rq) as [e | r]; [done_run |].
  destruct (ok r); [| rewrite run_pick; done_run].
  rewrite run_bind, run_json_of.
  destruct (payload r) as [e | d]; [done_run |].
  destruct (JSON.parse (written d)) as [data |]; [| done_run].
  rewrite run_bind, run_lift.
  destruct (Get data "choices") as [e | choices]; [done_run |].
  unfold reply_value.
  destruct (ToString (or_else (first_content choices) (VStr "{}"))) as [e | t];
    [rewrite run_pick; done_run |].
  destruct (JSON.parse t) as [v |]; [| rewrite run_pick]; done_run.
Qed.

(** ** The quotes of a request *)

Lemma assign_fresh (prices : quotes) (s : string) (v : option number) :
  ~ In s (map fst prices) -> assign prices s v = (prices ++ [(s, v)])%list.
Proof.
  induction prices as [| [k x] r IH]; simpl; intros F.
  - reflexivity.
  - destruct (String.eqb_spec k s) as [-> | N].
    + exfalso. apply F. now left.
    + rewrite IH; [reflexivity |]. intros I. apply F. now right.
Qed.

Lemma gathered_fresh (w : World) (l : list string) :
  forall acc,
    NoDup l ->
    (forall s, In s l -> ~ In s (map fst acc)) ->
    gathered w l acc = (acc ++ map (quote_for w) l)%list.
Proof.
  unfold gathered.
  induction l as [| s l IH]; intros acc D F; cbn [fold_left map].
  - now rewrite app_nil_r.
  - inversion D as [| ? ? N D']; subst.
    rewrite assign_fresh by (apply F; now left).
    rewrite IH; trivial.
    + now rewrite <- app_assoc.
    + intros t I. rewrite map_app, in_app_iff. cbn [map fst In].
      intros [J | [-> | []]].
      * apply (F t); [now right | exact J].
      * contradiction.
Qed.

Lemma NoDup_firstn {X : Type} (n : nat) (l : list X) : NoDup l -> NoDup (firstn n l).
Proof.
  intros D. rewrite <- (firstn_skipn n l) in D.
  now apply NoDup_app_remove_r in D.
Qed.

Lemma In_firstn {X : Type} (n : nat) (l : list X) (x : X) : In x (firstn n l) -> In x l.
Proof.
  intros I. rewrite <- (firstn_skipn n l). apply in_or_app. now left.
Qed.

Lemma NoDup_tickers : NoDup tickers.
Proof.
  unfold tickers.
  repeat (constructor; [cbn [In]; intuition discriminate |]).
  constructor.
Qed.

Lemma NoDup_matches (t : string) : NoDup (firstn 3 (matches t)).
Proof. apply NoDup_firstn, NoDup_filter, NoDup_tickers. Qed.

Lemma NoDup_looked_up (prompt : value) : NoDup (looked_up prompt).
Proof.
  unfold looked_up, found. destruct (ToString prompt) as [e | t];
    [constructor | apply NoDup_matches].
Qed.

Lemma looked_up_tickers (prompt : value) (s : string) :
  In s (looked_up prompt) -> In s tickers.
Proof.
  unfold looked_up, found. destruct (ToString prompt) as [e | t]; [intros [] |].
  intros I. apply In_firstn in I. unfold matches in I. now apply filter_In in I.
Qed.

(** The quotes the ask handler gathers: one per symbol looked up, in
    the order of the lookups. *)
Lemma gathered_found (w : World) (prompt : value) :
  gathered w (looked_up prompt) [] = map (quote_for w) (looked_up prompt).
Proof.
  rewrite gathered_fresh; [reflexivity | apply NoDup_looked_up |].
  intros s _ [].
Qed.

(** ** The handlers, case by case *)

Lemma ask_cases (E : Env) (w : World) (req_body : value) :
  run w (ask E req_body) = (inr (asked E w req_body), asked_calls E w req_body).
Proof.
  unfold asked, asked_calls. cbv zeta.
  destruct (ToBoolean (field req_body "prompt")) eqn:T.
  - destruct (found (field req_body "prompt")) as [e | matched] eqn:F.
    + now apply ask_unscanned.
    + rewrite (ask_run E w req_body matched T F). cbv zeta.
      unfold ask_call. now rewrite (looked_up_found _ _ F).
  - now rewrite (ask_missing E req_body T).
Qed.

Lemma quiz_cases (E : Env) (w : World) (param : value) :
  run w (quiz E param) = (inr (quizzed E w param), quizzed_calls E param).
Proof.
  unfold quizzed, quizzed_calls.
  destruct (elo param) as [e | n] eqn:R; [now apply quiz_unrated |].
  destruct (llm_mode E) eqn:M.
  - exact (quiz_llm_run E w param n R M).
  - exact (quiz_static_run E w param n R M).
Qed.

(** The completion call of a request is made for a prompt that is not
    falsy and that the scan converts, and it is [ask_call]. *)
Lemma completion_of_cases (E : Env) (w : World) (req_body : value) (rq : request) :
  completion_of E w req_body rq ->
  ToBoolean (field req_body "prompt") = true
  /\ (exists matched, found (field req_body "prompt") = inr matched)
  /\ rq = ask_call E w req_body.
Proof.
  unfold completion_of, calls. rewrite ask_cases. cbn [snd].
  unfold asked_calls. cbv zeta.
  destruct (ToBoolean (field req_body "prompt")); [| intros [[] _]].
  destruct (found (field req_body "prompt")) as [e | matched]; [intros [[] _] |].
  rewrite in_app_iff. intros [[I | [<- | []]] P].
  - apply in_map_iff in I as (s & <- & _). discriminate P.
  - split; [reflexivity |]. split; [now exists matched | reflexivity].
Qed.

Lemma completion_of_call (E : Env) (w : World) (req_body : value) :
  ToBoolean (field req_body "prompt") = true ->
  (exists matched, found (field req_body "prompt") = inr matched) ->
  completion_of E w req_body (ask_call E w req_body).
Proof.
  intros T (matched & F). unfold completion_of, calls. rewrite ask_cases. cbn [snd].
  unfold asked_calls. cbv zeta. rewrite T, F. split; [| reflexivity].
  apply in_or_app. right. now left.
Qed.

Lemma asked_answered (E : Env) (w : World) (req_body : value) (rq : request) :
  completion_of E w req_body rq ->
  result w (ask E req_body)
  = inr (answered (gathered w (looked_up (field req_body "prompt")) []) (answer w rq)).
Proof.
  intros C. destruct (completion_of_cases E w req_body rq C) as (T & (matched & F) & ->).
  unfold result. rewrite ask_cases. cbn [fst]. unfold asked. cbv zeta.
  now rewrite T, F.
Qed.

(** ** C6: a request without a prompt *)

(** C6. A POST /api/tradegpt/ask request whose body has no prompt field,
    or an empty one, is answered with status 400 and the body
    [{ error: "Missing prompt" }]; the handler is then a plain return,
    so that in every world no outbound call is made, neither a price
    lookup nor a completion. *)
Theorem ask_missing_prompt (E : Env) (req_body : value) :
  field req_body "prompt" = VUndefined \/ field req_body "prompt" = VStr "" ->
  ask E req_body = Ret (res_json 400 (VObj [("error", VStr "Missing prompt")]))
  /\ forall w : World,
      run w (ask E req_body)
      = (inr {| code := 400; content := VObj [("error", VStr "Missing prompt")] |}, []).
Proof.
  intros H.
  assert (F : ToBoolean (field req_body "prompt") = false)
    by (destruct H as [-> | ->]; reflexivity).
  split.
  - now apply ask_missing.
  - intros w. rewrite (ask_missing E req_body F). reflexivity.
Qed.

Lemma ask_missing_prompt_witness :
  (field (VObj []) "prompt" = VUndefined \/ field (VObj []) "prompt" = VStr "")
  /\ forall w : World,
      run w (ask Sample.static_env (VObj []))
      = (inr {| code := 400; content := VObj [("error", VStr "Missing prompt")] |}, []).
Proof.
  split.
  - left. reflexivity.
  - apply (ask_missing_prompt Sample.static_env (VObj [])). left. reflexivity.
Defined.

(** ** C5: the completion endpoint answers with a failure status *)



(** ** What [JSON.parse] can return *)

Lemma parse_elements_array (f : nat) :
  forall l acc v t,
    JSON.parse_elements f l acc = Some (v, t) -> exists items, v = VArr items.
Proof.
  induction f as [| f IH]; intros l acc v t; [discriminate |].
  cbn [JSON.parse_elements].
  destruct (JSON.parse_value f l) as [[x r] |]; [| discriminate].
  destruct (JSON.skip_ws r) as [| c r']; [discriminate |].
  destruct (Char.code c =? 44); [apply IH |].
  destruct (Char.code c =? 93); [| discriminate].
  intros [= <- _]. eauto.
Qed.

Lemma parse_members_object (f : nat) :
  forall l acc v t,
    JSON.parse_members f l acc = Some (v, t) -> exists o, v = VObj o.
Proof.
  induction f as [| f IH]; intros l acc v t; [discriminate |].
  cbn [JSON.parse_members].
  destruct (JSON.skip_ws l) as [| q r]; [discriminate |].
  destruct (Char.code q =? 34); [| discriminate].
  destruct (JSON.string_body None r) as [[k r1] |]; [| discriminate].
  destruct (JSON.skip_ws r1) as [| colon r2]; [discriminate |].
  destruct (Char.code colon =? 58); [| discriminate].
  destruct (JSON.parse_value f r2) as [[x r3] |]; [| discriminate].
  destruct (JSON.skip_ws r3) as [| c r4]; [discriminate |].
  destruct (Char.code c =? 44); [apply IH |].
  destruct (Char.code c =? 125); [| discriminate].
  intros [= <- _]. eauto.
Qed.

Lemma parse_value_defined (f : nat) (l : list ascii) (v : value) (t : list ascii) :
  JSON.parse_value f l = Some (v, t) -> defined v.
Proof.
  assert (D : forall x, (exists b, x = VBool b) \/ x = VNull \/ (exists n, x = VNum n)
                        \/ (exists s, x = VStr s) \/ (exists i, x = VArr i)
                        \/ (exists o, x = VObj o) -> defined x).
  { intros x H. split; [| intros k];
      decompose [or ex] H; subst; discriminate. }
  destruct f as [| f]; [discriminate |].
  cbn [JSON.parse_value].
  destruct (JSON.skip_ws l) as [| c r]; [discriminate |].
  cbv zeta.
  destruct (Char.code c =? 34).
  { destruct (JSON.string_body None r) as [[s u] |]; [| discriminate].
    intros [= <- _]. apply D. eauto 8. }
  destruct (Char.code c =? 91).
  { destruct (JSON.skip_ws r) as [| c' r']; [discriminate |].
    destruct (Char.code c' =? 93).
    - intros [= <- _]. apply D. eauto 8.
    - intros H. apply parse_elements_array in H. apply D. tauto. }
  destruct (Char.code c =? 123).
  { destruct (JSON.skip_ws r) as [| c' r']; [discriminate |].
    destruct (Char.code c' =? 125).
    - intros [= <- _]. apply D. eauto 8.
    - intros H. apply parse_members_object in H. apply D. tauto. }
  assert (L : forall w x, JSON.literal w x (c :: r) = Some (v, t) -> v = x).
  { intros w x. unfold JSON.literal.
    destruct (Num.strip_prefix _ _); [| discriminate]. now intros [= <- _]. }
  destruct (Char.code c =? 110); [intros H; apply L in H; subst; apply D; tauto |].
  destruct (Char.code c =? 116); [intros H; apply L in H; subst; apply D; eauto |].
  destruct (Char.code c =? 102); [intros H; apply L in H; subst; apply D; eauto |].
  unfold JSON.parse_number.
  destruct (match c :: r with
            | [] => (false, c :: r)
            | c0 :: r' => if Char.code c0 =? 45 then (true, r') else (false, c :: r)
            end) as [neg u].
  destruct (span_digits u) as [[| d ip] u'] ; [discriminate |].
  assert (T : forall ip0 l0, JSON.number_tail neg ip0 l0 = Some (v, t) -> defined v).
  { intros ip0 l0. unfold JSON.number_tail.
    destruct (match l0 with
              | [] => Some ([], l0)
              | c0 :: r0 =>
                  if Char.code c0 =? 46
                  then match span_digits r0 with
                       | ([], _) => None
                       | ((_ :: _) as fp, t0) => Some (fp, t0)
                       end
                  else Some ([], l0)
              end) as [[fp u0] |]; [| discriminate].
    destruct u0 as [| c0 r0]; [intros [= <- _]; apply D; eauto 8 |].
    destruct ((Char.code c0 =? 101) || (Char.code c0 =? 69));
      [| intros [= <- _]; apply D; eauto 8].
    destruct (match r0 with
              | [] => (false, r0)
              | s :: r'0 =>
                  if Char.code s =? 45 then (true, r'0)
                  else if Char.code s =? 43 then (false, r'0) else (false, r0)
              end) as [eneg r1].
    destruct (span_digits r1) as [[| d0 ds] rest]; [discriminate |].
    intros [= <- _]. apply D. eauto 8. }
  destruct ((Char.code d =? 48) && negb (List.length ip =? 0)%nat); apply T.
Qed.

Lemma parse_defined (s : string) (v : value) : JSON.parse s = Some v -> defined v.
Proof.
  unfold JSON.parse.
  destruct (JSON.parse_value _ _) as [[x t] |] eqn:P; [| discriminate].
  destruct (JSON.skip_ws t); [| discriminate].
  intros [= <-]. eapply parse_value_defined, P.
Qed.

Lemma Get_defined (v : value) (k : string) :
  v <> VUndefined -> v <> VNull -> Get v k = inr (GetOpt v k).
Proof.
  intros U N. unfold GetOpt.
  destruct (Get v k) as [e | x] eqn:G; [| reflexivity].
  destruct v; try congruence; simpl in G;
    repeat match type of G with
           | context [match ?x with _ => _ end] => destruct x
           end; discriminate.
Qed.

(** ** C7: the completion endpoint answers *)

Lemma live_members (prices : quotes) :
  exists members : object,
    live prices = VObj members
    /\ map fst members = map fst prices
    /\ Forall (fun kv => number_or_null (snd kv)) members.
Proof.
  unfold live. eexists. split; [reflexivity |]. split.
  - rewrite map_map. reflexivity.
  - apply Forall_forall. intros kv I. apply in_map_iff in I.
    destruct I as [[k [n |]] [<- _]]; cbn [snd]; [right; eauto | now left].
Qed.

(** C7, as the code has it. When the completion call of a POST
    /api/tradegpt/ask request resolves with a success status and a
    body that can be read and is JSON for a value [data] other than
    [null], the handler answers with status 200 and the body
    [{ reply, tokens, cost, live }]: [reply] is
    [data.choices?.[0]?.message?.content], or the empty string when that
    is absent; [tokens] is [data.usage?.total_tokens], or [null] when
    absent; [cost] is [null]; [live] has one member per symbol looked
    up, in the order of the lookups, each a number or [null]. (A
    success whose body is not JSON is answered with status 500.) *)
Theorem ask_success (E : Env) (w : World) (req_body : value)
  (rq : request) (r : reply) (d : document) (data : value) :
  completion_of E w req_body rq ->
  answer w rq = Resolved r ->
  ok r = true ->
  payload r = inr d ->
  JSON.parse (written d) = Some data ->
  data <> VNull ->
  exists members : object,
    map fst members = looked_up (field req_body "prompt")
    /\ Forall (fun kv => number_or_null (snd kv)) members
    /\ result w (ask E req_body)
       = inr {| code := 200;
                content :=
                  VObj [("reply",
                         or_else (first_content (GetOpt data "choices")) (VStr ""));
                        ("tokens",
                         nullish (GetOpt (GetOpt data "usage") "total_tokens") VNull);
                        ("cost", VNull);
                        ("live", VObj members)] |}.
Proof.
  intros C A K P J N.
  destruct (live_members (gathered w (looked_up (field req_body "prompt")) []))
    as (members & L & F & X).
  exists members. split; [| split; [exact X |]].
  - rewrite F, gathered_found, map_map. apply map_id.
  - rewrite (asked_answered E w req_body rq C), A. unfold answered.
    rewrite P, K, J.
    destruct (parse_defined _ _ J) as [U _].
    rewrite !(Get_defined data) by assumption.
    unfold completed. now rewrite L.
Qed.

Lemma ask_success_witness :
  completion_of Sample.static_env Sample.up Sample.question
    (ask_call Sample.static_env Sample.up Sample.question)
  /\ answer Sample.up (ask_call Sample.static_env Sample.up Sample.question)
     = Resolved {| status := 200; payload := inr (Sample.page Sample.completion_text) |}
  /\ JSON.parse Sample.completion_text = Some Sample.completion_data
  /\ exists members : object,
      map fst members = looked_up (field Sample.question "prompt")
      /\ Forall (fun kv => number_or_null (snd kv)) members
      /\ result Sample.up (ask Sample.static_env Sample.question)
         = inr {| code := 200;
                  content :=
                    VObj [("reply", VStr "BTC is a coin");
                          ("tokens", VNum (Num.of_Z 12));
                          ("cost", VNull);
                          ("live", VObj members)] |}.
Proof.
  assert (C : completion_of Sample.static_env Sample.up Sample.question
                (ask_call Sample.static_env Sample.up Sample.question))
    by (apply completion_of_call; [reflexivity | now exists ["BTC"]]).
  assert (A : answer Sample.up (ask_call Sample.static_env Sample.up Sample.question)
              = Resolved {| status := 200;
                            payload := inr (Sample.page Sample.completion_text) |})
    by reflexivity.
  assert (J : JSON.parse Sample.completion_text = Some Sample.completion_data)
    by (vm_compute; reflexivity).
  assert (N : Sample.completion_data <> VNull) by discriminate.
  split; [exact C | split; [exact A | split; [exact J |]]].
  exact (ask_success Sample.static_env Sample.up Sample.question
           _ _ _ _ C A eq_refl eq_refl J N).
Defined.

(** C7 fails as stated: a completion endpoint that answers 200 with a
    body that is not JSON gets the request answered with status 500,
    the detail being the error of the runtime. *)
Lemma ask_success_not_json :
  completion_of Sample.static_env garbled Sample.question
    (ask_call Sample.static_env garbled Sample.question)
  /\ answer garbled (ask_call Sample.static_env garbled Sample.question)
     = Sample.replies 200 "<html>busy</html>"
  /\ result garbled (ask Sample.static_env Sample.question)
     = inr {| code := 500;
              content := VObj [("error", VStr "Server error");
                               ("detail", VStr "SyntaxError: Unexpected token in JSON")] |}.
Proof.
  split; [apply completion_of_call; [reflexivity | now exists ["BTC"]] |].
  split; vm_compute; reflexivity.
Qed.

(** ** C3: price lookup never raises *)

(** C3, as the code has it. For every symbol and every world,
    [getUsdPrice] makes one call and returns without raising. It returns
    [null] when the call fails at the transport level, when the status
    is not a success, when the body cannot be read as JSON (or is
    [null]), and when [Number(j.price)] is NaN or zero; otherwise it
    returns [Number(j.price)], which is then neither NaN nor zero. The
    sign and the finiteness of that number are not examined. *)
Theorem getUsdPrice_never_raises (symbol : string) (w : World) :
  exists v : option number,
    run w (getUsdPrice symbol) = (inr v, [price_request (pair symbol)])
    /\ v = quoted (answer w (price_request (pair symbol)))
    /\ match v with
       | Some n => Num.truthy n = true /\ n <> Num.NaN
       | None => True
       end.
Proof.
  eexists. split; [apply getUsdPrice_run |]. split; [reflexivity |].
  destruct (quoted _) as [n |] eqn:Q; [| exact I].
  assert (P : forall x, or_null x = Some n -> Num.truthy n = true /\ n <> Num.NaN).
  { intros x. unfold or_null.
    destruct (Num.truthy x) eqn:T; [| discriminate].
    intros [= <-]. split; [exact T |]. intros C. now rewrite C in T. }
  unfold quoted in Q.
  destruct (answer _ _) as [e | r]; [discriminate |].
  destruct (ok r); [| discriminate].
  destruct (payload r) as [e | d]; [discriminate |].
  destruct (JSON.parse (written d)) as [j |]; [| discriminate].
  destruct (Get j "price") as [e | p]; [discriminate |].
  destruct (ToNumber p) as [e | x]; [discriminate |].
  now apply P in Q.
Qed.

(** C3 fails as stated: a reply whose price reads as [Infinity] is
    returned as the price, although it is not a finite number. *)
Lemma getUsdPrice_infinite_price :
  result (quoting "{'symbol':'BTCUSDT','price':'Infinity'}") (getUsdPrice "BTC")
  = inr (Some Num.Infinity)
  /\ Num.is_finite Num.Infinity = false.
Proof. split; vm_compute; reflexivity. Qed.

(** Nor is the price returned always positive, and a price of zero is
    reported as unknown. *)
Example getUsdPrice_negative_price :
  result (quoting "{'symbol':'BTCUSDT','price':'-1.50'}") (getUsdPrice "BTC")
  = inr (Some (Num.of_decimal true 15 (-1))).
Proof. vm_compute. reflexivity. Qed.

Example getUsdPrice_zero_price :
  result (quoting "{'symbol':'BTCUSDT','price':'0.00000000'}") (getUsdPrice "BTC")
  = inr None.
Proof. vm_compute. reflexivity. Qed.

Example getUsdPrice_offline :
  run (Sample.offline Sample.unreachable Sample.half) (getUsdPrice "BTC")
  = (inr None, [price_request (VStr "BTCUSDT")]).
Proof. vm_compute. reflexivity. Qed.

(** ** C10: the override map *)

(** C10, as the code has it. For every symbol that does not name a
    member of [Object.prototype], the pair computed with the override
    map is the upper-cased symbol followed by [USDT]: on those symbols,
    which include every ticker of the allow-list, the map is redundant.
    (A symbol such as [constructor] makes [map[symbol]] the inherited
    member, which is truthy and so taken as the pair.) *)
Theorem pair_override_redundant (symbol : string) :
  mem symbol object_prototype = false ->
  pair symbol = pair_simple symbol.
Proof.
  intros M. unfold pair, pair_simple, lookup, map_. cbn [own].
  destruct (String.eqb_spec "BTC" symbol) as [<- | _]; [reflexivity |].
  destruct (String.eqb_spec "ETH" symbol) as [<- | _]; [reflexivity |].
  destruct (String.eqb_spec "SOL" symbol) as [<- | _]; [reflexivity |].
  rewrite M. reflexivity.
Qed.

Lemma pair_override_redundant_witness :
  mem "DOGE" object_prototype = false /\ pair "DOGE" = VStr "DOGEUSDT".
Proof.
  split; [reflexivity |].
  exact (pair_override_redundant "DOGE" eq_refl).
Defined.

(** Every ticker of the allow-list is such a symbol. *)
Lemma tickers_plain : forallb (fun s => negb (mem s object_prototype)) tickers = true.
Proof. reflexivity. Qed.

(** C10 fails as stated: for the symbol [constructor] the map yields
    the inherited [Object.prototype.constructor], not a pair name. *)
Lemma pair_override_not_redundant :
  pair "constructor" = VNative "constructor"
  /\ pair "constructor" <> pair_simple "constructor".
Proof. split; [reflexivity | discriminate]. Qed.

(** ** C9: the skill rating *)

(** C9, as the code has it. The rating used to build the generation
    prompt is 1200 when the [elo] parameter is absent or empty, and
    [Number(elo)] otherwise, which is NaN, not 1200, when the text is
    not numeric. In generative mode the one call made carries the
    prompt built from that rating. When [Number(elo)] throws (the
    parameter is an object with a member [toString]), there is no
    rating: the handler answers 500 and makes no call. *)
Theorem quiz_rating (E : Env) (w : World) (param : value) :
  elo param = rating param
  /\ elo VUndefined = inr (Num.of_Z 1200)
  /\ elo (VStr "") = inr (Num.of_Z 1200)
  /\ (forall s, s <> "" -> elo (VStr s) = inr (Num.of_string s))
  /\ (forall n, llm_mode E = true -> rating param = inr n ->
      calls w (quiz E param) = [quiz_request E n])
  /\ (forall e, rating param = inl e ->
      run w (quiz E param) = (inr (server_error e), [])).
Proof.
  assert (R : elo param = rating param).
  { unfold elo, rating, or_else. now destruct (ToBoolean param). }
  split; [exact R |]. split; [reflexivity |]. split; [reflexivity |].
  split; [| split].
  - intros s N. unfold elo, or_else. cbn [ToBoolean].
    destruct (String.eqb_spec s ""); [contradiction | reflexivity].
  - intros n M H. rewrite <- R in H. unfold calls.
    now rewrite (quiz_llm_run E w param n H M).
  - intros e H. rewrite <- R in H. now apply quiz_unrated.
Qed.

Lemma quiz_rating_witness :
  llm_mode Sample.llm_env = true
  /\ rating (VStr "1500") = inr (Num.of_Z 1500)
  /\ calls Sample.up (quiz Sample.llm_env (VStr "1500"))
     = [quiz_request Sample.llm_env (Num.of_Z 1500)].
Proof.
  assert (M : llm_mode Sample.llm_env = true) by reflexivity.
  assert (H : rating (VStr "1500") = inr (Num.of_Z 1500)) by (vm_compute; reflexivity).
  split; [exact M |]. split; [exact H |].
  exact (proj1 (proj2 (proj2 (proj2 (proj2
           (quiz_rating Sample.llm_env Sample.up (VStr "1500")))))) _ M H).
Defined.

(** C9 fails as stated: a non-numeric parameter gives NaN, not 1200,
    and the prompt is built from it. *)
Lemma quiz_rating_not_numeric :
  elo (VStr "abc") = inr Num.NaN
  /\ elo (VStr "abc") <> inr (Num.of_Z 1200)
  /\ quiz_prompt Num.NaN
     = "Create a concise trading quiz JSON tuned for ELO NaN." ++ newline
       ++ "Fields: {type:'mcq'|'image_mcq', img?, q, opts:[A,B,C], a(0-2)}. Keep it short.".
Proof. repeat split; try (vm_compute; reflexivity). vm_compute. discriminate. Qed.

(** A parameter that [Number] cannot convert: [?elo[toString]=1]. *)
Example quiz_rating_throws :
  run Sample.up (quiz Sample.llm_env (VObj [("toString", VStr "1")]))
  = (inr {| code := 500;
            content :=
              VObj [("error", VStr "Server error");
                    ("detail",
                     VStr "TypeError: Cannot convert object to primitive value")] |},
     []).
Proof. reflexivity. Qed.

(** ** C1: generative mode and its fallback *)

(** C1, as the code has it. In generative mode, for a rating that
    [Number] can convert, when the generation call resolves with a
    status that is not a success, or with a first completion on which
    [JSON.parse] throws, the handler answers as in static mode: status
    200 and the item of the bank that the draw selects. When the reply
    text parses, the parsed value is the response, whatever its shape:
    nothing compares it with the QuizItem schema. *)
Theorem quiz_llm_falls_back (E : Env) (w : World) (param : value) (n : number)
  (r : reply) :
  llm_mode E = true ->
  elo param = inr n ->
  answer w (quiz_request E n) = Resolved r ->
  (no_generation r ->
   result w (quiz E param) = inr (picked w)
   /\ result w (quiz E param) = result w (quiz (static_of E) param))
  /\ (forall v, generation r v ->
      result w (quiz E param) = inr {| code := 200; content := v |}).
Proof.
  intros M R A.
  assert (S : result w (quiz (static_of E) param) = inr (picked w)).
  { unfold result. now rewrite (quiz_static_run (static_of E) w param n R). }
  unfold result in *. rewrite (quiz_llm_run E w param n R M). cbn [fst].
  rewrite A, S. unfold generated. split.
  - intros [K | (d & data & choices & P & J & G & N)].
    + now rewrite K.
    + destruct (ok r); [| easy]. now rewrite P, J, G, N.
  - intros v (K & d & data & choices & P & J & G & N).
    now rewrite K, P, J, G, N.
Qed.

Lemma no_generation_sample : no_generation (Sample.chat_reply "'Sorry, no quiz today'").
Proof.
  right.
  exists (Sample.page (JSON.dq "{'choices':[{'message':{'content':'Sorry, no quiz today'}}],'usage':{'total_tokens':12}}")),
    sorry_data, sorry_choices.
  split; [reflexivity |]. split; [vm_compute; reflexivity |].
  split; vm_compute; reflexivity.
Defined.

Lemma quiz_llm_falls_back_witness :
  llm_mode Sample.llm_env = true
  /\ elo VUndefined = inr (Num.of_Z 1200)
  /\ answer (generating "'Sorry, no quiz today'")
       (quiz_request Sample.llm_env (Num.of_Z 1200))
     = Resolved (Sample.chat_reply "'Sorry, no quiz today'")
  /\ no_generation (Sample.chat_reply "'Sorry, no quiz today'")
  /\ result (generating "'Sorry, no quiz today'") (quiz Sample.llm_env VUndefined)
     = result (generating "'Sorry, no quiz today'") (quiz Sample.static_env VUndefined).
Proof.
  split; [reflexivity |]. split; [reflexivity |]. split; [reflexivity |].
  split; [exact no_generation_sample |].
  exact (proj2 (proj1 (quiz_llm_falls_back Sample.llm_env
                         (generating "'Sorry, no quiz today'") VUndefined _ _
                         eq_refl eq_refl eq_refl) no_generation_sample)).
Defined.

(** C1 fails as stated: a generated item whose answer index does not
    index into its options is sent to the caller as it is; the handler
    does not fall back to the bank. *)
Lemma quiz_llm_surfaces_invalid_item :
  result (generating stray_text) (quiz Sample.llm_env VUndefined)
  = inr {| code := 200; content := stray_item |}
  /\ ~ In stray_item bank
  /\ result (generating stray_text) (quiz Sample.llm_env VUndefined)
     <> result (generating stray_text) (quiz Sample.static_env VUndefined).
Proof.
  split; [vm_compute; reflexivity |]. split.
  - unfold bank. cbn [In]. intros [H | [H | [H | []]]]; discriminate H.
  - vm_compute. discriminate.
Qed.

(** A transport failure of the generation call is not turned into a
    fallback either: it reaches the handler's outer [catch]. *)
Example quiz_llm_transport_failure :
  result {| answer := fun _ => Sample.unreachable; draw := Sample.half |}
    (quiz Sample.llm_env VUndefined)
  = inr (server_error {| exn_name := "FetchError";
                         exn_message := "connect ECONNREFUSED" |}).
Proof. vm_compute. reflexivity. Qed.

(** ** C2: the live-price clause *)

Lemma fraction_positive (m : positive) (e : Z) :
  0 < fst (Num.fraction m e) /\ 0 < snd (Num.fraction m e).
Proof.
  unfold Num.fraction. destruct (0 <=? e) eqn:S; cbn [fst snd].
  - apply Z.leb_le in S. split; [| lia].
    apply Z.mul_pos_pos; [lia | now apply Z.pow_pos_nonneg].
  - apply Z.leb_gt in S. split; [lia |]. apply Z.pow_pos_nonneg; lia.
Qed.

(** Below [10 ^ 21], [toFixed(2)] writes the hundredths nearest to the
    number: [h / 100] with [| 100 * x - h | <= 1 / 2]. *)
Lemma toFixed2_nearest (s : bool) (m : positive) (e : Z) :
  let n := fst (Num.fraction m e) in
  let d := snd (Num.fraction m e) in
  let h := Num.hundredths m e in
  n < d * 10 ^ 21 ->
  Num.toFixed2 (S754_finite s m e) = fixed2 s h
  /\ 2 * d * h <= 200 * n + d < 2 * d * (h + 1)
  /\ 0 <= h mod 100 < 100.
Proof.
  intros n d h B. subst n d h.
  destruct (fraction_positive m e) as [Pn Pd].
  unfold Num.toFixed2, Num.hundredths.
  destruct (Num.fraction m e) as [n d]. cbn [fst snd] in *.
  apply Z.leb_gt in B. rewrite B. split; [reflexivity |]. split.
  - split.
    + apply Z.mul_div_le. lia.
    + replace (2 * d * ((200 * n + d) / (2 * d) + 1))
        with (2 * d * Z.succ ((200 * n + d) / (2 * d))) by lia.
      apply Z.mul_succ_div_gt. lia.
  - apply Z.mod_pos_bound. lia.
Qed.

(** C2, as the code has it. The clause depends on the quotes looked up,
    known or not. With no quote at all (no ticker in the prompt),
    [priceLine] is empty and the system instruction is the five fixed
    sentences followed by a space. With at least one quote there is
    one clause, [Approx live prices (USDT): ... .], listing every quote
    in the order of the lookups, separated by commas: a known price is
    written with two decimals, an unknown one as [n/a]. *)
Theorem priceLine_clause (prices : quotes) :
  (priceLine prices = "" <-> prices = [])
  /\ (prices = [] -> system prices = join " " persona ++ " ")
  /\ (prices <> [] ->
      priceLine prices
      = "Approx live prices (USDT): " ++ join ", " (map entry prices) ++ "."
      /\ system prices = join " " persona ++ " " ++ priceLine prices)
  /\ (forall k, entry (k, None) = k ++ " ~ n/a")
  /\ (forall k n, entry (k, Some n) = k ++ " ~ " ++ Num.toFixed2 n)
  /\ (forall s m e,
        fst (Num.fraction m e) < snd (Num.fraction m e) * 10 ^ 21 ->
        Num.toFixed2 (S754_finite s m e) = fixed2 s (Num.hundredths m e)).
Proof.
  assert (S : system prices = join " " persona ++ " " ++ priceLine prices)
    by reflexivity.
  split; [| split; [| split; [| split; [| split]]]].
  - destruct prices; split; try reflexivity; discriminate.
  - intros ->. exact S.
  - intros N. split; [| exact S]. destruct prices; [contradiction | reflexivity].
  - reflexivity.
  - reflexivity.
  - intros s m e B. apply (toFixed2_nearest s m e B).
Qed.

Lemma priceLine_clause_witness :
  [("BTC", Some (Num.of_decimal false 67890125 (-3))); ("ETH", None)] <> []
  /\ priceLine [("BTC", Some (Num.of_decimal false 67890125 (-3))); ("ETH", None)]
     = "Approx live prices (USDT): BTC ~ 67890.13, ETH ~ n/a.".
Proof.
  split; [discriminate |].
  exact (proj1 (proj1 (proj2 (proj2
           (priceLine_clause
              [("BTC", Some (Num.of_decimal false 67890125 (-3))); ("ETH", None)])))
           ltac:(discriminate))).
Defined.

(** C2 fails as stated: a ticker whose lookup failed is a quote with no
    known price, and the clause is written for it, with [n/a] in the
    place of the price. *)
Lemma priceLine_placeholder :
  gathered (Sample.offline Sample.unreachable Sample.half)
    (firstn 3 (matches "What is BTC?")) []
  = [("BTC", None)]
  /\ known [("BTC", None)] = 0%nat
  /\ priceLine [("BTC", None)] = "Approx live prices (USDT): BTC ~ n/a."
  /\ system [("BTC", None)]
     = join " " persona ++ " Approx live prices (USDT): BTC ~ n/a.".
Proof. repeat split; vm_compute; reflexivity. Qed.

(** ** C4: the ticker scan *)

Section Scan.

Variable i : bool.

Lemma search_spec (p : RegExp.pattern) (l : list ascii) :
  forall prev,
    RegExp.search i p prev l <> None <->
    exists pre rest,
      l = (pre ++ rest)%list
      /\ RegExp.match_here i p (last_seen prev pre) rest = true.
Proof.
  induction l as [| x l IH]; intros prev; cbn [RegExp.search].
  - destruct (RegExp.match_here i p prev []) eqn:M.
    + split; [| discriminate]. intros _. exists [], []. now split.
    + split; [congruence |]. intros (pre & rest & E & H).
      symmetry in E. apply app_eq_nil in E as [-> ->]. cbn in H. congruence.
  - destruct (RegExp.match_here i p prev (x :: l)) eqn:M.
    + split; [| discriminate]. intros _. exists [], (x :: l). now split.
    + split.
      * intros H.
        destruct (RegExp.search i p (Some x) l) eqn:S; [| now cbn in H].
        destruct (proj1 (IH (Some x))) as (pre & rest & -> & H'); [congruence |].
        exists (x :: pre), rest. now split.
      * intros (pre & rest & E & H). destruct pre as [| y pre].
        -- cbn in E, H. subst rest. congruence.
        -- cbn in E. injection E as <- ->. cbn [last_seen] in H.
           destruct (RegExp.search i p (Some x) (pre ++ rest)) eqn:S; [discriminate |].
           exfalso. revert S. apply IH. eauto.
Qed.

Lemma literals_spec (cs : list ascii) (q : RegExp.pattern) :
  forall prev l,
    RegExp.match_here i (map RegExp.Literal cs ++ q)%list prev l = true <->
    exists mid post,
      l = (mid ++ post)%list
      /\ map (RegExp.canonicalize i) mid = map (RegExp.canonicalize i) cs
      /\ RegExp.match_here i q (last_seen prev mid) post = true.
Proof.
  induction cs as [| c cs IH]; intros prev l.
  - cbn [map app]. split.
    + intros H. exists [], l. now repeat split.
    + intros (mid & post & -> & E & H). destruct mid; [exact H | discriminate].
  - cbn [map app RegExp.match_here]. destruct l as [| x l].
    + split; [discriminate |]. intros (mid & post & E & C & _).
      destruct mid; [discriminate C | discriminate E].
    + rewrite andb_true_iff, IH. split.
      * intros (X & mid & post & -> & C & H).
        apply Ascii.eqb_eq in X.
        exists (x :: mid), post. cbn [map last_seen]. now rewrite X, C.
      * intros (mid & post & E & C & H). destruct mid as [| y mid]; [discriminate C |].
        cbn in E. injection E as <- ->. cbn [map] in C. injection C as X C.
        split; [now apply Ascii.eqb_eq |]. exists mid, post. now repeat split.
Qed.

End Scan.

Lemma upper_of_letter (c : ascii) : is_letter c = true -> Char.is_upper (Char.upper c) = true.
Proof.
  destruct c as [[] [] [] [] [] [] [] []]; vm_compute; trivial.
Qed.

Lemma word_of_upper (x : ascii) : Char.is_upper (Char.upper x) = true -> Char.is_word x = true.
Proof.
  destruct x as [[] [] [] [] [] [] [] []]; vm_compute; trivial.
Qed.

(** What matches letters, case apart, is made of word characters. *)
Lemma word_chars (cs : list ascii) :
  forallb is_letter cs = true ->
  forall mid, map Char.upper mid = map Char.upper cs ->
              forallb Char.is_word mid = true.
Proof.
  induction cs as [| c cs IH]; intros L [| x mid] E; try discriminate; [reflexivity |].
  cbn [map] in E. injection E as X E.
  cbn [forallb] in L |- *. apply andb_true_iff in L as [Lc L].
  apply andb_true_iff. split; [| now apply IH].
  apply word_of_upper. rewrite X. now apply upper_of_letter.
Qed.

Lemma last_seen_word (mid : list ascii) :
  mid <> [] -> forallb Char.is_word mid = true ->
  forall prev, RegExp.is_word (last_seen prev mid) = true.
Proof.
  induction mid as [| x mid IH]; [contradiction |].
  intros _ W prev. cbn [forallb] in W. apply andb_true_iff in W as [Wx W].
  destruct mid as [| y mid]; [exact Wx |].
  change (RegExp.is_word (last_seen (Some x) (y :: mid)) = true).
  apply IH; [discriminate | exact W].
Qed.

(** The test of [\bS\b] with flag [i] decides the whole-word
    occurrence of a symbol. *)
Lemma test_word (s t : string) :
  symbol_like s ->
  RegExp.test true (RegExp.word s) t = true <-> whole_word s t.
Proof.
  intros [N L]. unfold RegExp.test, whole_word.
  assert (S : RegExp.search true (RegExp.word s) None (chars t) <> None <->
              match RegExp.search true (RegExp.word s) None (chars t) with
              | Some _ => true
              | None => false
              end = true)
    by (destruct (RegExp.search _ _ _ _); split; congruence).
  rewrite <- S, search_spec. unfold RegExp.word. clear S.
  assert (B : forall mid, map Char.upper mid = map Char.upper (chars s) ->
                          mid <> [] /\ forallb Char.is_word mid = true).
  { intros mid E. split; [| now apply (word_chars (chars s))].
    intros ->. destruct (chars s); [contradiction | discriminate]. }
  split.
  - intros (pre & rest & E & H). cbn [app RegExp.match_here] in H.
    apply andb_true_iff in H as [X H].
    apply (literals_spec true) in H as (mid & post & -> & C & H).
    cbn [RegExp.match_here] in H. rewrite andb_true_r in H.
    destruct (B mid C) as [Nm W].
    rewrite (last_seen_word mid Nm W) in H.
    destruct mid as [| x mid]; [contradiction |].
    cbn [app hd_error RegExp.is_word forallb] in X, W.
    apply andb_true_iff in W as [Wx _]. rewrite Wx in X.
    exists pre, (x :: mid), post. repeat split; trivial.
    + now destruct (RegExp.is_word (last_seen None pre)).
    + now destruct (RegExp.is_word (hd_error post)).
  - intros (pre & mid & post & E & C & P & Q).
    exists pre, (mid ++ post)%list. split; [exact E |].
    destruct (B mid C) as [Nm W].
    cbn [app RegExp.match_here]. apply andb_true_iff. split.
    + rewrite P. destruct mid as [| x mid]; [contradiction |].
      cbn [app hd_error RegExp.is_word forallb] in W |- *.
      now apply andb_true_iff in W as [-> _].
    + apply (literals_spec true). exists mid, post. repeat split; trivial.
      cbn [RegExp.match_here]. now rewrite (last_seen_word mid Nm W), Q.
Qed.

Lemma tickers_sorted : StronglySorted allow_list_order tickers.
Proof.
  unfold tickers, allow_list_order.
  repeat (apply SSorted_cons;
          [| repeat (apply Forall_cons; [vm_compute; lia |]); apply Forall_nil]).
  apply SSorted_nil.
Qed.

Lemma StronglySorted_filter {X : Type} (R : X -> X -> Prop) (f : X -> bool) (l : list X) :
  StronglySorted R l -> StronglySorted R (filter f l).
Proof.
  induction 1 as [| a l S IH F]; cbn [filter]; [constructor |].
  destruct (f a); [| exact IH].
  constructor; [exact IH |].
  apply (incl_Forall (incl_filter f l) F).
Qed.

Lemma tickers_symbol_like (s : string) : In s tickers -> symbol_like s.
Proof.
  unfold tickers. cbn [In]. intros H.
  repeat (destruct H as [<- | H]; [split; [discriminate | reflexivity] |]).
  contradiction.
Qed.

Lemma pair_of_ticker (s : string) : In s tickers -> pair s = VStr (s ++ "USDT").
Proof.
  unfold tickers. cbn [In]. intros H.
  repeat (destruct H as [<- | H]; [reflexivity |]).
  contradiction.
Qed.

(** The calls of the ask handler for a prompt that is not falsy and
    that the scan converts. *)
Lemma ask_calls (E : Env) (w : World) (req_body : value) (matched : list string) :
  ToBoolean (field req_body "prompt") = true ->
  found (field req_body "prompt") = inr matched ->
  calls w (ask E req_body)
  = (map (fun s => price_request (pair s)) (firstn 3 matched)
     ++ [ask_call E w req_body])%list.
Proof.
  intros T F. unfold calls. rewrite ask_cases. cbn [snd].
  unfold asked_calls. cbv zeta. now rewrite T, F, (looked_up_found _ _ F).
Qed.

(** C4, as the code has it. For a prompt that is a text [t], or that
    converts to the text [t], the scan keeps exactly the symbols of the
    allow-list that occur in [t] as whole words, letter case apart (a
    symbol inside a longer token, such as BTC in BTCX, is not an
    occurrence; a word character is an ASCII letter, an ASCII digit or
    the underscore, so that an accented letter ends a word), and it
    keeps them in the order of the allow-list, not in the order in
    which the prompt mentions them. The first three of them, in that
    order, are the price lookups made, before the completion call. *)
Theorem ticker_extraction (E : Env) (w : World) (req_body : value) (t : string) :
  ToString (field req_body "prompt") = inr t ->
  found (field req_body "prompt") = inr (matches t)
  /\ (forall s, In s (matches t) <-> In s tickers /\ whole_word s t)
  /\ StronglySorted allow_list_order (matches t)
  /\ (List.length (firstn 3 (matches t)) <= 3)%nat
  /\ (ToBoolean (field req_body "prompt") = true ->
      calls w (ask E req_body)
      = (map (fun s => price_request (VStr (s ++ "USDT"))) (firstn 3 (matches t))
         ++ [ask_call E w req_body])%list).
Proof.
  intros C.
  assert (F : found (field req_body "prompt") = inr (matches t))
    by (unfold found; now rewrite C).
  split; [exact F |]. split; [| split; [| split]].
  - intros s. unfold matches. rewrite filter_In. split.
    + intros [I H]. split; [exact I |].
      now apply (test_word s _ (tickers_symbol_like s I)).
    + intros [I H]. split; [exact I |].
      now apply (test_word s _ (tickers_symbol_like s I)).
  - apply StronglySorted_filter, tickers_sorted.
  - apply firstn_le_length.
  - intros T. rewrite (ask_calls E w req_body _ T F). f_equal.
    apply map_ext_in. intros s I. f_equal. apply pair_of_ticker.
    apply In_firstn in I. unfold matches in I. now apply filter_In in I.
Qed.

Lemma ticker_extraction_witness :
  ToString (field sol_then_btc "prompt") = inr "SOL or BTC?"
  /\ ToBoolean (field sol_then_btc "prompt") = true
  /\ calls Sample.up (ask Sample.static_env sol_then_btc)
     = [price_request (VStr "BTCUSDT"); price_request (VStr "SOLUSDT");
        ask_call Sample.static_env Sample.up sol_then_btc].
Proof.
  assert (C : ToString (field sol_then_btc "prompt") = inr "SOL or BTC?")
    by reflexivity.
  split; [exact C |]. split; [reflexivity |].
  exact (proj2 (proj2 (proj2 (proj2
           (ticker_extraction Sample.static_env Sample.up sol_then_btc _ C))))
           eq_refl).
Defined.

(** C4 fails as stated: in [SOL or BTC?] the prompt mentions SOL first,
    and the lookups are made for BTC, then SOL. *)
Lemma ticker_order_is_not_prompt_order :
  firstn 3 (in_prompt_order "SOL or BTC?") = ["SOL"; "BTC"]
  /\ map url (calls Sample.up (ask Sample.static_env sol_then_btc))
     = ["https://api.binance.com/api/v3/ticker/price?symbol=BTCUSDT";
        "https://api.binance.com/api/v3/ticker/price?symbol=SOLUSDT";
        "https://api.openai.com/v1/chat/completions"].
Proof. split; vm_compute; reflexivity. Qed.

(** With more than three matches, the three symbols looked up are the
    first of the allow-list, not the first of the prompt. *)
Example ticker_cap_follows_allow_list :
  firstn 3 (matches "DOGE, TON, SUI or BTC?") = ["BTC"; "SUI"; "TON"]
  /\ firstn 3 (in_prompt_order "DOGE, TON, SUI or BTC?") = ["DOGE"; "TON"; "SUI"].
Proof. split; vm_compute; reflexivity. Qed.

Example ticker_inside_token : matches "btcx and a_BTC, ETHUSD" = [].
Proof. vm_compute. reflexivity. Qed.

(** An accented letter is not a word character: OP is a whole word of
    [opéra]. *)
Example ticker_before_accent : matches "opéra" = ["OP"].
Proof. vm_compute. reflexivity. Qed.

(** A prompt that does not convert to a string, here an object with a
    member [toString], makes the scan throw: the handler answers 500
    and makes no call. *)
Example ticker_scan_throws :
  run Sample.up (ask Sample.static_env (Sample.json "{'prompt':{'toString':'BTC'}}"))
  = (inr {| code := 500;
            content :=
              VObj [("error", VStr "Server error");
                    ("detail",
                     VStr "TypeError: Cannot convert object to primitive value")] |},
     []).
Proof. vm_compute. reflexivity. Qed.

(** ** C8: the static bank *)

(** *** Rounding in [SFmul], in arithmetic terms *)

Lemma iter_pos_nat {X : Type} (f : X -> X) (p : positive) :
  forall x, iter_pos f p x = Nat.iter (Pos.to_nat p) f x.
Proof.
  induction p as [p IH | p IH |]; intros x; cbn [iter_pos].
  - rewrite !IH, Pos2Nat.inj_xI.
    replace (S (2 * Pos.to_nat p))%nat with (Pos.to_nat p + Pos.to_nat p + 1)%nat by lia.
    now rewrite !Nat.iter_add.
  - rewrite !IH, Pos2Nat.inj_xO.
    replace (2 * Pos.to_nat p)%nat with (Pos.to_nat p + Pos.to_nat p)%nat by lia.
    now rewrite Nat.iter_add.
  - reflexivity.
Qed.

Lemma shr_1_spec (q : Z) (r s : bool) :
  0 <= q ->
  shr_1 {| shr_m := q; shr_r := r; shr_s := s |}
  = {| shr_m := q / 2; shr_r := Z.odd q; shr_s := r || s |}.
Proof.
  intros Q. rewrite <- Z.div2_div.
  destruct q as [| [p | p |] | p]; try lia; reflexivity.
Qed.

Lemma located_step (m k : Z) (rec : shr_record) :
  0 <= m -> 0 <= k -> located m k rec -> located m (k + 1) (shr_1 rec).
Proof.
  intros M K (Hq & Hr & Hs). destruct rec as [q r s]. cbn [shr_m shr_r shr_s] in *.
  assert (T : 0 < 2 ^ k) by (apply Z.pow_pos_nonneg; lia).
  rewrite shr_1_spec by (subst q; apply Z.div_pos; lia).
  unfold located. cbn [shr_m shr_r shr_s].
  rewrite Z.pow_add_r, Z.pow_1_r by lia.
  rewrite (Z.rem_mul_r m (2 ^ k) 2) by lia.
  rewrite <- (Z.div_div m (2 ^ k) 2) by lia.
  pose proof (Z.mod_pos_bound m (2 ^ k) T) as B.
  pose proof (Zmod_odd (m / 2 ^ k)) as O.
  subst q r s. 
  destruct (Z.odd (m / 2 ^ k)); rewrite O; repeat split;
    repeat match goal with
           | |- context [?a <=? ?b] => destruct (Z.leb_spec a b)
           | |- context [?a =? ?b] => destruct (Z.eqb_spec a b)
           end; cbn; try reflexivity; try lia.
Qed.

Lemma located_iter (m : Z) (n : nat) :
  0 <= m ->
  located m (Z.of_nat n)
    (Nat.iter n shr_1 {| shr_m := m; shr_r := false; shr_s := false |}).
Proof.
  intros M. induction n as [| n IH].
  - unfold located. cbn. rewrite Z.div_1_r, Z.mod_1_r. now repeat split.
  - rewrite Nat2Z.inj_succ, <- Z.add_1_r. cbn [Nat.iter].
    apply located_step; [exact M | lia | exact IH].
Qed.

(** Rounding to nearest after a shift by [k] bits: the mantissa kept is
    within half a unit of the exact quotient. *)
Lemma nearest_of_located (m k : Z) (rec : shr_record) :
  0 <= m -> 0 <= k -> located m k rec ->
  let m1 := round_nearest_even (shr_m rec) (loc_of_shr_record rec) in
  m / 2 ^ k <= m1 <= m / 2 ^ k + 1
  /\ 2 * 2 ^ k * m1 <= 2 * m + 2 ^ k
  /\ 2 * m <= 2 * 2 ^ k * m1 + 2 ^ k.
Proof.
  intros M K (Hq & Hr & Hs) m1. subst m1.
  destruct rec as [q r s]. cbn [shr_m shr_r shr_s] in *.
  assert (T : 0 < 2 ^ k) by (apply Z.pow_pos_nonneg; lia).
  pose proof (Z.mod_pos_bound m (2 ^ k) T) as B.
  pose proof (Z.div_mod m (2 ^ k) ltac:(lia)) as D.
  rewrite <- Hq in *.
  revert Hr Hs.
  destruct (Z.leb_spec (2 ^ k) (2 * (m mod 2 ^ k)));
    destruct (Z.eqb_spec (m mod 2 ^ k) 0);
    destruct (Z.eqb_spec (2 * (m mod 2 ^ k)) (2 ^ k));
    cbn [negb andb]; intros -> ->;
    cbn [loc_of_shr_record round_nearest_even]; try destruct (Z.even q);
    remember (2 ^ k) as t; remember (m mod t) as rho;
    assert (E1 : 2 * t * q = 2 * (t * q)) by ring;
    assert (E2 : 2 * t * (q + 1) = 2 * (t * q) + 2 * t) by ring;
    rewrite ?E1, ?E2; lia.
Qed.

Lemma digits_bounds (p : positive) :
  2 ^ (Zpos (digits2_pos p) - 1) <= Zpos p < 2 ^ Zpos (digits2_pos p).
Proof.
  induction p as [p IH | p IH |]; cbn [digits2_pos].
  - rewrite Pos2Z.inj_succ.
    replace (Z.succ (Zpos (digits2_pos p)) - 1) with (Zpos (digits2_pos p) - 1 + 1) by lia.
    rewrite Z.pow_succ_r, Z.pow_add_r, Z.pow_1_r by lia. lia.
  - rewrite Pos2Z.inj_succ.
    replace (Z.succ (Zpos (digits2_pos p)) - 1) with (Zpos (digits2_pos p) - 1 + 1) by lia.
    rewrite Z.pow_succ_r, Z.pow_add_r, Z.pow_1_r by lia. lia.
  - cbn. lia.
Qed.

Lemma round_aux_shift (p : positive) (E : Z) (k : positive) :
  fexp Num.prec Num.emax (Zpos (digits2_pos p) + E) - E = Zpos k ->
  E + Zpos k < -1 ->
  exists m1,
    2 * 2 ^ Zpos k * m1 <= 2 * Zpos p + 2 ^ Zpos k
    /\ 2 * Zpos p <= 2 * 2 ^ Zpos k * m1 + 2 ^ Zpos k
    /\ Num.floor (binary_round_aux Num.prec Num.emax false (Zpos p) E loc_Exact)
       = Num.of_Z (m1 / 2 ^ (- (E + Zpos k))).
Proof.
  intros N Neg.
  unfold binary_round_aux, shr_fexp. cbn [Zdigits2 shr_record_of_loc].
  rewrite N. cbn [shr]. rewrite iter_pos_nat.
  pose proof (located_iter (Zpos p) (Pos.to_nat k) ltac:(lia)) as L.
  rewrite positive_nat_Z in L.
  set (rec := Nat.iter (Pos.to_nat k) shr_1 _) in *.
  pose proof (nearest_of_located (Zpos p) (Zpos k) rec ltac:(lia) ltac:(lia) L) as (Q & U & V).
  set (m1 := round_nearest_even (shr_m rec) (loc_of_shr_record rec)) in *.
  exists m1. split; [exact U |]. split; [exact V |].
  set (e1 := E + Zpos k) in *.
  pose proof (digits_bounds p) as D.
  set (d := Zpos (digits2_pos p)) in *.
  assert (F : fexp Num.prec Num.emax (d + E) = e1) by (unfold e1; lia).
  unfold fexp, emin, Num.prec, Num.emax in F.
  assert (K53 : d - 53 <= Zpos k) by lia.
  assert (E1 : -1074 <= e1) by lia.
  assert (T : 0 < 2 ^ Zpos k) by (apply Z.pow_pos_nonneg; lia).
  assert (Qb : Zpos p / 2 ^ Zpos k < 2 ^ 53).
  { apply Z.div_lt_upper_bound; [exact T |].
    apply Z.lt_le_trans with (2 ^ d); [lia |].
    rewrite <- Z.pow_add_r by lia. apply Z.pow_le_mono_r; lia. }
  assert (M0 : 0 <= m1) by (pose proof (Z.div_pos (Zpos p) (2 ^ Zpos k)); lia).
  assert (M1 : m1 <= 2 ^ 53) by lia.
  destruct m1 as [| q | q] eqn:Em1; [| | lia].
  - cbn [Zdigits2]. unfold fexp, emin, Num.prec, Num.emax.
    assert (S0 : Z.max (0 + e1 - 53) (3 - 1024 - 53) - e1 <= 0) by lia.
    destruct (Z.max (0 + e1 - 53) (3 - 1024 - 53) - e1) as [| s | s] eqn:Es;
      [| lia |]; reflexivity.
  - cbn [Zdigits2].
    pose proof (digits_bounds q) as Dq.
    set (dq := Zpos (digits2_pos q)) in *.
    assert (Dq54 : dq <= 54).
    { destruct (Z.le_gt_cases dq 54) as [|G]; [assumption |].
      assert (2 ^ 54 <= 2 ^ (dq - 1)) by (apply Z.pow_le_mono_r; lia). lia. }
    unfold fexp, emin, Num.prec, Num.emax.
    destruct (Z.eq_dec dq 54) as [E54 | N54].
    + assert (Zpos q = 2 ^ 53).
      { rewrite E54 in Dq. change (54 - 1) with 53 in Dq. lia. }
      replace (Z.max (dq + e1 - 53) (3 - 1024 - 53) - e1) with 1 by lia.
      assert (q = 9007199254740992%positive) by lia. subst q.
      cbn [shr iter_pos shr_1 shr_m].
      replace (e1 + 1 <=? 1024 - 53) with true by (symmetry; apply Z.leb_le; lia).
      unfold Num.floor.
      replace (0 <=? e1 + 1) with false by (symmetry; apply Z.leb_gt; lia).
      f_equal.
      replace (- e1) with (1 + (- (e1 + 1))) by lia.
      rewrite Z.pow_add_r by lia.
      change (Z.pos 9007199254740992) with (2 ^ 1 * Z.pos 4503599627370496).
      rewrite Z.div_mul_cancel_l; [reflexivity | | lia].
      apply Z.pow_nonzero; lia.
    + assert (S0 : Z.max (dq + e1 - 53) (3 - 1024 - 53) - e1 <= 0) by lia.
      destruct (Z.max (dq + e1 - 53) (3 - 1024 - 53) - e1) as [| s | s] eqn:Es; [| lia |].
      * cbn [shr shr_m].
        replace (e1 <=? 1024 - 53) with true by (symmetry; apply Z.leb_le; lia).
        unfold Num.floor.
        replace (0 <=? e1) with false by (symmetry; apply Z.leb_gt; lia).
        reflexivity.
      * cbn [shr shr_m].
        replace (e1 <=? 1024 - 53) with true by (symmetry; apply Z.leb_le; lia).
        unfold Num.floor.
        replace (0 <=? e1) with false by (symmetry; apply Z.leb_gt; lia).
        reflexivity.
Qed.

Lemma canonical_cases (m : positive) (e : Z) :
  bounded Num.prec Num.emax m e = true ->
  let dm := Zpos (digits2_pos m) in
  (dm = 53 /\ -1074 <= e) \/ (dm < 53 /\ e = -1074).
Proof.
  unfold bounded, canonical_mantissa, fexp, emin, Num.prec, Num.emax.
  intros B. apply andb_true_iff in B as [C _]. apply Z.eqb_eq in C. lia.
Qed.

Lemma pow2_lt_inv (a b : Z) : 0 <= b -> 2 ^ a < 2 ^ b -> a < b.
Proof.
  intros B H. destruct (Z.lt_ge_cases a b) as [| G]; [assumption |].
  apply (Z.pow_le_mono_r 2) in G; lia.
Qed.

(** Replaces the powers of two with closed exponents by their values. *)
Ltac pow2_consts :=
  repeat match goal with
         | |- context [2 ^ ?n] =>
             let v := eval vm_compute in (2 ^ n) in progress change (2 ^ n) with v
         | H : context [2 ^ ?n] |- _ =>
             let v := eval vm_compute in (2 ^ n) in progress change (2 ^ n) with v in H
         end.

Ltac eval_rhs :=
  match goal with
  | |- _ = ?r => let v := eval vm_compute in r in change r with v
  end.

Ltac by_quotient :=
  match goal with
  | |- ?a / ?b = ?q =>
      symmetry; apply (Z.div_unique_pos a b q (a - b * q)); lia
  end.

(** Away from the two thresholds, rounding to nearest leaves the product
    on its side of the integer. *)
Lemma bank_index_away (m : positive) (e : Z) :
  bounded Num.prec Num.emax m e = true ->
  e < -52 ->
  Zpos m <> third_mantissa \/ (e <> -54 /\ e <> -53) ->
  bank_index (S754_finite false m e) = Num.of_Z (slot (Zpos m) e).
Proof.
  intros B E52 NT.
  pose proof (canonical_cases m e B) as C. cbv zeta in C.
  pose proof (digits_bounds m) as Dm.
  set (dm := Zpos (digits2_pos m)) in *.
  unfold bank_index, Num.mul.
  change (Num.of_Z (Z.of_nat (List.length bank)))
    with (S754_finite false 6755399441055744 (-51)).
  cbn [SFmul xorb].
  pose proof (digits_bounds (m * 6755399441055744)) as D.
  set (p := (m * 6755399441055744)%positive) in *.
  set (d := Zpos (digits2_pos p)) in *.
  assert (P : Zpos p = Zpos m * (3 * 2 ^ 51)) by (unfold p; rewrite Pos2Z.inj_mul; reflexivity).
  assert (Pm : 2 ^ (dm - 1) * (3 * 2 ^ 51) <= Zpos p < 2 ^ dm * (3 * 2 ^ 51)) by nia.
  assert (Pl : 2 ^ (dm + 51) <= Zpos p).
  { replace (dm + 51) with (dm - 1 + 52) by lia. rewrite Z.pow_add_r by lia. lia. }
  assert (Pu : Zpos p < 2 ^ (dm + 53)).
  { rewrite Z.pow_add_r by lia. change (2 ^ 53) with (4 * 2 ^ 51) in *. lia. }
  assert (Dl : dm + 51 < d) by (apply pow2_lt_inv; lia).
  assert (Du : d - 1 < dm + 53) by (apply pow2_lt_inv; lia).
  assert (N : 51 <= fexp Num.prec Num.emax (d + (e + -51)) - (e + -51) <= 53
              /\ d - 53 <= fexp Num.prec Num.emax (d + (e + -51)) - (e + -51))
    by (unfold fexp, emin, Num.prec, Num.emax; lia).
  destruct (fexp Num.prec Num.emax (d + (e + -51)) - (e + -51)) as [| k | k] eqn:Ek;
    [lia | | lia].
  destruct (round_aux_shift p (e + -51) k Ek ltac:(lia)) as (m1 & U & V & ->).
  f_equal.
  assert (Kc : Zpos k = 51 \/ Zpos k = 52 \/ Zpos k = 53) by lia.
  assert (M0 : 0 <= m1) by (assert (0 < 2 ^ Zpos k) by (apply Z.pow_pos_nonneg; lia); nia).
  unfold slot, third_mantissa.
  destruct (Z.ltb_spec e (-54)) as [L54 | G54]; cbn [orb].
  - (* below 1/4: the product stays below 1 *)
    apply Z.div_small. split; [exact M0 |].
    assert (Mb : Zpos m < 2 ^ 53).
    { apply Z.lt_le_trans with (2 ^ dm); [lia |]. apply Z.pow_le_mono_r; lia. }
    assert (2 ^ (106 - Zpos k) <= 2 ^ (- (e + -51 + Zpos k)))
      by (apply Z.pow_le_mono_r; lia).
    destruct Kc as [K | [K | K]]; rewrite K in *;
      change (2 ^ 51) with 2251799813685248 in *;
      change (2 ^ 52) with 4503599627370496 in *;
      change (2 ^ 53) with 9007199254740992 in *;
      cbn in H; lia.
  - assert (Nm : dm = 53) by lia.
    rewrite Nm in Dm. change (2 ^ (53 - 1)) with 4503599627370496 in Dm.
    change (2 ^ 53) with 9007199254740992 in Dm.
    change (2 ^ 51) with 2251799813685248 in P.
    assert (Ec : e = -54 \/ e = -53) by lia.
    assert (Dc : d = 105 \/ d = 106) by lia.
    destruct (Z.lt_trichotomy (Zpos m) 6004799503160661) as [Lt | [Eq | Gt]].
    + (* below the threshold *)
      destruct Ec as [-> | ->];
        (replace (Z.pos m <? 6004799503160661) with true by (symmetry; apply Z.ltb_lt; lia));
        destruct Kc as [K | [K | K]]; rewrite K in *; try lia;
        clear - U V M0 P Dm Lt; pow2_consts; eval_rhs; by_quotient.
    + unfold third_mantissa in NT. lia.
    + (* above the threshold *)
      destruct Ec as [-> | ->];
        (replace (Z.pos m <? 6004799503160661) with false by (symmetry; apply Z.ltb_ge; lia));
        destruct Kc as [K | [K | K]]; rewrite K in *; try lia;
        clear - U V M0 P Dm Gt; pow2_consts; eval_rhs; by_quotient.
Qed.

Lemma bank_index_finite (m : positive) (e : Z) :
  bounded Num.prec Num.emax m e = true ->
  e < -52 ->
  bank_index (S754_finite false m e) = Num.of_Z (slot (Zpos m) e).
Proof.
  intros B E52.
  destruct (Pos.eq_dec m 6004799503160661) as [-> | Nm].
  - destruct (Z.eq_dec e (-54)) as [-> | N54]; [vm_compute; reflexivity |].
    destruct (Z.eq_dec e (-53)) as [-> | N53]; [vm_compute; reflexivity |].
    apply bank_index_away; trivial. now right.
  - apply bank_index_away; trivial. left. unfold third_mantissa. congruence.
Qed.

(** *** The draw and the item it selects *)

Lemma ltb_finite (m : positive) (e : Z) (t : positive) (x : Z) :
  SFltb (S754_finite false m e) (S754_finite false t x)
  = (e <? x) || ((e =? x) && (Zpos m <? Zpos t)).
Proof.
  unfold SFltb, SFcompare.
  destruct (Z.compare_spec e x) as [-> | L | G].
  - rewrite Z.ltb_irrefl, Z.eqb_refl. cbn [orb andb]. unfold Z.ltb.
    change (Zpos m ?= Zpos t) with (Pos.compare_cont Eq m t).
    now destruct (Pos.compare_cont Eq m t).
  - now rewrite (proj2 (Z.ltb_lt e x) L).
  - rewrite (proj2 (Z.ltb_ge e x)) by lia.
    rewrite (proj2 (Z.eqb_neq e x)) by lia. reflexivity.
Qed.

Lemma slot_selected (m : positive) (e : Z) :
  slot (Zpos m) e = Z.of_nat (selected (S754_finite false m e)).
Proof.
  unfold slot, selected.
  change third with (S754_finite false 6004799503160661 (-54)).
  change two_thirds with (S754_finite false 6004799503160661 (-53)).
  rewrite !ltb_finite. unfold third_mantissa.
  destruct ((e <? -54) || (e =? -54) && (Z.pos m <? 6004799503160661));
    [reflexivity |].
  now destruct ((e <? -53) || (e =? -53) && (Z.pos m <? 6004799503160661)).
Qed.

(** The index computed from a draw is the number of the item selected. *)
Lemma bank_index_selected (u : number) :
  unit_draw u -> bank_index u = Num.of_Z (Z.of_nat (selected u)).
Proof.
  intros (V & S & L). destruct u as [s | s | | s m e]; cbn in S; subst;
    try discriminate L.
  - reflexivity.
  - rewrite <- slot_selected. apply bank_index_finite; [exact V |].
    change one with (S754_finite false 4503599627370496 (-52)) in L.
    rewrite ltb_finite in L.
    pose proof (canonical_cases m e V) as C. cbv zeta in C.
    pose proof (digits_bounds m) as D.
    apply orb_true_iff in L as [L | L]; [now apply Z.ltb_lt |].
    apply andb_true_iff in L as [L1 L2].
    apply Z.eqb_eq in L1. apply Z.ltb_lt in L2. subst e.
    assert (Zpos (digits2_pos m) = 53) by lia.
    rewrite H in D. change (2 ^ (53 - 1)) with 4503599627370496 in D. lia.
Qed.

Lemma selected_bound (u : number) : (selected u < 3)%nat.
Proof. unfold selected. destruct (SFltb u third), (SFltb u two_thirds); lia. Qed.

(** The thresholds are [T * 2 ^ -54] and [T * 2 ^ -53] with
    [3 * T = 2 ^ 54 - 1]: in units of [2 ^ -54], the three portions of
    the range measure [T], [T] and [T + 1]. *)
Lemma portions :
  third = S754_finite false 6004799503160661 (-54)
  /\ two_thirds = S754_finite false 6004799503160661 (-53)
  /\ one = S754_finite false 4503599627370496 (-52)
  /\ 3 * third_mantissa = 2 ^ 54 - 1.
Proof. repeat split. Qed.

(** C8, as the code has it. In static mode, for a rating that
    [Number] can convert and for every draw of the randomness source
    (every binary64 number from +0 up to, not including, 1), GET
    /api/tradegpt/quiz makes no call and answers with status 200 and an
    item of the fixed bank of three: item 0 for the draws below the
    number nearest to 1/3, item 1 from there up to the number nearest
    to 2/3, item 2 from there on. The three portions of the range are
    thirds up to rounding, not portions of equal measure: in units of
    [2 ^ -54], of which the range has [2 ^ 54], they measure [T], [T]
    and [T + 1] with [3 * T + 1 = 2 ^ 54]. *)
Theorem quiz_static_uniform (E : Env) (w : World) (param : value) (n : number) :
  llm_mode E = false ->
  elo param = inr n ->
  unit_draw (draw w) ->
  exists i : nat,
    run w (quiz E param)
    = (inr {| code := 200; content := nth i bank VUndefined |}, [])
    /\ (i < List.length bank)%nat
    /\ List.length bank = 3%nat
    /\ (i = 0%nat <-> SFltb (draw w) (Num.of_ratio false 1 3) = true)
    /\ (i = 2%nat <-> SFltb (draw w) (Num.of_ratio false 2 3) = false)
    /\ portion 0 = portion 1
    /\ portion 2 = portion 0 + 1
    /\ portion 0 + portion 1 + portion 2 = 2 ^ 54.
Proof.
  intros M R U. exists (selected (draw w)).
  pose proof (selected_bound (draw w)) as B.
  split; [| split; [exact B | split; [reflexivity |]]].
  - rewrite (quiz_static_run E w param n R M). unfold picked.
    rewrite (bank_index_selected _ U).
    destruct (selected (draw w)) as [| [| [| k]]]; [reflexivity .. | lia].
  - assert (L : SFltb (draw w) third = true -> SFltb (draw w) two_thirds = true).
    { destruct U as (V & S & _).
      destruct (draw w) as [s | s | | s m e]; cbn in S; subst; try discriminate;
        [reflexivity |].
      change third with (S754_finite false 6004799503160661 (-54)).
      change two_thirds with (S754_finite false 6004799503160661 (-53)).
      rewrite !ltb_finite, !orb_true_iff, !andb_true_iff, !Z.ltb_lt, !Z.eqb_eq.
      lia. }
    fold third two_thirds. unfold selected.
    destruct (SFltb (draw w) third) eqn:A.
    + rewrite (L eq_refl). repeat split; try reflexivity; discriminate.
    + destruct (SFltb (draw w) two_thirds); repeat split; try reflexivity;
        discriminate.
Qed.

Lemma quiz_static_uniform_witness :
  llm_mode Sample.static_env = false
  /\ elo VUndefined = inr (Num.of_Z 1200)
  /\ unit_draw (draw drawing_high)
  /\ exists i : nat,
      run drawing_high (quiz Sample.static_env VUndefined)
      = (inr {| code := 200; content := nth i bank VUndefined |}, [])
      /\ (i < List.length bank)%nat
      /\ List.length bank = 3%nat
      /\ (i = 0%nat <-> SFltb (draw drawing_high) (Num.of_ratio false 1 3) = true)
      /\ (i = 2%nat <-> SFltb (draw drawing_high) (Num.of_ratio false 2 3) = false)
      /\ portion 0 = portion 1
      /\ portion 2 = portion 0 + 1
      /\ portion 0 + portion 1 + portion 2 = 2 ^ 54.
Proof.
  assert (M : llm_mode Sample.static_env = false) by reflexivity.
  assert (R : elo VUndefined = inr (Num.of_Z 1200)) by reflexivity.
  assert (U : unit_draw (draw drawing_high)) by (repeat split).
  split; [exact M |]. split; [exact R |]. split; [exact U |].
  exact (quiz_static_uniform Sample.static_env drawing_high VUndefined _ M R U).
Defined.

(** C8 fails as stated: the three portions are not of equal measure.
    The draw just below the number nearest to 1/3 selects item 0 and
    that number selects item 1; the draw just below the number nearest
    to 2/3 selects item 1 and that number selects item 2; so the
    portions measure [T], [T] and [T + 1] units of [2 ^ -54]. *)
Lemma quiz_static_unequal_portions :
  result (drawing (S754_finite false 6004799503160660 (-54)))
    (quiz Sample.static_env VUndefined)
  = inr {| code := 200; content := nth 0 bank VUndefined |}
  /\ result (drawing third) (quiz Sample.static_env VUndefined)
     = inr {| code := 200; content := nth 1 bank VUndefined |}
  /\ result (drawing (S754_finite false 6004799503160660 (-53)))
       (quiz Sample.static_env VUndefined)
     = inr {| code := 200; content := nth 1 bank VUndefined |}
  /\ result (drawing two_thirds) (quiz Sample.static_env VUndefined)
     = inr {| code := 200; content := nth 2 bank VUndefined |}
  /\ portion 0 = 6004799503160661
  /\ portion 1 = 6004799503160661
  /\ portion 2 = 6004799503160662
  /\ portion 2 <> portion 0.
Proof. repeat split; try (vm_compute; reflexivity). vm_compute. discriminate. Qed.

(** * Further properties *)

(** ** Splitting and trimming *)

Lemma chars_text (l : list ascii) : chars (text l) = l.
Proof. apply list_ascii_of_string_of_list_ascii. Qed.

Lemma text_chars (s : string) : text (chars s) = s.
Proof. apply string_of_list_ascii_of_string. Qed.

Lemma chars_append (a b : string) : chars (a ++ b) = (chars a ++ chars b)%list.
Proof.
  unfold chars. induction a as [| c a IH]; cbn; [reflexivity | now rewrite IH].
Qed.

Lemma split_piece (sep : ascii) (x rest : list ascii) :
  ~ In sep x -> split sep (x ++ sep :: rest) = x :: split sep rest.
Proof.
  induction x as [| c x IH]; intros N; cbn [app split].
  - now rewrite Ascii.eqb_refl.
  - destruct (Ascii.eqb_spec c sep) as [-> | _]; [exfalso; apply N; now left |].
    rewrite IH; [reflexivity |]. intros I. apply N. now right.
Qed.

Lemma split_single (sep : ascii) (x : list ascii) : ~ In sep x -> split sep x = [x].
Proof.
  induction x as [| c x IH]; intros N; cbn [split]; [reflexivity |].
  destruct (Ascii.eqb_spec c sep) as [-> | _]; [exfalso; apply N; now left |].
  rewrite IH; [reflexivity |]. intros I. apply N. now right.
Qed.

Lemma split_pieces (sep : ascii) (l : list ascii) :
  forall piece, In piece (split sep l) -> ~ In sep piece.
Proof.
  induction l as [| c l IH]; cbn [split]; intros piece I.
  - destruct I as [<- | []]. intros [].
  - destruct (Ascii.eqb_spec c sep) as [-> | N].
    + destruct I as [<- | I]; [intros [] | now apply IH].
    + destruct (split sep l) as [| x xs].
      * destruct I as [<- | []]. intros [E | []]. congruence.
      * destruct I as [<- | I].
        -- intros [E | J]; [congruence |]. apply (IH x); [now left | exact J].
        -- apply IH. now right.
Qed.

Lemma strip_prefix_split (p : list Z) :
  forall l r, Num.strip_prefix p l = Some r ->
    exists pre, l = (pre ++ r)%list /\ List.length pre = List.length p.
Proof.
  induction p as [| z p IH]; intros l r; cbn [Num.strip_prefix].
  - intros [= <-]. now exists [].
  - destruct l as [| c l]; [discriminate |].
    destruct (Char.code c =? z); [| discriminate].
    intros H. apply IH in H as (pre & -> & L).
    exists (c :: pre). cbn. now rewrite L.
Qed.

Lemma strip_prefix_app (p : list Z) :
  forall a b r, Num.strip_prefix p a = Some r ->
    Num.strip_prefix p (a ++ b) = Some (r ++ b)%list.
Proof.
  induction p as [| z p IH]; intros a b r; cbn [Num.strip_prefix].
  - now intros [= <-].
  - destruct a as [| c a]; [discriminate |]. cbn [app].
    destruct (Char.code c =? z); [apply IH | discriminate].
Qed.

Lemma strip_one_split (seqs : list (list Z)) (l r : list ascii) :
  Forall (fun p => p <> []) seqs ->
  Num.strip_one seqs l = Some r ->
  exists pre, l = (pre ++ r)%list /\ pre <> [].
Proof.
  induction 1 as [| p ps Np _ IH]; cbn [Num.strip_one]; [discriminate |].
  destruct (Num.strip_prefix p l) as [r' |] eqn:S; [| exact IH].
  intros [= <-]. apply strip_prefix_split in S as (pre & -> & L).
  exists pre. split; [reflexivity |]. intros ->. destruct p; [contradiction | discriminate].
Qed.

Lemma strip_one_app_none (seqs : list (list Z)) (a b : list ascii) :
  Num.strip_one seqs (a ++ b) = None -> Num.strip_one seqs a = None.
Proof.
  induction seqs as [| p ps IH]; cbn [Num.strip_one]; [reflexivity |].
  destruct (Num.strip_prefix p a) as [r |] eqn:S.
  - now rewrite (strip_prefix_app p a b r S).
  - destruct (Num.strip_prefix p (a ++ b)); [discriminate | exact IH].
Qed.

Lemma strip_from_split (seqs : list (list Z)) (fuel : nat) :
  Forall (fun p => p <> []) seqs ->
  forall l, exists pre, l = (pre ++ Num.strip_from fuel seqs l)%list.
Proof.
  intros N. induction fuel as [| f IH]; intros l; cbn [Num.strip_from]; [now exists [] |].
  destruct (Num.strip_one seqs l) as [r |] eqn:S; [| now exists []].
  apply strip_one_split in S as (pre & -> & _); [| exact N].
  destruct (IH r) as (pre' & E). exists (pre ++ pre')%list.
  rewrite <- app_assoc. now rewrite <- E.
Qed.

Lemma strip_from_done (seqs : list (list Z)) (fuel : nat) :
  Forall (fun p => p <> []) seqs ->
  forall l, (List.length l <= fuel)%nat ->
    Num.strip_one seqs (Num.strip_from fuel seqs l) = None.
Proof.
  intros N. induction fuel as [| f IH]; intros l L; cbn [Num.strip_from].
  - destruct l; [| cbn in L; lia].
    destruct (Num.strip_one seqs []) as [r |] eqn:S; [| reflexivity].
    apply strip_one_split in S as (pre & E & M); [| exact N].
    symmetry in E. apply app_eq_nil in E as [-> _]. contradiction.
  - destruct (Num.strip_one seqs l) as [r |] eqn:S; [| exact S].
    apply IH. apply strip_one_split in S as (pre & -> & M); [| exact N].
    rewrite length_app in L. destruct pre; [contradiction | cbn in L; lia].
Qed.

Lemma strip_from_fixed (seqs : list (list Z)) (fuel : nat) (l : list ascii) :
  Num.strip_one seqs l = None -> Num.strip_from fuel seqs l = l.
Proof. destruct fuel; cbn [Num.strip_from]; [reflexivity |]. now intros ->. Qed.

Lemma white_space_nonempty : Forall (fun p : list Z => p <> []) Num.white_space.
Proof. unfold Num.white_space. repeat constructor; discriminate. Qed.

Lemma rev_white_space_nonempty :
  Forall (fun p : list Z => p <> []) (map (@rev Z) Num.white_space).
Proof. unfold Num.white_space. cbn. repeat constructor; discriminate. Qed.

(** [trim] keeps a middle part of the text, with clean ends. *)
Lemma trim_spec (l : list ascii) :
  trimmed (Num.trim l)
  /\ exists pre post, l = (pre ++ Num.trim l ++ post)%list.
Proof.
  unfold Num.trim, Num.strip_leading.
  set (rws := map (@rev Z) Num.white_space). set (ws := Num.white_space).
  set (l1 := Num.strip_from (List.length l) ws l).
  set (l2 := Num.strip_from (List.length (rev l1)) rws (rev l1)).
  assert (S1 : Num.strip_one ws l1 = None)
    by (apply strip_from_done; [apply white_space_nonempty | apply le_n]).
  assert (S2 : Num.strip_one rws l2 = None)
    by (apply strip_from_done; [apply rev_white_space_nonempty | apply le_n]).
  destruct (strip_from_split ws (List.length l) white_space_nonempty l) as (pre & E1).
  destruct (strip_from_split rws (List.length (rev l1)) rev_white_space_nonempty (rev l1))
    as (post & E2).
  fold l1 in E1. fold l2 in E2.
  assert (E3 : l1 = (rev l2 ++ rev post)%list).
  { rewrite <- rev_app_distr, <- E2. now rewrite rev_involutive. }
  split.
  - split.
    + apply (strip_one_app_none ws (rev l2) (rev post)). now rewrite <- E3.
    + now rewrite rev_involutive.
  - exists pre, (rev post). rewrite <- E3. exact E1.
Qed.

Lemma trim_fixed (l : list ascii) : trimmed l -> Num.trim l = l.
Proof.
  intros [A B]. unfold Num.trim, Num.strip_leading.
  rewrite (strip_from_fixed _ _ _ A), (strip_from_fixed _ _ _ B).
  apply rev_involutive.
Qed.

Lemma strip_spaces (fuel : nat) :
  forall l, Forall (fun c => c = " "%char) l -> (List.length l <= fuel)%nat ->
    Num.strip_from fuel Num.white_space l = [].
Proof.
  induction fuel as [| f IH]; intros l F L.
  - destruct l; [reflexivity | cbn in L; lia].
  - destruct l as [| c l]; [reflexivity |].
    inversion F as [| ? ? -> F']; subst.
    change (Num.strip_from (S f) Num.white_space (" "%char :: l))
      with (Num.strip_from f Num.white_space l).
    apply IH; [exact F' | cbn in L; lia].
Qed.

Lemma trim_spaces (l : list ascii) : Forall (fun c => c = " "%char) l -> Num.trim l = [].
Proof.
  intros F. unfold Num.trim, Num.strip_leading.
  now rewrite (strip_spaces _ l F (le_n _)).
Qed.

Lemma strip_prefix_pad (p : list Z) :
  Forall (fun z => z <> 32) p ->
  forall l b, Forall (fun c => c = " "%char) b ->
    Num.strip_prefix p l = None -> Num.strip_prefix p (l ++ b) = None.
Proof.
  induction 1 as [| z p N _ IH]; intros l b B; cbn [Num.strip_prefix]; [discriminate |].
  destruct l as [| c l]; cbn [app].
  - intros _. destruct B as [| c b -> _]; [reflexivity |].
    change (Char.code " "%char) with 32.
    now destruct (Z.eqb_spec 32 z) as [E | _]; [symmetry in E |].
  - destruct (Char.code c =? z); [now apply IH | reflexivity].
Qed.

Lemma strip_one_pad (seqs : list (list Z)) (l b : list ascii) :
  Forall (fun p => Forall (fun z => z <> 32) (tl p)) seqs ->
  l <> [] -> Forall (fun c => c = " "%char) b ->
  Num.strip_one seqs l = None -> Num.strip_one seqs (l ++ b) = None.
Proof.
  intros F N B. induction F as [| p ps Fp _ IH]; cbn [Num.strip_one]; [reflexivity |].
  destruct (Num.strip_prefix p l) as [r |] eqn:S; [discriminate |].
  intros H. rewrite (IH H).
  destruct p as [| z p]; [discriminate |].
  destruct l as [| c l]; [contradiction |].
  cbn [Num.strip_prefix app] in *.
  destruct (Char.code c =? z); [| reflexivity].
  now rewrite (strip_prefix_pad p Fp l b B S).
Qed.

Lemma strip_from_spaces (seqs : list (list Z)) (x : list ascii) :
  (forall y, Num.strip_one seqs (" "%char :: y) = Some y) ->
  forall sp fuel, Forall (fun c => c = " "%char) sp -> (List.length sp <= fuel)%nat ->
    Num.strip_from fuel seqs (sp ++ x) = Num.strip_from (fuel - List.length sp) seqs x.
Proof.
  intros H. induction sp as [| c sp IH]; intros fuel F L; cbn [app List.length].
  - now rewrite Nat.sub_0_r.
  - inversion F as [| ? ? -> F']; subst.
    destruct fuel as [| f]; [cbn in L; lia |].
    cbn [Num.strip_from]. rewrite H. cbn [Nat.sub].
    apply IH; [exact F' | cbn in L; lia].
Qed.

Lemma white_space_inner :
  Forall (fun p : list Z => Forall (fun z => z <> 32) (tl p)) Num.white_space.
Proof. unfold Num.white_space. repeat constructor; discriminate. Qed.

Lemma spaces_repeat (n : nat) : Forall (fun c => c = " "%char) (repeat " "%char n).
Proof. induction n; cbn [repeat]; now constructor. Qed.

(** Spaces around a text with clean ends are what [trim] removes. *)
Lemma trim_pad (l : list ascii) (a b : nat) :
  trimmed l -> l <> [] ->
  Num.trim (repeat " "%char a ++ l ++ repeat " "%char b) = l.
Proof.
  intros [A B] N. unfold Num.trim, Num.strip_leading.
  rewrite (strip_from_spaces Num.white_space _ (fun y => eq_refl) _ _ (spaces_repeat a))
    by (rewrite length_app; lia).
  rewrite (strip_from_fixed Num.white_space _ (l ++ repeat " "%char b))
    by (apply strip_one_pad;
        [apply white_space_inner | exact N | apply spaces_repeat | exact A]).
  rewrite rev_app_distr.
  rewrite (strip_from_spaces (map (@rev Z) Num.white_space) _ (fun y => eq_refl) _ _
             (Forall_rev (spaces_repeat b)))
    by (rewrite length_app; lia).
  rewrite (strip_from_fixed _ _ _ B). apply rev_involutive.
Qed.

(** ** The allow-list *)

Lemma configured (s : string) : env_or (Some s) "" = s.
Proof. now destruct s. Qed.

Lemma split_join (ps : list string) :
  ps <> [] -> Forall (fun p => ~ In ","%char (chars p)) ps ->
  split ","%char (chars (join "," ps)) = map chars ps.
Proof.
  intros N F. induction F as [| p ps Hp F IH]; [contradiction |].
  destruct ps as [| q ps].
  - cbn [join map]. now apply split_single.
  - change (join "," (p :: q :: ps)) with (p ++ "," ++ join "," (q :: ps)).
    rewrite chars_append.
    change (chars ("," ++ join "," (q :: ps)))
      with (","%char :: chars (join "," (q :: ps))).
    rewrite (split_piece _ _ _ Hp), IH; [reflexivity | discriminate].
Qed.

Lemma padded_plain (piece entry : string) :
  padded piece entry -> ~ In ","%char (chars entry) -> ~ In ","%char (chars piece).
Proof.
  intros (a & b & ->) N. rewrite !in_app_iff.
  intros [I | [I | I]]; [| contradiction |];
    apply repeat_spec in I; discriminate.
Qed.

Lemma trim_padded (piece entry : string) :
  entry_like entry -> padded piece entry -> trim (text (chars piece)) = entry.
Proof.
  intros (N & _ & T) (a & b & P). unfold trim.
  rewrite chars_text, P, trim_pad; [apply text_chars | exact T |].
  intros E. apply N. now rewrite <- (text_chars entry), E.
Qed.

Lemma allow_join (l : list string) :
  Forall entry_like l -> allow (Some (join "," l)) = l.
Proof.
  intros F. unfold allow. rewrite configured.
  assert (K : filter (fun s => ToBoolean (VStr s))
                (map (fun x => trim (text (chars x))) l) = l).
  { induction F as [| x xs (N & _ & T) F IH]; [reflexivity |].
    assert (R : trim (text (chars x)) = x)
      by (unfold trim; now rewrite chars_text, (trim_fixed _ T), text_chars).
    cbn [map filter]. rewrite R, IH.
    destruct x as [| c x]; [contradiction | reflexivity]. }
  destruct l as [| s l]; [reflexivity |].
  rewrite split_join; [now rewrite map_map | discriminate |].
  apply Forall_forall. intros x I.
  apply (proj1 (Forall_forall _ _) F x I).
Qed.

Lemma split_Forall (P : ascii -> Prop) (sep : ascii) (l : list ascii) :
  Forall P l -> Forall (Forall P) (split sep l).
Proof.
  induction 1 as [| c l Hc F IH]; cbn [split]; [repeat constructor |].
  destruct (Ascii.eqb c sep); [now constructor |].
  destruct (split sep l) as [| x xs]; [repeat constructor; assumption |].
  inversion IH; subst. constructor; [now constructor | assumption].
Qed.

Lemma allow_blank (s : string) : blank s -> allow (Some s) = [].
Proof.
  intros B. unfold allow. rewrite configured.
  pose proof (split_Forall _ ","%char _ B) as F.
  pose proof (split_pieces ","%char (chars s)) as N.
  induction (split ","%char (chars s)) as [| piece ps IH]; [reflexivity |].
  inversion F as [| ? ? Fp Fps]; subst. cbn [map filter].
  assert (S : Forall (fun c => c = " "%char) piece).
  { apply Forall_forall. intros c I.
    destruct (proj1 (Forall_forall _ _) Fp c I) as [-> | ->]; [| reflexivity].
    exfalso. apply (N piece); [now left | exact I]. }
  unfold trim at 1. rewrite chars_text, (trim_spaces _ S).
  cbn [text string_of_list_ascii ToBoolean String.eqb negb].
  apply IH; [exact Fps |]. intros q I. apply N. now right.
Qed.

Lemma existsb_eqb (s : string) (l : list string) :
  existsb (String.eqb s) l = true <-> In s l.
Proof.
  rewrite existsb_exists. split.
  - intros (x & I & E). apply String.eqb_eq in E. now subst.
  - intros I. exists s. split; [exact I | apply String.eqb_refl].
Qed.

Lemma entry_check_sound (s : string) : entry_check s = true -> entry_like s.
Proof.
  unfold entry_check. rewrite !andb_true_iff, !negb_true_iff.
  intros [[[N C] A] B]. repeat split.
  - intros ->. discriminate.
  - intros I. apply not_true_iff_false in C. apply C.
    apply existsb_exists. exists ","%char. split; [exact I | reflexivity].
  - now destruct (Num.strip_one Num.white_space (chars s)).
  - now destruct (Num.strip_one (map (@rev Z) Num.white_space) (rev (chars s))).
Qed.

Lemma piece_entry (piece : list ascii) :
  ~ In ","%char piece ->
  ToBoolean (VStr (trim (text piece))) = true ->
  entry_like (trim (text piece)).
Proof.
  intros I T. unfold trim in *. rewrite chars_text in *.
  destruct (trim_spec piece) as (C & pre & post & E).
  repeat split.
  - intros Z. now rewrite Z in T.
  - rewrite chars_text. intros J. apply I. rewrite E, !in_app_iff. tauto.
  - rewrite chars_text. apply C.
  - rewrite chars_text. apply C.
Qed.

(** X1. Every entry of the allow-list is a non-empty text without a
    comma and without white space at either end, whatever
    [ALLOW_ORIGIN] holds. *)
Theorem allow_entries_clean (ALLOW_ORIGIN : option string) (s : string) :
  In s (allow ALLOW_ORIGIN) -> entry_like s.
Proof.
  unfold allow. rewrite filter_In, in_map_iff.
  intros [(piece & <- & I) T].
  apply piece_entry; [| exact T].
  exact (split_pieces _ _ piece I).
Qed.

Lemma allow_entries_clean_witness :
  In "https://a.example" (allow (Some " https://a.example , ,http://localhost:3000"))
  /\ entry_like "https://a.example".
Proof.
  assert (I : In "https://a.example"
                (allow (Some " https://a.example , ,http://localhost:3000")))
    by (vm_compute; now left).
  split; [exact I |].
  exact (allow_entries_clean (Some " https://a.example , ,http://localhost:3000") _ I).
Defined.

(** X2. The allow-list is read back from its configuration: a text of
    entries joined with commas, each entry possibly with spaces around
    it, gives exactly those entries, in order. *)
Theorem allow_round_trip (pieces entries : list string) :
  Forall entry_like entries ->
  Forall2 padded pieces entries ->
  allow (Some (join "," pieces)) = entries.
Proof.
  intros F P. unfold allow. rewrite configured.
  destruct P as [| p s ps l Hp P]; [reflexivity |].
  assert (Q : Forall2 padded (p :: ps) (s :: l)) by now constructor.
  clear Hp P. rewrite split_join; [| discriminate |].
  - rewrite map_map.
    induction Q as [| p' s' ps' l' Hp Q IH]; [reflexivity |].
    inversion F as [| ? ? Fs Fl]; subst.
    cbn [map filter]. rewrite (trim_padded p' s' Fs Hp).
    destruct Fs as (N & _).
    destruct s' as [| c s']; [contradiction |].
    cbn [ToBoolean String.eqb negb]. f_equal. now apply IH.
  - induction Q as [| p' s' ps' l' Hp Q IH]; [constructor |].
    inversion F as [| ? ? Fs Fl]; subst.
    constructor; [| now apply IH].
    apply (padded_plain p' s' Hp). apply Fs.
Qed.

Lemma allow_round_trip_witness :
  Forall entry_like ["https://a.example"; "http://localhost:3000"]
  /\ Forall2 padded ["https://a.example "; "  http://localhost:3000"]
       ["https://a.example"; "http://localhost:3000"]
  /\ allow (Some "https://a.example ,  http://localhost:3000")
     = ["https://a.example"; "http://localhost:3000"].
Proof.
  assert (F : Forall entry_like ["https://a.example"; "http://localhost:3000"])
    by (repeat constructor; now apply entry_check_sound).
  assert (P : Forall2 padded ["https://a.example "; "  http://localhost:3000"]
                ["https://a.example"; "http://localhost:3000"]).
  { repeat constructor; [now exists 0%nat, 1%nat | now exists 2%nat, 0%nat]. }
  split; [exact F |]. split; [exact P |].
  exact (allow_round_trip _ _ F P).
Defined.

(** X3. The allow-list is stable: written back as a text, its entries
    joined with commas, and read again, it is the same list. Nothing of
    a configuration is lost or altered by a second reading. *)
Theorem allow_stable (ALLOW_ORIGIN : option string) :
  allow (Some (join "," (allow ALLOW_ORIGIN))) = allow ALLOW_ORIGIN.
Proof.
  apply allow_join. apply Forall_forall. intros s.
  unfold allow. rewrite filter_In, in_map_iff.
  intros [(piece & <- & I) T].
  apply piece_entry; [| exact T].
  exact (split_pieces _ _ piece I).
Qed.

(** X4. Without a configured allow-list every origin is let through: when
    [ALLOW_ORIGIN] is unset, empty, or holds commas and spaces only, the
    allow-list is empty and every origin is accepted. *)
Theorem cors_open_when_unconfigured (ALLOW_ORIGIN : option string) (origin : value) :
  ALLOW_ORIGIN = None \/ (exists s, ALLOW_ORIGIN = Some s /\ blank s) ->
  allow ALLOW_ORIGIN = []
  /\ origin_callback (allow ALLOW_ORIGIN) origin = inr true.
Proof.
  intros H.
  assert (A : allow ALLOW_ORIGIN = []).
  { destruct H as [-> | (s & -> & B)]; [reflexivity | now apply allow_blank]. }
  split; [exact A |]. rewrite A. unfold origin_callback.
  now destruct (ToBoolean origin).
Qed.

Lemma cors_open_when_unconfigured_witness :
  (Some " , ," = None \/ (exists s, Some " , ," = Some s /\ blank s))
  /\ allow (Some " , ,") = []
  /\ origin_callback (allow (Some " , ,")) (VStr "https://evil.example") = inr true.
Proof.
  assert (H : Some " , ," = None \/ (exists s, Some " , ," = Some s /\ blank s)).
  { right. exists " , ,". split; [reflexivity |]. unfold blank. cbn.
    repeat constructor; tauto. }
  split; [exact H |].
  exact (cors_open_when_unconfigured (Some " , ,") (VStr "https://evil.example") H).
Defined.

(** X5. With a configured allow-list (entries joined with commas, at
    least one), a request is let through exactly when it carries no
    origin, or an origin that is one of the entries, letter for letter;
    any other origin is refused with the error [CORS blocked: ] followed
    by the origin. *)
Theorem cors_decision (entries : list string) (origin : string) :
  Forall entry_like entries ->
  entries <> [] ->
  origin_callback (allow (Some (join "," entries))) VUndefined = inr true
  /\ (origin_callback (allow (Some (join "," entries))) (VStr origin) = inr true
      <-> origin = "" \/ In origin entries)
  /\ (origin <> "" -> ~ In origin entries ->
      origin_callback (allow (Some (join "," entries))) (VStr origin)
      = inl {| exn_name := "Error"; exn_message := "CORS blocked: " ++ origin |}).
Proof.
  intros F N. rewrite (allow_join entries F).
  split; [reflexivity |].
  unfold origin_callback. cbn [ToBoolean includes ToString].
  destruct entries as [| e es]; [contradiction |].
  change (List.length (e :: es) =? 0)%nat with false. cbn [orb].
  destruct (String.eqb_spec origin "") as [-> | O]; cbn [negb].
  - split; [split; [now left | reflexivity] | contradiction].
  - destruct (existsb (String.eqb origin) (e :: es)) eqn:X.
    + apply existsb_eqb in X. split; [split; [now right | reflexivity] | contradiction].
    + split; [| reflexivity].
      split; [discriminate |]. intros [-> | I]; [contradiction |].
      apply existsb_eqb in I. congruence.
Qed.

Lemma cors_decision_witness :
  Forall entry_like ["https://a.example"; "http://localhost:3000"]
  /\ ["https://a.example"; "http://localhost:3000"] <> []
  /\ origin_callback (allow (Some "https://a.example,http://localhost:3000"))
       (VStr "https://A.example")
     = inl {| exn_name := "Error"; exn_message := "CORS blocked: https://A.example" |}.
Proof.
  assert (F : Forall entry_like ["https://a.example"; "http://localhost:3000"])
    by (repeat constructor; now apply entry_check_sound).
  assert (N : ["https://a.example"; "http://localhost:3000"] <> []) by discriminate.
  split; [exact F |]. split; [exact N |].
  refine (proj2 (proj2 (cors_decision _ "https://A.example" F N)) _ _).
  - discriminate.
  - cbn [In]. intros [H | [H | []]]; discriminate H.
Defined.

(** ** The ask handler: totality, status codes and faults *)

Lemma answered_code (prices : quotes) (o : outcome) :
  In (code (answered prices o)) [200; 500; 502].
Proof.
  unfold answered. destruct o as [e | r]; [cbn; tauto |].
  destruct (payload r) as [e | d]; [cbn; tauto |].
  destruct (ok r); [| cbn; tauto].
  destruct (JSON.parse (written d)) as [data |]; [| cbn; tauto].
  destruct (Get data "choices"), (Get data "usage"); cbn; tauto.
Qed.

Lemma found_throws (prompt : value) (e : exn) :
  found prompt = inl e <-> ToString prompt = inl e.
Proof.
  unfold found. destruct (ToString prompt) as [x | t]; split; congruence.
Qed.

Lemma found_converts (prompt : value) (t : string) :
  ToString prompt = inr t -> found prompt = inr (matches t).
Proof. unfold found. now intros ->. Qed.

Lemma looked_up_length (prompt : value) : (List.length (looked_up prompt) <= 3)%nat.
Proof.
  unfold looked_up. destruct (found prompt) as [e | l]; [cbn; lia |].
  apply firstn_le_length.
Qed.

(** X6. The ask handler never raises: in every world and for every
    request body it answers, with status 200, 400, 500 or 502, after at
    most four outbound calls. *)
Theorem ask_never_raises (E : Env) (w : World) (req_body : value) :
  exists resp : response,
    result w (ask E req_body) = inr resp
    /\ In (code resp) [200; 400; 500; 502]
    /\ (List.length (calls w (ask E req_body)) <= 4)%nat.
Proof.
  exists (asked E w req_body). unfold result, calls. rewrite ask_cases. cbn [fst snd].
  split; [reflexivity |]. unfold asked, asked_calls. cbv zeta.
  destruct (ToBoolean (field req_body "prompt")); [| cbn; split; [tauto | lia]].
  destruct (found (field req_body "prompt")) as [e | matched];
    [cbn; split; [tauto | lia] |].
  split.
  - pose proof (answered_code
                  (gathered w (looked_up (field req_body "prompt")) [])
                  (answer w (ask_call E w req_body))) as C.
    cbn [In] in *. tauto.
  - rewrite length_app, length_map. cbn [List.length].
    pose proof (looked_up_length (field req_body "prompt")). lia.
Qed.

(** X7. The ask handler answers 400 exactly when the prompt is falsy
    (absent, [null], [false], zero, NaN or the empty string). It makes
    no outbound call exactly when the prompt is falsy or does not
    convert to a string (an object with a member [toString], or an
    array that holds one); in the second case the scan throws and the
    answer is 500, the detail being the error of the conversion. *)
Theorem ask_rejects_iff_falsy (E : Env) (w : World) (req_body : value) :
  (result w (ask E req_body) = inr missing_prompt
   <-> ToBoolean (field req_body "prompt") = false)
  /\ ((exists resp, result w (ask E req_body) = inr resp /\ code resp = 400)
      <-> ToBoolean (field req_body "prompt") = false)
  /\ (calls w (ask E req_body) = []
      <-> ToBoolean (field req_body "prompt") = false
          \/ exists e, ToString (field req_body "prompt") = inl e)
  /\ (forall e,
        ToBoolean (field req_body "prompt") = true ->
        ToString (field req_body "prompt") = inl e ->
        result w (ask E req_body)
        = inr {| code := 500;
                 content := VObj [("error", VStr "Server error");
                                  ("detail", VStr (describe e))] |}).
Proof.
  unfold result, calls. rewrite ask_cases. cbn [fst snd].
  unfold asked, asked_calls. cbv zeta.
  destruct (ToBoolean (field req_body "prompt")) eqn:T.
  - destruct (found (field req_body "prompt")) as [x | matched] eqn:F.
    + apply found_throws in F.
      repeat split; try discriminate; trivial.
      * intros (resp & [= <-] & H). discriminate H.
      * intros _. right. now exists x.
      * intros e _ H. rewrite F in H. now injection H as <-.
    + pose proof (answered_code
                    (gathered w (looked_up (field req_body "prompt")) [])
                    (answer w (ask_call E w req_body))) as C.
      set (resp := answered _ _) in *.
      assert (N : code resp <> 400)
        by (cbn [In] in C; intros H; rewrite H in C; intuition discriminate).
      assert (G : forall e, ToString (field req_body "prompt") <> inl e).
      { intros e H. apply found_throws in H. congruence. }
      repeat split; try discriminate.
      * intros H. exfalso. apply N.
        assert (R : resp = missing_prompt) by congruence. now rewrite R.
      * intros (r & H & K). exfalso. apply N.
        assert (R : resp = r) by congruence. now rewrite R.
      * intros H. now apply app_eq_nil in H as [_ H].
      * intros [H | (e & H)]; [discriminate | now apply G in H].
      * intros e _ H. now apply G in H.
  - repeat split; trivial; try discriminate.
    + now exists missing_prompt.
    + now left.
Qed.

Lemma answered_without_live (p q : quotes) (o : outcome) :
  code (answered p o) = code (answered q o)
  /\ without_live (content (answered p o)) = without_live (content (answered q o)).
Proof.
  unfold answered. destruct o as [e | r]; [now split |].
  destruct (payload r) as [e | d]; [now split |].
  destruct (ok r); [| now split].
  destruct (JSON.parse (written d)) as [data |]; [| now split].
  destruct (Get data "choices"), (Get data "usage"); now split.
Qed.

(** X8. The price lookups bear on the response through its member
    [live] alone: two worlds whose completion calls have the same
    outcome get the same status and, [live] apart, the same body,
    whatever their markets answered. *)
Theorem ask_prices_touch_live_only (E : Env) (w1 w2 : World) (req_body : value) :
  answer w1 (ask_call E w1 req_body) = answer w2 (ask_call E w2 req_body) ->
  exists r1 r2 : response,
    result w1 (ask E req_body) = inr r1
    /\ result w2 (ask E req_body) = inr r2
    /\ code r1 = code r2
    /\ without_live (content r1) = without_live (content r2).
Proof.
  intros A. exists (asked E w1 req_body), (asked E w2 req_body).
  unfold result. rewrite !ask_cases. cbn [fst].
  split; [reflexivity |]. split; [reflexivity |].
  unfold asked. cbv zeta.
  destruct (ToBoolean (field req_body "prompt")); [| now split].
  destruct (found (field req_body "prompt")) as [e | matched]; [now split |].
  rewrite A. apply answered_without_live.
Qed.

Lemma ask_prices_touch_live_only_witness :
  answer Sample.up (ask_call Sample.static_env Sample.up Sample.question)
  = answer offline_up (ask_call Sample.static_env offline_up Sample.question)
  /\ exists r1 r2 : response,
      result Sample.up (ask Sample.static_env Sample.question) = inr r1
      /\ result offline_up (ask Sample.static_env Sample.question) = inr r2
      /\ code r1 = code r2
      /\ without_live (content r1) = without_live (content r2).
Proof.
  assert (A : answer Sample.up (ask_call Sample.static_env Sample.up Sample.question)
              = answer offline_up (ask_call Sample.static_env offline_up Sample.question))
    by reflexivity.
  split; [exact A |].
  exact (ask_prices_touch_live_only Sample.static_env Sample.up offline_up
           Sample.question A).
Defined.

Lemma parse_not_undefined (t : string) : JSON.parse t <> Some VUndefined.
Proof. intros P. apply parse_defined in P. now destruct P. Qed.

Lemma Get_object_like (data : value) (k : string) :
  data <> VNull -> data <> VUndefined -> exists v, Get data k = inr v.
Proof.
  intros N U. destruct data; try contradiction; cbn [Get]; eauto.
  - destruct (array_index k) as [i |]; [destruct (String.get i s) |]; eauto;
      destruct (String.eqb k "length"); eauto.
  - destruct (array_index k) as [i |]; eauto;
      destruct (String.eqb k "length"); eauto.
Qed.

(** X9. For a prompt that is not falsy, the ask handler answers 500
    exactly on a fault: a prompt that the scan cannot convert to a
    string, a transport failure of the completion call, a body that
    cannot be read, or a success whose body is not JSON or is [null].
    The body is then [{ error: "Server error", detail }], [detail]
    being the error as [String] prints it; for a body that is not JSON
    that error is the one the runtime raises, whatever its text. With
    no fault the answer has status 200 or 502. *)
Theorem ask_server_error (E : Env) (w : World) (req_body : value) :
  ToBoolean (field req_body "prompt") = true ->
  match ask_fault E w req_body with
  | Some e =>
      result w (ask E req_body)
      = inr {| code := 500;
               content := VObj [("error", VStr "Server error");
                                ("detail", VStr (exn_name e ++ ": " ++ exn_message e))] |}
  | None =>
      exists resp, result w (ask E req_body) = inr resp
                   /\ (code resp = 200 \/ code resp = 502)
  end.
Proof.
  intros T. unfold result. rewrite ask_cases. cbn [fst].
  unfold asked, ask_fault. cbv zeta. rewrite T.
  destruct (found (field req_body "prompt")) as [x | matched]; [reflexivity |].
  unfold completion_fault, answered.
  destruct (answer w (ask_call E w req_body)) as [e | r]; [reflexivity |].
  destruct (payload r) as [e | d]; [reflexivity |].
  destruct (ok r); [| eexists; split; [reflexivity | now right]].
  destruct (JSON.parse (written d)) as [data |] eqn:P; [| reflexivity].
  assert (U : data <> VUndefined)
    by (intros ->; exact (parse_not_undefined (written d) P)).
  destruct data; try contradiction; try reflexivity;
    match goal with
    | |- context [Get ?d "choices"] =>
        destruct (Get_object_like d "choices") as (c & ->); try discriminate;
        destruct (Get_object_like d "usage") as (u & ->); try discriminate
    end;
    eexists; (split; [reflexivity | now left]).
Qed.

Lemma ask_server_error_witness :
  ToBoolean (field Sample.question "prompt") = true
  /\ result garbled (ask Sample.static_env Sample.question)
     = inr {| code := 500;
              content :=
                VObj [("error", VStr "Server error");
                      ("detail",
                       VStr (describe (malformed (Sample.page "<html>busy</html>"))))] |}.
Proof.
  assert (T : ToBoolean (field Sample.question "prompt") = true) by reflexivity.
  split; [exact T |].
  exact (ask_server_error Sample.static_env garbled Sample.question T).
Defined.

(** X10. For a prompt that is not falsy and that converts to a string,
    the completion call of the ask handler is its only POST and its
    last call. It names the model of the request body unless that is
    [undefined] (a [null] or empty model is passed on as it is), else
    [OPENAI_MODEL] when set and not empty, else [gpt-4o-mini]; and it is
    made whether or not an API key is configured, the header reading
    [Bearer undefined] without one. *)
Theorem ask_completion_call (E : Env) (w : World) (req_body : value) (t : string) :
  ToBoolean (field req_body "prompt") = true ->
  ToString (field req_body "prompt") = inr t ->
  exists (lookups : list request) (rq : request),
    calls w (ask E req_body) = (lookups ++ [rq])%list
    /\ forallb (fun c => String.eqb (method c) "GET") lookups = true
    /\ method rq = "POST"
    /\ url rq = "https://api.openai.com/v1/chat/completions"
    /\ header rq "Authorization" = Some (bearer E)
    /\ Get (body rq) "model" = inr (chosen_model E req_body).
Proof.
  intros T C. do 2 eexists.
  split; [apply (ask_calls E w req_body _ T (found_converts _ _ C)) |].
  split; [| split; [reflexivity | split; [reflexivity | split]]].
  - apply forallb_forall. intros c I. apply in_map_iff in I as (s & <- & _).
    reflexivity.
  - reflexivity.
  - unfold ask_call, ask_request, completion. cbn [body Get lookup own String.eqb].
    cbn. unfold model_of, chosen_model, OPENAI_MODEL. f_equal.
    destruct (field req_body "model"); try reflexivity.
    cbn [default_to]. now destruct (OPENAI_MODEL_var E) as [[| c s] |].
Qed.

Lemma ask_completion_call_witness :
  ToBoolean (field Sample.question "prompt") = true
  /\ ToString (field Sample.question "prompt") = inr "What is BTC?"
  /\ exists (lookups : list request) (rq : request),
      calls Sample.up (ask keyless Sample.question) = (lookups ++ [rq])%list
      /\ forallb (fun c => String.eqb (method c) "GET") lookups = true
      /\ method rq = "POST"
      /\ url rq = "https://api.openai.com/v1/chat/completions"
      /\ header rq "Authorization" = Some (bearer keyless)
      /\ Get (body rq) "model" = inr (chosen_model keyless Sample.question).
Proof.
  assert (T : ToBoolean (field Sample.question "prompt") = true) by reflexivity.
  assert (C : ToString (field Sample.question "prompt") = inr "What is BTC?")
    by reflexivity.
  split; [exact T |]. split; [exact C |].
  exact (ask_completion_call keyless Sample.up Sample.question _ T C).
Defined.

(** ** The price lookups of a request *)

Lemma upper_idempotent (c : ascii) : Char.upper (Char.upper c) = Char.upper c.
Proof. destruct c as [[] [] [] [] [] [] [] []]; reflexivity. Qed.

Lemma upper_not_lower (c : ascii) :
  (Char.code c <? 128) = true -> Char.is_lower (Char.upper c) = false.
Proof. destruct c as [[] [] [] [] [] [] [] []]; intros H; try reflexivity; discriminate H. Qed.

Lemma toUpperCase_idempotent (s : string) : toUpperCase (toUpperCase s) = toUpperCase s.
Proof.
  unfold toUpperCase. rewrite chars_text, map_map. f_equal.
  apply map_ext. intros c. apply upper_idempotent.
Qed.

Lemma toUpperCase_no_lower (s : string) :
  ascii_text s -> forallb (fun c => negb (Char.is_lower c)) (chars (toUpperCase s)) = true.
Proof.
  unfold ascii_text, toUpperCase. rewrite chars_text, !forallb_forall.
  intros A c I. apply in_map_iff in I as (x & <- & I).
  now rewrite (upper_not_lower x (A x I)).
Qed.

Lemma prototype_names_lower :
  forallb (fun n => negb (forallb (fun c => negb (Char.is_lower c)) (chars n)))
    object_prototype = true.
Proof. reflexivity. Qed.

Lemma toUpperCase_plain (s : string) :
  ascii_text s -> mem (toUpperCase s) object_prototype = false.
Proof.
  intros A. apply toUpperCase_no_lower in A.
  destruct (mem (toUpperCase s) object_prototype) eqn:M; [| reflexivity].
  unfold mem in M. apply existsb_exists in M as (n & I & E).
  apply String.eqb_eq in E. subst n.
  pose proof (proj1 (forallb_forall _ _) prototype_names_lower _ I) as L.
  cbn beta in L. now rewrite A in L.
Qed.

(** X11. [getUsdPrice] does not depend on the letter case of an ASCII
    symbol that does not name a member of [Object.prototype]: the
    upper-cased symbol gives the same call and the same price. *)
Theorem getUsdPrice_ignores_case (w : World) (symbol : string) :
  ascii_text symbol ->
  mem symbol object_prototype = false ->
  run w (getUsdPrice (toUpperCase symbol)) = run w (getUsdPrice symbol).
Proof.
  intros A M. rewrite !getUsdPrice_run, !pair_cases, M.
  now rewrite (toUpperCase_plain symbol A), toUpperCase_idempotent.
Qed.

Lemma getUsdPrice_ignores_case_witness :
  ascii_text "doge" /\ mem "doge" object_prototype = false
  /\ toUpperCase "doge" = "DOGE"
  /\ run Sample.up (getUsdPrice (toUpperCase "doge")) = run Sample.up (getUsdPrice "doge").
Proof.
  assert (A : ascii_text "doge") by reflexivity.
  assert (M : mem "doge" object_prototype = false) by reflexivity.
  split; [exact A |]. split; [exact M |]. split; [reflexivity |].
  exact (getUsdPrice_ignores_case Sample.up "doge" A M).
Defined.

(** X12. The loop of lookups, for symbols without repetition: it
    returns one quote per symbol, in the order of the symbols, each the
    price that [getUsdPrice] returns for that symbol in that world, and
    it makes one call per symbol. A failing lookup leaves [null] in its
    place and does not stop the loop. *)
Theorem lookups_in_order (w : World) (symbols : list string) :
  NoDup symbols ->
  exists prices : quotes,
    result w (lookups symbols []) = inr prices
    /\ map fst prices = symbols
    /\ Forall (fun kv => result w (getUsdPrice (fst kv)) = inr (snd kv)) prices
    /\ List.length (calls w (lookups symbols [])) = List.length symbols.
Proof.
  intros D. exists (map (quote_for w) symbols).
  unfold result, calls. rewrite lookups_run. cbn [fst snd].
  rewrite (gathered_fresh w symbols [] D) by (intros s _ []).
  cbn [app]. split; [reflexivity |]. split; [| split].
  - rewrite map_map. cbn [quote_for fst]. apply map_id.
  - apply Forall_forall. intros kv I. apply in_map_iff in I as (s & <- & _).
    now rewrite getUsdPrice_run.
  - apply length_map.
Qed.

Lemma lookups_in_order_witness :
  NoDup ["BTC"; "ETH"]
  /\ exists prices : quotes,
      result dark (lookups ["BTC"; "ETH"] []) = inr prices
      /\ map fst prices = ["BTC"; "ETH"]
      /\ Forall (fun kv => result dark (getUsdPrice (fst kv)) = inr (snd kv)) prices
      /\ List.length (calls dark (lookups ["BTC"; "ETH"] [])) = 2%nat.
Proof.
  assert (D : NoDup ["BTC"; "ETH"]).
  { repeat (constructor; [cbn [In]; intuition discriminate |]). constructor. }
  split; [exact D |].
  exact (lookups_in_order dark ["BTC"; "ETH"] D).
Defined.

(** ** The quiz handler: totality, status codes and faults *)

Lemma llm_mode_iff (E : Env) : llm_mode E = true <-> QUIZ_MODE E = Some "llm".
Proof.
  unfold llm_mode. destruct (QUIZ_MODE E) as [[| c s] |]; try easy.
  change (or_else (env (Some (String c s))) (VStr "static")) with (VStr (String c s)).
  rewrite String.eqb_eq. split; congruence.
Qed.

Lemma generated_code (w : World) (o : outcome) :
  code (generated w o) = 200 \/ code (generated w o) = 500.
Proof.
  unfold generated. destruct o as [e | r]; [now right |].
  destruct (ok r); [| now left].
  destruct (payload r) as [e | d]; [now right |].
  destruct (JSON.parse (written d)) as [data |]; [| now right].
  destruct (Get data "choices") as [e | choices]; [now right |].
  destruct (reply_value choices); now left.
Qed.

(** X13. The quiz handler never raises: in every world and for every
    [elo] parameter it answers, with status 200 or 500. For a
    parameter that [Number] can convert it makes one outbound call when
    [QUIZ_MODE] is exactly [llm], and none otherwise; for a parameter
    on which [Number] throws (an object with a member [toString]) it
    makes no call in either mode and answers 500. *)
Theorem quiz_never_raises (E : Env) (w : World) (param : value) :
  exists resp : response,
    result w (quiz E param) = inr resp
    /\ (code resp = 200 \/ code resp = 500)
    /\ (forall n, QUIZ_MODE E = Some "llm" -> elo param = inr n ->
        calls w (quiz E param) = [quiz_request E n])
    /\ (QUIZ_MODE E <> Some "llm" -> calls w (quiz E param) = [])
    /\ (forall e, elo param = inl e ->
        calls w (quiz E param) = [] /\ resp = server_error e).
Proof.
  exists (quizzed E w param). unfold result, calls. rewrite quiz_cases. cbn [fst snd].
  split; [reflexivity |]. unfold quizzed, quizzed_calls.
  destruct (elo param) as [x | n].
  - split; [now right |]. split; [discriminate |]. split; [reflexivity |].
    now intros e [= <-].
  - destruct (llm_mode E) eqn:M.
    + apply llm_mode_iff in M.
      split; [apply generated_code |]. split; [now intros k _ [= <-] |].
      split; [contradiction | discriminate].
    + split; [now left |]. split; [| split; [reflexivity | discriminate]].
      intros k Q _. apply llm_mode_iff in Q. congruence.
Qed.

(** X14. In generative mode the quiz handler answers 500 exactly on a
    fault: an [elo] on which [Number] throws, a transport failure of
    the generation call, or a success whose body cannot be read, is not
    JSON or is [null]. It does not fall back to the bank then. The
    detail is the error as [String] prints it; for a body that is not
    JSON that error is the one the runtime raises, whatever its text.
    With no fault the answer has status 200. *)
Theorem quiz_server_error (E : Env) (w : World) (param : value) :
  llm_mode E = true ->
  match quiz_fault E w param with
  | Some e =>
      result w (quiz E param)
      = inr {| code := 500;
               content := VObj [("error", VStr "Server error");
                                ("detail", VStr (exn_name e ++ ": " ++ exn_message e))] |}
  | None =>
      exists resp, result w (quiz E param) = inr resp /\ code resp = 200
  end.
Proof.
  intros M. unfold result. rewrite quiz_cases. cbn [fst].
  unfold quizzed, quiz_fault. rewrite M.
  destruct (elo param) as [x | n]; [reflexivity |].
  unfold generation_fault, generated.
  destruct (answer w (quiz_request E n)) as [e | r]; [reflexivity |].
  destruct (ok r); [| now eexists].
  destruct (payload r) as [e | d]; [reflexivity |].
  destruct (JSON.parse (written d)) as [data |] eqn:P; [| reflexivity].
  assert (U : data <> VUndefined)
    by (intros ->; exact (parse_not_undefined (written d) P)).
  destruct data; try contradiction; try reflexivity;
    match goal with
    | |- context [Get ?d "choices"] =>
        destruct (Get_object_like d "choices") as (c & ->); try discriminate
    end;
    destruct (reply_value c); now eexists.
Qed.

Lemma quiz_server_error_witness :
  llm_mode Sample.llm_env = true
  /\ result (quoting "<html>busy</html>") (quiz Sample.llm_env VUndefined)
     = inr {| code := 500;
              content :=
                VObj [("error", VStr "Server error");
                      ("detail",
                       VStr (describe (malformed (Sample.page "<html>busy</html>"))))] |}.
Proof.
  assert (M : llm_mode Sample.llm_env = true) by reflexivity.
  split; [exact M |].
  exact (quiz_server_error Sample.llm_env (quoting "<html>busy</html>") VUndefined M).
Defined.

(** X15. In generative mode, for a rating that [Number] can convert, a
    success reply whose JSON body carries no completion text (no
    [choices], an empty list, no [message], an empty or absent
    [content]) is answered with status 200 and the empty object: the
    default text [{}] parses, so that the bank is not consulted. *)
Theorem quiz_empty_completion (E : Env) (w : World) (param : value) (n : number)
  (r : reply) (d : document) (data : value) :
  llm_mode E = true ->
  elo param = inr n ->
  answer w (quiz_request E n) = Resolved r ->
  ok r = true ->
  payload r = inr d ->
  JSON.parse (written d) = Some data ->
  data <> VNull ->
  ToBoolean (first_content (GetOpt data "choices")) = false ->
  result w (quiz E param) = inr {| code := 200; content := VObj [] |}.
Proof.
  intros M R A K P J N F. unfold result.
  rewrite (quiz_llm_run E w param n R M). cbn [fst].
  rewrite A. unfold generated. rewrite K, P, J.
  assert (U : data <> VUndefined)
    by (intros ->; exact (parse_not_undefined (written d) J)).
  destruct (Get_object_like data "choices" N U) as (c & G).
  assert (C : GetOpt data "choices" = c) by (unfold GetOpt; now rewrite G).
  rewrite C in F. rewrite G.
  unfold reply_value, or_else. rewrite F. reflexivity.
Qed.

Lemma quiz_empty_completion_witness :
  llm_mode Sample.llm_env = true
  /\ elo VUndefined = inr (Num.of_Z 1200)
  /\ answer (quoting "{'choices':[]}") (quiz_request Sample.llm_env (Num.of_Z 1200))
     = Resolved {| status := 200;
                   payload := inr (Sample.page (JSON.dq "{'choices':[]}")) |}
  /\ result (quoting "{'choices':[]}") (quiz Sample.llm_env VUndefined)
     = inr {| code := 200; content := VObj [] |}.
Proof.
  assert (M : llm_mode Sample.llm_env = true) by reflexivity.
  assert (R : elo VUndefined = inr (Num.of_Z 1200)) by reflexivity.
  split; [exact M |]. split; [exact R |]. split; [reflexivity |].
  refine (quiz_empty_completion Sample.llm_env (quoting "{'choices':[]}") VUndefined
            (Num.of_Z 1200)
            {| status := 200; payload := inr (Sample.page (JSON.dq "{'choices':[]}")) |}
            (Sample.page (JSON.dq "{'choices':[]}")) (VObj [("choices", VArr [])])
            M R eq_refl eq_refl eq_refl eq_refl _ eq_refl).
  discriminate.
Defined.

(** ** The items of the bank *)

Lemma picked_item (w : World) :
  unit_draw (draw w) ->
  exists v, picked w = {| code := 200; content := v |} /\ quiz_item v = true.
Proof.
  intros U. unfold picked. rewrite (bank_index_selected _ U).
  pose proof (selected_bound (draw w)) as B.
  destruct (selected (draw w)) as [| [| [| n]]]; [| | | lia];
    eexists; (split; [reflexivity |]); reflexivity.
Qed.

(** X16. For a rating that [Number] can convert, whenever the quiz
    handler answers from the bank (in static mode, and in generative
    mode when the generation reply has a status that is not a success
    or a first completion on which [JSON.parse] throws), the response
    has status 200 and is a well-formed quiz item: three options, and
    an answer that is the index of one of them. *)
Theorem quiz_bank_item_valid (E : Env) (w : World) (param : value) (n : number) :
  unit_draw (draw w) ->
  elo param = inr n ->
  llm_mode E = false
  \/ (exists r, answer w (quiz_request E n) = Resolved r /\ no_generation r) ->
  exists v : value,
    result w (quiz E param) = inr {| code := 200; content := v |}
    /\ quiz_item v = true.
Proof.
  intros U R H. destruct (picked_item w U) as (v & P & Q).
  exists v. split; [| exact Q]. rewrite <- P. unfold result.
  destruct (llm_mode E) eqn:M.
  - destruct H as [H | (r & A & N)]; [discriminate |].
    rewrite (quiz_llm_run E w param n R M). cbn [fst]. rewrite A. unfold generated.
    destruct N as [K | (d & data & choices & Pl & J & G & N)].
    + now rewrite K.
    + destruct (ok r); [| reflexivity]. now rewrite Pl, J, G, N.
  - now rewrite (quiz_static_run E w param n R M).
Qed.

Lemma quiz_bank_item_valid_witness :
  unit_draw (draw drawing_high)
  /\ elo VUndefined = inr (Num.of_Z 1200)
  /\ llm_mode Sample.static_env = false
  /\ exists v : value,
      result drawing_high (quiz Sample.static_env VUndefined)
      = inr {| code := 200; content := v |}
      /\ quiz_item v = true.
Proof.
  assert (U : unit_draw (draw drawing_high)) by (repeat split).
  assert (R : elo VUndefined = inr (Num.of_Z 1200)) by reflexivity.
  assert (M : llm_mode Sample.static_env = false) by reflexivity.
  split; [exact U |]. split; [exact R |]. split; [exact M |].
  exact (quiz_bank_item_valid Sample.static_env drawing_high VUndefined _ U R
           (or_introl M)).
Defined.

(** ** The quiz handler of [src/server.js] *)

Lemma server_quiz_unrated (E : Env) (w : World) (param : value) (e : exn) :
  elo param = inl e -> run w (Server.quiz E param) = (inr (server_error e), []).
Proof. intros R. unfold Server.quiz. rewrite R. reflexivity. Qed.

Lemma server_quiz_llm_run (E : Env) (w : World) (param : value) (n : number) :
  elo param = inr n ->
  llm_mode E = true ->
  run w (Server.quiz E param)
  = (inr (match answer w (Server.quiz_request E n) with
          | Rejected e => server_error e
          | Resolved r => generated w (Resolved {| status := 200; payload := payload r |})
          end),
     [Server.quiz_request E n]).
Proof.
  intros R M. unfold Server.quiz. rewrite R. cbn [lift bind].
  rewrite M, run_try_catch, run_bind, run_fetch.
  set (rq := Server.quiz_request E n). unfold generated.
  destruct (answer w rq) as [e | r]; [done_run |].
  change (ok {| status := 200; payload := payload r |}) with true.
  cbn [payload].
  rewrite run_bind, run_json_of.
  destruct (payload r) as [e | d]; [done_run |].
  destruct (JSON.parse (written d)) as [data |]; [| done_run].
  rewrite run_bind, run_lift.
  destruct (Get data "choices") as [e | choices]; [done_run |].
  unfold reply_value.
  destruct (ToString (or_else (first_content choices) (VStr "{}"))) as [e | t];
    [rewrite run_pick; done_run |].
  destruct (JSON.parse t) as [v |]; [| rewrite run_pick]; done_run.
Qed.

(** X17. The quiz handler of [src/server.js] does not look at the
    status of the generation reply: two replies with the same body get
    the same response, so that a refusal whose body is a JSON object
    without a completion is answered with status 200 and the empty
    object. (The later versions answer such a reply from the bank.) *)
Theorem server_quiz_ignores_status (E : Env) (w1 w2 : World) (param : value)
  (r1 r2 : reply) :
  llm_mode E = true ->
  draw w1 = draw w2 ->
  answer w1 (Server.quiz_request E (rating_of param)) = Resolved r1 ->
  answer w2 (Server.quiz_request E (rating_of param)) = Resolved r2 ->
  payload r1 = payload r2 ->
  result w1 (Server.quiz E param) = result w2 (Server.quiz E param).
Proof.
  intros M D A1 A2 P. unfold result, rating_of in *.
  destruct (elo param) as [e | n] eqn:R.
  - now rewrite !(server_quiz_unrated E _ param e R).
  - rewrite !(server_quiz_llm_run E _ param n R M). cbn [fst].
    rewrite A1, A2, P. unfold generated, picked. now rewrite D.
Qed.

Lemma server_quiz_ignores_status_witness :
  llm_mode Sample.llm_env = true
  /\ result (refusing "{'error':{'message':'Incorrect API key'}}")
       (Server.quiz Sample.llm_env VUndefined)
     = result (quoting "{'error':{'message':'Incorrect API key'}}")
         (Server.quiz Sample.llm_env VUndefined)
  /\ result (refusing "{'error':{'message':'Incorrect API key'}}")
       (Server.quiz Sample.llm_env VUndefined)
     = inr {| code := 200; content := VObj [] |}
  /\ result (refusing "{'error':{'message':'Incorrect API key'}}")
       (quiz Sample.llm_env VUndefined)
     = inr (picked (refusing "{'error':{'message':'Incorrect API key'}}")).
Proof.
  assert (M : llm_mode Sample.llm_env = true) by reflexivity.
  split; [exact M |]. split; [| split; reflexivity].
  exact (server_quiz_ignores_status Sample.llm_env
           (refusing "{'error':{'message':'Incorrect API key'}}")
           (quoting "{'error':{'message':'Incorrect API key'}}")
           VUndefined _ _ M eq_refl eq_refl eq_refl eq_refl).
Defined.

(** ** The ask handler across the versions *)

Lemma ask_with_missing (system : string) (E : Env) (req_body : value) :
  ToBoolean (field req_body "prompt") = false ->
  ask_with system E req_body = Ret missing_prompt.
Proof.
  intros F. unfold ask_with. rewrite !Get_body. cbn [lift bind].
  rewrite F. reflexivity.
Qed.

Lemma ask_with_run (system : string) (E : Env) (w : World) (req_body : value) :
  ToBoolean (field req_body "prompt") = true ->
  forall prices : quotes,
    run w (ask_with system E req_body)
    = (inr (plain (answered prices (answer w (plain_call system E req_body)))),
       [plain_call system E req_body]).
Proof.
  intros T prices. unfold ask_with.
  rewrite !Get_body. cbn [lift bind]. rewrite T. cbn [negb].
  fold (model_of E req_body). fold (plain_call system E req_body).
  rewrite run_try_catch, run_bind, run_fetch.
  unfold answered.
  destruct (answer w (plain_call system E req_body)) as [e | r]; [done_run |].
  destruct (ok r); cbn [negb].
  - rewrite run_bind, run_json_of.
    destruct (payload r) as [e | d]; [done_run |].
    destruct (JSON.parse (written d)) as [data |]; [| done_run].
    rewrite run_bind, run_lift.
    destruct (Get data "choices") as [e | choices].
    { destruct (Get data "usage"); done_run. }
    rewrite run_bind, run_lift.
    destruct (Get data "usage") as [e | usage]; done_run.
  - rewrite run_bind, run_text_of.
    destruct (payload r) as [e | d]; done_run.
Qed.

(** X18. The three versions of the ask handler answer alike on a
    prompt that converts to a string: when their completion calls have
    the same outcome, the first two ([src/server.js],
    [src/unnamed/part_000]) give the response of the third without its
    member [live], with the same status; and they make that one call
    only. (On a prompt that does not convert, the third throws in its
    scan and answers 500, while the first two, which do not scan, pass
    the prompt on.) *)
Theorem ask_versions_agree (E : Env) (w w0 w1 : World) (req_body : value)
  (t : string) :
  ToString (field req_body "prompt") = inr t ->
  answer w0 (plain_call Server.system E req_body) = answer w (ask_call E w req_body) ->
  answer w1 (plain_call Part000.system E req_body) = answer w (ask_call E w req_body) ->
  exists resp : response,
    result w (ask E req_body) = inr resp
    /\ result w0 (Server.ask E req_body) = inr (plain resp)
    /\ result w1 (Part000.ask E req_body) = inr (plain resp)
    /\ (List.length (calls w0 (Server.ask E req_body)) <= 1)%nat
    /\ (List.length (calls w1 (Part000.ask E req_body)) <= 1)%nat.
Proof.
  intros C A0 A1. apply found_converts in C.
  exists (asked E w req_body).
  unfold Server.ask, Part000.ask, result, calls. rewrite ask_cases. cbn [fst].
  split; [reflexivity |]. unfold asked. cbv zeta.
  destruct (ToBoolean (field req_body "prompt")) eqn:T.
  - rewrite C.
    rewrite !(ask_with_run _ E _ req_body T
                (gathered w (looked_up (field req_body "prompt")) [])).
    cbn [fst snd List.length]. rewrite A0, A1. repeat split; lia.
  - rewrite !(ask_with_missing _ E req_body T). cbn. repeat split; lia.
Qed.

Lemma ask_versions_agree_witness :
  ToString (field Sample.question "prompt") = inr "What is BTC?"
  /\ answer Sample.up (plain_call Server.system Sample.static_env Sample.question)
     = answer Sample.up (ask_call Sample.static_env Sample.up Sample.question)
  /\ answer Sample.up (plain_call Part000.system Sample.static_env Sample.question)
     = answer Sample.up (ask_call Sample.static_env Sample.up Sample.question)
  /\ exists resp : response,
      result Sample.up (ask Sample.static_env Sample.question) = inr resp
      /\ result Sample.up (Server.ask Sample.static_env Sample.question) = inr (plain resp)
      /\ result Sample.up (Part000.ask Sample.static_env Sample.question) = inr (plain resp)
      /\ (List.length (calls Sample.up (Server.ask Sample.static_env Sample.question)) <= 1)%nat
      /\ (List.length (calls Sample.up (Part000.ask Sample.static_env Sample.question)) <= 1)%nat.
Proof.
  assert (C : ToString (field Sample.question "prompt") = inr "What is BTC?")
    by reflexivity.
  assert (A0 : answer Sample.up (plain_call Server.system Sample.static_env Sample.question)
               = answer Sample.up (ask_call Sample.static_env Sample.up Sample.question))
    by reflexivity.
  assert (A1 : answer Sample.up (plain_call Part000.system Sample.static_env Sample.question)
               = answer Sample.up (ask_call Sample.static_env Sample.up Sample.question))
    by reflexivity.
  split; [exact C |]. split; [exact A0 |]. split; [exact A1 |].
  exact (ask_versions_agree Sample.static_env Sample.up Sample.up Sample.up
           Sample.question _ C A0 A1).
Defined.

(** The versions part on a prompt that does not convert: the latest
    answers 500 without a call, the first passes the prompt on. *)
Example ask_versions_part :
  code (asked Sample.static_env Sample.up (Sample.json "{'prompt':{'toString':'BTC'}}"))
  = 500
  /\ result Sample.up
       (Server.ask Sample.static_env (Sample.json "{'prompt':{'toString':'BTC'}}"))
     = inr {| code := 200;
              content := VObj [("reply", VStr "BTC is a coin");
                               ("tokens", VNum (Num.of_Z 12));
                               ("cost", VNull)] |}.
Proof. split; vm_compute; reflexivity. Qed.
